(** * npm-package-mcp-server: a shallow embedding of [src/server.ts]

    The definitions follow the class [NpmPackageServer]:

    - [Js]        JSON values, thrown errors, results, request outcomes;
    - [Dynamic]   reading, printing and iterating values of unknown shape,
                  with the [TypeError]s the engine throws;
    - [Path]      the parts of Node's [path] module the server calls
                  ([path.join], [path.relative], [path.extname]);
    - [Fs]        the file tree the synchronous [fs] calls observe;
    - [Walk]      [shouldSkipDirectory], [isCodeFile], [findCodeFiles],
                  [getAllFiles];
    - [Files]     [getSpecificFile], [getAllCodeFiles] and the listing of
                  [listPackageFiles];
    - [Registry]  [fetchPackageInfo] and [getPackageInfo] over parsed JSON;
    - [Search]    [performPackageSearch], [searchNpmPackages] and
                  [getPopularPackages] as state passing over the two cache
                  fields and a log of the search requests sent;
    - [Extract]   [downloadAndExtract] over the file tree, with [fs.rmSync],
                  [fs.mkdirSync] and [tar.extract].

    [Lifecycle] has [ensureTempDir] and [cleanup], [Tools] the tools
    [getNpmPackageCode] and [listPackageFiles] with the catch of the tool
    handler, [Resources] the resource handler.  [Reach], [Listing],
    [ExtractSpec] and [Popular] hold the predicates the properties of the
    walks, the file list, the extraction and the digest are stated with.

    The modules named [...Facts], and those after them, hold the
    properties.

    JavaScript strings are [string]s that hold the bytes of their UTF-8
    form, JavaScript numbers binary64 floats, [Date.now()] an integer
    number of milliseconds.  What arrives from outside is taken as it
    arrives: the arguments object of a tool call may be missing, and each of
    its members is any JSON value or is missing; a response body the code
    parses and casts is any JSON value, and reading a property of [null] or
    [undefined] throws.  The package metadata the two extraction tools hand
    on ([Tools.Fetched]) is taken at its declared type.  A path is the list
    of its segments, with an empty last segment for a trailing separator.
    The file system is a tree (no link cycles) and calls run one after the
    other.  What the network and the clock do, how the engine prints and
    reads numbers and dates, and what the file system decides on its own
    (where a directory lists a new name, whether a removal is refused, what
    the links of an archive show) is an input of each operation. *)

From Stdlib Require Import ZArith Lia Bool Ascii String List.
From Stdlib Require Import Sorted Permutation.
From Stdlib Require Import Floats.PrimFloat Uint63.
From Stdlib Require Import DecimalString.
From stdpp Require Import base option list strings gmap.

Local Open Scope string_scope.
Local Open Scope list_scope.

(* ------------------------------------------------------------------------- *)
(** ** JavaScript values, errors and results *)
(* ------------------------------------------------------------------------- *)

Module Js.

(** What [JSON.parse] can return.  An object is a finite map: a repeated
    key keeps its last value, as in JavaScript. *)
#[warnings="-register-all"]
Inductive json : Type :=
| JNull
| JBool (b : bool)
| JNum (x : float)
| JStr (s : string)
| JArr (xs : list json)
| JObj (members : gmap string json).

(** A JavaScript value that may be [undefined]. *)
Definition jsval := option json.

(** ToBoolean. *)
Definition truthy (v : json) : bool :=
  match v with
  | JNull => false
  | JBool b => b
  | JNum x => negb (PrimFloat.eqb x 0%float || PrimFloat.is_nan x)
  | JStr s => negb (String.eqb s "")
  | JArr _ | JObj _ => true
  end.

Definition truthy_val (v : jsval) : bool :=
  match v with Some j => truthy j | None => false end.

(** [v.k] for a key [k] that no prototype defines (every key read by the
    server is of that kind): an object's member, [undefined] on any other
    value.  Reading a property of [null] throws and is handled by the
    callers. *)
Definition prop (k : string) (v : json) : jsval :=
  match v with
  | JObj members => members !! k
  | _ => None
  end.

(** [a || b]. *)
Definition or_else (a : jsval) (b : json) : json :=
  match a with
  | Some v => if truthy v then v else b
  | None => b
  end.

(** The [length] of a JavaScript string, which counts UTF-16 code units,
    from the bytes of its UTF-8 form: a byte that continues a character
    counts for nothing, the first byte of a four-byte character for two. *)
Definition utf16_units (c : ascii) : nat :=
  let n := nat_of_ascii c in
  if (n <? 128)%nat then 1
  else if (n <? 192)%nat then 0
  else if (n <? 240)%nat then 1
  else 2.

Fixpoint js_length (s : string) : nat :=
  match s with
  | EmptyString => 0
  | String c s' => utf16_units c + js_length s'
  end.

(** [Object.keys(v).length] for a value that is not [null]. *)
Definition keys_length (v : json) : nat :=
  match v with
  | JObj members => size members
  | JArr xs => length xs
  | JStr s => js_length s
  | JNull | JBool _ | JNum _ => 0
  end.

Inductive ErrorCode := InvalidParams | InternalError | MethodNotFound.

(** What a function throws (or a promise rejects with): an [McpError] with
    its code, or a plain [Error]; both carry a message. *)
Inductive error :=
| McpError (code : ErrorCode) (message : string)
| Error (message : string).

Definition message_of (e : error) : string :=
  match e with
  | McpError _ m => m
  | Error m => m
  end.

Inductive result (A : Type) :=
| Ok (a : A)
| Err (e : error).
Arguments Ok {A} a.
Arguments Err {A} e.

(** [catch (error) { throw new McpError(InternalError, prefix + error.message) }] *)
Definition rethrow_internal {A} (prefix : string) (r : result A) : result A :=
  match r with
  | Ok a => Ok a
  | Err e => Err (McpError InternalError (prefix +:+ message_of e))
  end.

(** The line feed of the source's ['\n']. *)
Definition nl : string := String (ascii_of_nat 10) EmptyString.

(** A length or count in a template literal. *)
Definition show_nat (n : nat) : string :=
  NilEmpty.string_of_uint (Nat.to_uint n).

(** What a request's handlers see first: the whole body (here: what
    [JSON.parse] makes of it), a transport error, or the timeout. *)
Inductive parsed (A : Type) :=
| SyntaxError (message : string)
| Value (v : A).
Arguments SyntaxError {A} message.
Arguments Value {A} v.

Inductive response (A : Type) :=
| Ended (body : parsed A)
| RequestError (message : string)
| TimedOut.
Arguments Ended {A} body.
Arguments RequestError {A} message.
Arguments TimedOut {A}.

(** The content of a tool or resource result: one text item. *)
Record TextContent := { type : string; text : string }.

Definition text_content (s : string) : list TextContent :=
  [ {| type := "text"; text := s |} ].

End Js.
(* ------------------------------------------------------------------------- *)
(** ** Values of unknown shape *)
(* ------------------------------------------------------------------------- *)

Module Dynamic.
Import Js.

(** Why the runtime throws a [TypeError] in the code modelled here. *)
Inductive fault :=
| ReadOfNullish (receiver : jsval) (key : string)
| NotIterable (what : string)
| NotAFunction (what : string)
| DestructureOfUndefined (key : string).

(** A count as a JavaScript number. *)
Definition of_nat (n : nat) : float := PrimFloat.of_uint63 (Uint63.of_Z (Z.of_nat n)).

(** [v.length] on a value that is neither [null] nor [undefined]: strings
    and arrays have one of their own, an object has it as a member. *)
Definition length_of (v : json) : jsval :=
  match v with
  | JStr s => Some (JNum (of_nat (js_length s)))
  | JArr xs => Some (JNum (of_nat (length xs)))
  | JObj members => members !! "length"
  | JNull | JBool _ | JNum _ => None
  end.

(** A byte that continues a UTF-8 character. *)
Definition continuation (c : ascii) : bool :=
  let n := nat_of_ascii c in (128 <=? n)%nat && (n <? 192)%nat.

Definition continues (s : string) : bool :=
  match s with
  | String c _ => continuation c
  | EmptyString => false
  end.

(** The characters a string iterates over. *)
Fixpoint code_points (s : string) : list string :=
  match s with
  | EmptyString => []
  | String c s' =>
      match code_points s' with
      | p :: ps =>
          if continues s' then String c p :: ps
          else String c EmptyString :: p :: ps
      | [] => [String c EmptyString]
      end
  end.

(** SameValueZero, the equality of [Set.prototype.has].  Arrays and objects
    are compared by identity, and no two values [JSON.parse] returns are
    the same array or object. *)
Definition same_value_zero (a b : jsval) : bool :=
  match a, b with
  | None, None => true
  | Some JNull, Some JNull => true
  | Some (JBool x), Some (JBool y) => Bool.eqb x y
  | Some (JNum x), Some (JNum y) =>
      PrimFloat.eqb x y || (PrimFloat.is_nan x && PrimFloat.is_nan y)
  | Some (JStr x), Some (JStr y) => String.eqb x y
  | _, _ => false
  end.

(** [set.has(v)] *)
Definition has (seen : list jsval) (v : jsval) : bool :=
  existsb (same_value_zero v) seen.

Definition quoted (s : string) : string := "'" +:+ s +:+ "'".

(** The message of the [TypeError], as V8 words it. *)
Definition TypeError_message (f : fault) : string :=
  match f with
  | ReadOfNullish (Some _) key =>
      "Cannot read properties of null (reading " +:+ quoted key +:+ ")"
  | ReadOfNullish None key =>
      "Cannot read properties of undefined (reading " +:+ quoted key +:+ ")"
  | NotIterable what => what +:+ " is not iterable"
  | NotAFunction what => what +:+ " is not a function"
  | DestructureOfUndefined key =>
      "Cannot destructure property " +:+ quoted key +:+ " of 'args' as it is undefined."
  end.

Definition type_error {A} (f : fault) : result A :=
  Err (Error (TypeError_message f)).

Section Runtime.

(** The engine's printing of numbers ([Number.prototype.toString]) and its
    reading of them ([Number(s)]). *)
Variable number_toString : float -> string.
Variable string_toNumber : string -> float.

(** [v.k] for a key other than [length] that no prototype defines: it
    throws on [null] and [undefined]. *)
Definition get (v : jsval) (k : string) : result jsval :=
  match v with
  | None | Some JNull => type_error (ReadOfNullish v k)
  | Some o => Ok (prop k o)
  end.

(** [v.length] *)
Definition get_length (v : jsval) : result jsval :=
  match v with
  | None | Some JNull => type_error (ReadOfNullish v "length")
  | Some o => Ok (length_of o)
  end.

(** [String(v)], the conversion of a template literal.  In the string of
    an array, [null] counts as the empty string. *)
Fixpoint to_string_json (v : json) : string :=
  match v with
  | JNull => "null"
  | JBool true => "true"
  | JBool false => "false"
  | JNum x => number_toString x
  | JStr s => s
  | JArr xs =>
      String.concat ","
        (List.map (fun x => match x with JNull => "" | _ => to_string_json x end) xs)
  | JObj _ => "[object Object]"
  end.

Definition to_string (v : jsval) : string :=
  match v with
  | Some j => to_string_json j
  | None => "undefined"
  end.

(** [xs.join(separator)] on an array. *)
Definition join_array (separator : string) (xs : list json) : string :=
  String.concat separator
    (List.map (fun x => match x with JNull => "" | _ => to_string_json x end) xs).

(** ToNumber. *)
Definition to_number (v : jsval) : float :=
  match v with
  | None => PrimFloat.nan
  | Some JNull => 0%float
  | Some (JBool true) => 1%float
  | Some (JBool false) => 0%float
  | Some (JNum x) => x
  | Some (JStr s) => string_toNumber s
  | Some (JArr xs) => string_toNumber (to_string_json (JArr xs))
  | Some (JObj members) => string_toNumber (to_string_json (JObj members))
  end.

(** What [for (const x of v)] goes through: the elements of an array, the
    characters of a string; nothing else [JSON.parse] returns can be
    iterated. *)
Definition iterate (what : string) (v : jsval) : result (list json) :=
  match v with
  | Some (JArr xs) => Ok xs
  | Some (JStr s) => Ok (List.map JStr (code_points s))
  | _ => type_error (NotIterable what)
  end.

End Runtime.

End Dynamic.


(* ------------------------------------------------------------------------- *)
(** ** Paths *)
(* ------------------------------------------------------------------------- *)

Module Path.

(** An absolute, normalised POSIX path is the list of its segments, the
    root being [[]]; an empty last segment stands for a trailing separator
    ([/a/b/] is [["a"; "b"; ""]]).  Relative paths supplied by a caller
    stay strings. *)
Definition path := list string.

Definition is_slash (c : ascii) : bool := Ascii.eqb c "/"%char.

(** [s.split('/')]. *)
Fixpoint split_slash (s : string) : list string :=
  match s with
  | EmptyString => [EmptyString]
  | String c s' =>
      if is_slash c then EmptyString :: split_slash s'
      else match split_slash s' with
           | seg :: rest => String c seg :: rest
           | [] => [String c EmptyString]
           end
  end.

(** One step of [path.normalize] on an absolute path; the segments seen so
    far are kept innermost first. *)
Definition normalize_step (stack : list string) (seg : string) : list string :=
  if String.eqb seg "" then stack
  else if String.eqb seg "." then stack
  else if String.eqb seg ".." then tail stack
  else seg :: stack.

Definition normalize (segs : list string) : path :=
  rev (fold_left normalize_step segs []).

(** Whether a string ends with a separator. *)
Fixpoint ends_with_slash (s : string) : bool :=
  match s with
  | EmptyString => false
  | String c EmptyString => is_slash c
  | String _ s' => ends_with_slash s'
  end.

(** [path.join(dir, rel)] for an absolute [dir]: the segments are
    normalised, and a separator that ends [rel] is kept. *)
Definition join (dir : path) (rel : string) : path :=
  let segs := normalize (dir ++ split_slash rel) in
  if ends_with_slash rel then segs ++ [""] else segs.

(** [path.relative(from, to)] as a list of segments. *)
Fixpoint relative (from to : path) : list string :=
  match from, to with
  | f :: from', t :: to' =>
      if String.eqb f t then relative from' to'
      else map (fun _ => "..") from ++ to
  | _, _ => map (fun _ => "..") from ++ to
  end.

Definition render_relative (segs : list string) : string :=
  String.concat "/" segs.

(** Position of the last ['.'] of a name, if any. *)
Fixpoint last_dot (s : string) : option nat :=
  match s with
  | EmptyString => None
  | String c s' =>
      match last_dot s' with
      | Some i => Some (S i)
      | None => if Ascii.eqb c "."%char then Some 0 else None
      end
  end.

(** [path.extname] of a directory entry name (a name holds no separator):
    the text from the last dot on, empty when there is no dot, when the only
    dot leads the name, and for the name [".."]. *)
Definition extname (name : string) : string :=
  match last_dot name with
  | None => ""
  | Some 0 => ""
  | Some i =>
      if String.eqb name ".." then ""
      else String.substring i (String.length name - i) name
  end.

(** [p] is [dir] or lies below it. *)
Definition within (dir p : path) : Prop := exists rest, p = dir ++ rest.

(** A segment [path.normalize] keeps as it is. *)
Definition plain (seg : string) : bool :=
  negb (String.eqb seg "") && negb (String.eqb seg ".") && negb (String.eqb seg "..").

(** A name with no separator in it. *)
Fixpoint no_slash (s : string) : bool :=
  match s with
  | EmptyString => true
  | String c s' => negb (is_slash c) && no_slash s'
  end.

End Path.

(* ------------------------------------------------------------------------- *)
(** ** The file tree *)
(* ------------------------------------------------------------------------- *)

Module Fs.
Import Path.

(** What [fs] can find at a path.  [File None] is a file whose read fails;
    [Dir false _] a directory whose listing fails; [Special] something
    [statSync] reports as neither file nor directory; [Dangling] a name
    [readdirSync] lists but [statSync] throws on (a broken link). *)
#[warnings="-register-all"]
Inductive entry : Type :=
| File (content : option string)
| Dir (listable : bool) (items : list (string * entry))
| Special
| Dangling.

Fixpoint assoc {A} (k : string) (l : list (string * A)) : option A :=
  match l with
  | [] => None
  | (k', v) :: l' => if String.eqb k k' then Some v else assoc k l'
  end.

(** The entry a path leads to from the root entry [e]. *)
Fixpoint resolve (e : entry) (p : path) : option entry :=
  match p with
  | [] => Some e
  | s :: p' =>
      match e with
      | Dir _ items =>
          match assoc s items with
          | Some child => resolve child p'
          | None => None
          end
      | _ => None
      end
  end.

(** [resolve] from an entry that may be missing. *)
Definition resolve_from (cur : option entry) (p : path) : option entry :=
  match cur with
  | Some e => resolve e p
  | None => None
  end.

(** There is a directory. *)
Definition is_directory (e : option entry) : Prop :=
  exists l items, e = Some (Dir l items).

Inductive stats := IsFile | IsDirectory | IsOther.

Definition stat_of (e : entry) : option stats :=
  match e with
  | File _ => Some IsFile
  | Dir _ _ => Some IsDirectory
  | Special => Some IsOther
  | Dangling => None
  end.

(** What the operating system finds at a path: with a trailing separator,
    the directory before it, and nothing when that is not a directory. *)
Definition lookup (root : entry) (p : path) : option entry :=
  match rev p with
  | EmptyString :: before =>
      match resolve root (rev before) with
      | Some (Dir l items) => Some (Dir l items)
      | _ => None
      end
  | _ => resolve root p
  end.

(** [fs.statSync]: [None] stands for the thrown error. *)
Definition statSync (root : entry) (p : path) : option stats :=
  match lookup root p with
  | Some e => stat_of e
  | None => None
  end.

(** [fs.existsSync]: true when the path can be stat'ed. *)
Definition existsSync (root : entry) (p : path) : bool :=
  match statSync root p with Some _ => true | None => false end.

(** [fs.readFileSync(p, 'utf8')]: the content, or the thrown error's
    message. *)
Definition readFileSync (root : entry) (p : path) : string + string :=
  match lookup root p with
  | Some (File (Some c)) => inl c
  | Some (File None) => inr "EACCES: permission denied"
  | Some (Dir _ _) => inr "EISDIR: illegal operation on a directory, read"
  | Some Special => inr "EIO: i/o error, read"
  | Some Dangling | None => inr "ENOENT: no such file or directory"
  end.

End Fs.

(* ------------------------------------------------------------------------- *)
(** ** Walking an extracted package *)
(* ------------------------------------------------------------------------- *)

Module Walk.
Import Path Fs.

Definition startsWith (s pre : string) : bool := String.prefix pre s.

Definition includes (l : list string) (s : string) : bool :=
  existsb (String.eqb s) l.

Definition skipDirs : list string :=
  [".git"; ".svn"; ".hg"; "node_modules"; ".DS_Store"; "__pycache__"].

Definition shouldSkipDirectory (dirName : string) : bool :=
  startsWith dirName "." || includes skipDirs dirName.

Definition codeExtensions : list string :=
  [".js"; ".ts"; ".jsx"; ".tsx"; ".mjs"; ".cjs"; ".json"].

Definition lower_ascii (c : ascii) : ascii :=
  let n := nat_of_ascii c in
  if (65 <=? n)%nat && (n <=? 90)%nat then ascii_of_nat (n + 32) else c.

Fixpoint toLowerCase (s : string) : string :=
  match s with
  | EmptyString => EmptyString
  | String c s' => String (lower_ascii c) (toLowerCase s')
  end.

Definition isCodeFile (fileName : string) : bool :=
  includes codeExtensions (toLowerCase (extname fileName)).

Record CodeFile := { cf_path : path; cf_content : string }.

(** The inner [walk] of [getAllFiles], run on the entry [e] found at
    [currentDir]; the result lists the pushes in order.  A directory's
    [items] pair each name [readdirSync] returns with the entry [statSync]
    finds under it. *)
Fixpoint walk_all (currentDir : path) (e : entry) : list path :=
  match e with
  | Dir true items =>
      (fix each (l : list (string * entry)) : list path :=
         match l with
         | [] => []
         | (item, child) :: l' =>
             let fullPath := join currentDir item in
             match child with
             | Dir _ _ =>
                 if negb (startsWith item ".") then walk_all fullPath child ++ each l'
                 else each l'
             | File _ => fullPath :: each l'
             | Special | Dangling => each l'
             end
         end) items
  | _ => []
  end.

Definition getAllFiles (root : entry) (dir : path) : list path :=
  match resolve root dir with
  | Some e => walk_all dir e
  | None => []
  end.

(** The inner [walk] of [findCodeFiles]. *)
Fixpoint walk_code (currentDir : path) (e : entry) : list CodeFile :=
  match e with
  | Dir true items =>
      (fix each (l : list (string * entry)) : list CodeFile :=
         match l with
         | [] => []
         | (item, child) :: l' =>
             let fullPath := join currentDir item in
             match child with
             | Dir _ _ =>
                 if negb (shouldSkipDirectory item) then walk_code fullPath child ++ each l'
                 else each l'
             | File content =>
                 if isCodeFile item then
                   match content with
                   | Some c => {| cf_path := fullPath; cf_content := c |} :: each l'
                   | None => each l'
                   end
                 else each l'
             | Special | Dangling => each l'
             end
         end) items
  | _ => []
  end.

Definition findCodeFiles (root : entry) (dir : path) : list CodeFile :=
  match resolve root dir with
  | Some e => walk_code dir e
  | None => []
  end.

(** Every name in the tree is one [readdirSync] can return: a segment that
    is not empty, not [.] or [..], and holds no separator. *)
Fixpoint well_named (e : entry) : bool :=
  match e with
  | Dir _ items =>
      (fix all (l : list (string * entry)) : bool :=
         match l with
         | [] => true
         | (item, child) :: l' => plain item && no_slash item && well_named child && all l'
         end) items
  | File _ | Special | Dangling => true
  end.

End Walk.

(* ------------------------------------------------------------------------- *)
(** ** Reading files of an extracted package *)
(* ------------------------------------------------------------------------- *)

Module Files.
Import Js Path Fs Walk.

(** [interface PackageInfo], with the fields [getAllCodeFiles] prints at
    their declared types. *)
Record PackageInfo := {
  pi_name : string;
  pi_version : string;
  pi_description : option string
}.

Definition is_file (st : stats) : bool :=
  match st with IsFile => true | _ => false end.

Definition getSpecificFile (root : entry) (extractedPath : path) (filePath : string)
  : result (list TextContent) :=
  let fullFilePath := join extractedPath filePath in
  if negb (existsSync root fullFilePath) then
    Err (Error ("File not found: " +:+ filePath))
  else
    match statSync root fullFilePath with
    | None => Err (Error ("ENOENT: no such file or directory, stat"))
    | Some st =>
        if negb (is_file st) then
          Err (Error ("Path is not a file: " +:+ filePath))
        else
          match readFileSync root fullFilePath with
          | inl content =>
              Ok (text_content ("File: " +:+ filePath +:+ nl +:+ nl +:+ content))
          | inr message =>
              Err (Error ("Failed to read file " +:+ filePath +:+ ": " +:+ message))
          end
    end.

Definition maxFiles : nat := 20.

(** [description || 'No description'] on an optional string. *)
Definition string_or (s : option string) (d : string) : string :=
  match s with
  | Some x => if String.eqb x "" then d else x
  | None => d
  end.

Definition header (packageInfo : PackageInfo) (found : nat) : string :=
  "Package: " +:+ pi_name packageInfo +:+ "@" +:+ pi_version packageInfo +:+ nl
  +:+ ("Description: " +:+ string_or (pi_description packageInfo) "No description" +:+ nl)
  +:+ ("Code files found: " +:+ show_nat found +:+ nl +:+ nl).

(** What one turn of the loop over [filesToShow] appends. *)
Definition section (extractedPath : path) (file : CodeFile) : string :=
  "=== " +:+ render_relative (relative extractedPath (cf_path file)) +:+ " ===" +:+ nl
  +:+ (cf_content file +:+ nl +:+ nl).

(** What the final [if (codeFiles.length > maxFiles)] appends. *)
Definition overflow (found : nat) : string :=
  if (maxFiles <? found)%nat then
    "... and " +:+ show_nat (found - maxFiles) +:+ " more files" +:+ nl
    +:+ ("Use the 'list_package_files' tool to see all files, then fetch specific files as needed." +:+ nl)
  else "".

Definition getAllCodeFiles_text (extractedPath : path) (codeFiles : list CodeFile)
    (packageInfo : PackageInfo) : string :=
  let allContent := header packageInfo (length codeFiles) in
  let filesToShow := firstn maxFiles codeFiles in
  let allContent :=
    fold_left (fun acc file => acc +:+ section extractedPath file) filesToShow allContent in
  allContent +:+ overflow (length codeFiles).

Definition getAllCodeFiles (root : entry) (extractedPath : path) (packageInfo : PackageInfo)
  : list TextContent :=
  text_content (getAllCodeFiles_text extractedPath (findCodeFiles root extractedPath) packageInfo).

(** [Array.prototype.sort()] on strings: ascending by code unit. *)
Fixpoint insert_sorted (s : string) (l : list string) : list string :=
  match l with
  | [] => [s]
  | x :: l' => if String.leb s x then s :: l else x :: insert_sorted s l'
  end.

Definition sort_strings (l : list string) : list string :=
  fold_right insert_sorted [] l.

(** The [fileList] of [listPackageFiles], after extraction. *)
Definition fileList (root : entry) (extractedPath : path) : list string :=
  sort_strings
    (map (fun filePath => render_relative (relative extractedPath filePath))
         (getAllFiles root extractedPath)).

Definition listPackageFiles_text (packageName version : string) (fileList : list string) : string :=
  "Package: " +:+ packageName +:+ "@" +:+ version +:+ nl
  +:+ ("Total files: " +:+ show_nat (length fileList) +:+ nl +:+ nl)
  +:+ ("Files:" +:+ nl +:+ String.concat nl fileList).

End Files.

(* ------------------------------------------------------------------------- *)
(** ** Package metadata *)
(* ------------------------------------------------------------------------- *)

Module Registry.
Import Js Dynamic.

(** [fetchPackageInfo], from the point where the request settles.  The
    value is [JSON.parse(data) as PackageInfo]: the cast checks nothing, so
    the value is any JSON value.  [packageInfo.dist] on [null] throws inside
    the [try], and the [catch] turns that into the invalid-JSON rejection. *)
Definition fetchPackageInfo (res : response json) : result json :=
  match res with
  | Ended (SyntaxError message) =>
      Err (Error ("Invalid JSON response: " +:+ message))
  | Ended (Value JNull) =>
      Err (Error ("Invalid JSON response: "
                  +:+ "Cannot read properties of null (reading 'dist')"))
  | Ended (Value packageInfo) =>
      match prop "dist" packageInfo with
      | Some dist =>
          if negb (truthy dist) || negb (truthy_val (prop "tarball" dist)) then
            Err (Error "Invalid package info: missing tarball URL")
          else Ok packageInfo
      | None => Err (Error "Invalid package info: missing tarball URL")
      end
  | RequestError message => Err (Error ("HTTP request failed: " +:+ message))
  | TimedOut => Err (Error "Request timeout")
  end.

(** [interface ListPackageFilesArgs], as the members of the arguments
    object arrive. *)
Record ListPackageFilesArgs := {
  packageName : jsval;
  version : jsval
}.

Definition is_string (v : jsval) : bool :=
  match v with Some (JStr _) => true | _ => false end.

(** The object literal [info] of [getPackageInfo].  The fields built with
    [||] always hold a value; the copied ones may be [undefined]; the two
    dependency fields are numbers of keys. *)
Record Info := {
  name : jsval;
  version_ : jsval;
  description : json;
  main : json;
  types : json;
  keywords : json;
  author : json;
  license : json;
  homepage : json;
  repository : json;
  tarball : jsval;
  shasum : jsval;
  dependencies : nat;
  devDependencies : nat
}.

(** [v?.k] *)
Definition opt_chain (v : jsval) (k : string) : jsval :=
  match v with
  | None | Some JNull => None
  | Some o => prop k o
  end.

(** [v.k] where [v] is known to be neither [null] nor [undefined]. *)
Definition member (v : jsval) (k : string) : jsval :=
  match v with
  | Some o => prop k o
  | None => None
  end.

Definition make_info (packageInfo : json) : Info :=
  {| name := prop "name" packageInfo;
     version_ := prop "version" packageInfo;
     description := or_else (prop "description" packageInfo) (JStr "No description available");
     main := or_else (prop "main" packageInfo) (JStr "Not specified");
     types := or_else (prop "types" packageInfo) (JStr "Not specified");
     keywords := or_else (prop "keywords" packageInfo) (JArr []);
     author := or_else (prop "author" packageInfo) (JStr "Not specified");
     license := or_else (prop "license" packageInfo) (JStr "Not specified");
     homepage := or_else (prop "homepage" packageInfo) (JStr "Not specified");
     repository := or_else (opt_chain (prop "repository" packageInfo) "url") (JStr "Not specified");
     tarball := member (prop "dist" packageInfo) "tarball";
     shasum := member (prop "dist" packageInfo) "shasum";
     dependencies := keys_length (or_else (prop "dependencies" packageInfo) (JObj ∅));
     devDependencies := keys_length (or_else (prop "devDependencies" packageInfo) (JObj ∅))
  |}.

(** [getPackageInfo], up to the [info] record; the text returned is
    [JSON.stringify(info, null, 2)] after a fixed heading.  [args] is the
    [arguments] member of the request, which may be missing: destructuring
    [undefined] throws before the [try].  [res] is how the one metadata
    request settles. *)
Definition getPackageInfo (args : option ListPackageFilesArgs) (res : response json)
  : result Info :=
  match args with
  | None => type_error (DestructureOfUndefined "packageName")
  | Some args =>
      if negb (truthy_val (packageName args)) || negb (is_string (packageName args)) then
        Err (McpError InvalidParams "packageName is required and must be a string")
      else
        rethrow_internal "Failed to get package info: "
          match fetchPackageInfo res with
          | Ok packageInfo => Ok (make_info packageInfo)
          | Err e => Err e
          end
  end.

End Registry.
(* ------------------------------------------------------------------------- *)
(** ** Searching the registry and the popular-packages cache *)
(* ------------------------------------------------------------------------- *)

Module Search.
Import Js Dynamic.

(** [interface SearchPackagesArgs], as the members of the arguments object
    arrive: each is any JSON value, or missing. *)
Record SearchPackagesArgs := {
  query : jsval;
  size : jsval;
  from : jsval
}.

(** One call of [performPackageSearch]: the three values that make up the
    request URL. *)
Record request := { req_text : string; req_size : json; req_from : json }.

(** The fields of the server object the two operations read and write,
    and the search requests sent so far. *)
Record state := {
  popularPackagesCache : option string;
  popularPackagesCacheTime : Z;
  requests : list request
}.

Definition initial : state :=
  {| popularPackagesCache := None; popularPackagesCacheTime := 0; requests := [] |}.

Definition CACHE_DURATION : Z := 24 * 60 * 60 * 1000.

(** A computation that may throw and may change the state. *)
Definition M (A : Type) : Type := state -> result A * state.

Definition ret {A} (a : A) : M A := fun st => (Ok a, st).

Definition throw {A} (e : error) : M A := fun st => (Err e, st).

Definition bind {A B} (m : M A) (k : A -> M B) : M B :=
  fun st =>
    match m st with
    | (Ok a, st') => k a st'
    | (Err e, st') => (Err e, st')
    end.

(** A computation that only may throw, run in a state. *)
Definition lift {A} (r : result A) : M A := fun st => (r, st).

(** [try { m } catch (error) { throw new McpError(InternalError, ...) }] *)
Definition try_internal {A} (prefix : string) (m : M A) : M A :=
  fun st => let '(r, st') := m st in (rethrow_internal prefix r, st').

Notation "x <- m ;; k" := (bind m (fun x => k))
  (at level 100, m at next level, right associativity).

(** Sequencing of steps that may throw. *)
Definition and_then {A B} (r : result A) (k : A -> result B) : result B :=
  match r with
  | Ok a => k a
  | Err e => Err e
  end.

Notation "'let*' x ':=' r 'in' k" := (and_then r (fun x => k))
  (at level 10, x name, r at level 100, k at level 200).

Definition dquote : string := String (ascii_of_nat 34) EmptyString.

(** The white space and line terminators of ECMAScript, by the bytes of
    their UTF-8 forms: U+0009 to U+000D and U+0020; U+00A0; U+1680, U+2000
    to U+200A, U+2028, U+2029, U+202F, U+205F, U+3000 and U+FEFF. *)
Definition space1 (a : nat) : bool :=
  ((9 <=? a)%nat && (a <=? 13)%nat) || (a =? 32)%nat.

Definition space2 (a b : nat) : bool := (a =? 194)%nat && (b =? 160)%nat.

Definition space3 (a b c : nat) : bool :=
  ((a =? 225)%nat && (b =? 154)%nat && (c =? 128)%nat)
  || ((a =? 226)%nat && (b =? 128)%nat
      && (((128 <=? c)%nat && (c <=? 138)%nat)
          || (c =? 168)%nat || (c =? 169)%nat || (c =? 175)%nat))
  || ((a =? 226)%nat && (b =? 129)%nat && (c =? 159)%nat)
  || ((a =? 227)%nat && (b =? 128)%nat && (c =? 128)%nat)
  || ((a =? 239)%nat && (b =? 187)%nat && (c =? 191)%nat).

Fixpoint trim_start (s : string) : string :=
  match s with
  | EmptyString => EmptyString
  | String a s1 =>
      if space1 (nat_of_ascii a) then trim_start s1
      else
        match s1 with
        | EmptyString => s
        | String b s2 =>
            if space2 (nat_of_ascii a) (nat_of_ascii b) then trim_start s2
            else
              match s2 with
              | EmptyString => s
              | String c s3 =>
                  if space3 (nat_of_ascii a) (nat_of_ascii b) (nat_of_ascii c)
                  then trim_start s3
                  else s
              end
        end
  end.

(** Nothing but white space. *)
Definition blank (s : string) : bool := String.eqb (trim_start s) "".

(** Drops trailing white space: the string ends where only white space
    is left. *)
Fixpoint trim_end (s : string) : string :=
  match s with
  | EmptyString => EmptyString
  | String c s' => if blank (String c s') then EmptyString else String c (trim_end s')
  end.

(** [String.prototype.trim] *)
Definition trim (s : string) : string := trim_end (trim_start s).

(** [v?.k] *)
Definition optional (v : jsval) (k : string) : jsval :=
  match v with
  | None | Some JNull => None
  | Some o => prop k o
  end.

(** [v?.length] *)
Definition optional_length (v : jsval) : jsval :=
  match v with
  | None | Some JNull => None
  | Some o => length_of o
  end.

(** [typeof pkg.author === 'string' ? pkg.author : pkg.author?.name] *)
Definition authorName (author : jsval) : jsval :=
  match author with
  | Some (JStr s) => Some (JStr s)
  | _ => optional author "name"
  end.

(** [v === 0] *)
Definition is_zero (v : jsval) : bool :=
  match v with
  | Some (JNum x) => PrimFloat.eqb x 0%float
  | _ => false
  end.

(** [Array.prototype.sort(compare)] is stable; with a comparator that
    orders by a score, the result is that of this insertion sort. *)
Fixpoint insert_by {A} (compare : A -> A -> float) (x : A) (l : list A) : list A :=
  match l with
  | [] => [x]
  | y :: l' =>
      if PrimFloat.ltb (compare y x) 0%float then y :: insert_by compare x l'
      else x :: l
  end.

Definition sort_by {A} (compare : A -> A -> float) (l : list A) : list A :=
  fold_right (insert_by compare) [] l.

Definition popularQueries : list string :=
  ["react"; "lodash"; "express"; "typescript"; "webpack";
   "eslint"; "babel"; "prettier"; "jest"; "axios"].

(** The request [performPackageSearch(searchTerm, 10, 0)] sends. *)
Definition seed_request (searchTerm : string) : request :=
  {| req_text := searchTerm; req_size := JNum 10; req_from := JNum 0 |}.

(** The state with [more] search requests added to the log. *)
Definition sent (st : state) (more : list request) : state :=
  {| popularPackagesCache := popularPackagesCache st;
     popularPackagesCacheTime := popularPackagesCacheTime st;
     requests := requests st ++ more |}.

(** The body of the loop over [results.objects]: [seen] is the set
    [allPopularPackages].  Reading [result.package.name] throws when the hit
    or its [package] is [null] or missing. *)
Definition add_hit (acc : list jsval * list json) (hit : json)
  : result (list jsval * list json) :=
  let '(allPopularPackages, packageDetails) := acc in
  let* package := get (Some hit) "package" in
  let* name := get package "name" in
  match package with
  | Some pkg =>
      if has allPopularPackages name then Ok acc
      else Ok (name :: allPopularPackages, packageDetails ++ [pkg])
  | None => Ok acc
  end.

(** The loop over [results.objects] inside the inner [try]: a throw ends
    it, and what was pushed before stays. *)
Fixpoint add_hits (hits : list json) (acc : list jsval * list json)
  : list jsval * list json :=
  match hits with
  | [] => acc
  | hit :: hits' =>
      match add_hit acc hit with
      | Ok acc' => add_hits hits' acc'
      | Err _ => acc
      end
  end.

(** A loop that appends one piece of text per element and stops at the
    first throw. *)
Fixpoint append_each {A} (piece : nat -> A -> result string) (i : nat) (l : list A)
    (resultText : string) : result string :=
  match l with
  | [] => Ok resultText
  | x :: l' =>
      let* text := piece i x in
      append_each piece (S i) l' (resultText +:+ text)
  end.

Section Runtime.

(** The registry: how the [n]-th search request of the process settles.
    The body is [JSON.parse(data) as SearchResponse]: the cast checks
    nothing, so the body is any JSON value. *)
Variable npm_search : nat -> request -> response json.

(** Number and date formatting of the JavaScript runtime:
    [x.toFixed(1)], [String(x)] and [Number(s)] on numbers and strings,
    [new Date(v).toLocaleDateString()] and [new Date().toISOString()]. *)
Variable toFixed1 : float -> string.
Variable number_toString : float -> string.
Variable string_toNumber : string -> float.
Variable toLocaleDateString : jsval -> string.
Variable toISOString : Z -> string.

Local Abbreviation to_string := (to_string number_toString).
Local Abbreviation to_number := (to_number number_toString string_toNumber).
Local Abbreviation join_array := (join_array number_toString).

Definition performPackageSearch (query : string) (size from : json) : M json :=
  fun st =>
    let req := {| req_text := query; req_size := size; req_from := from |} in
    let st' := {| popularPackagesCache := popularPackagesCache st;
                  popularPackagesCacheTime := popularPackagesCacheTime st;
                  requests := requests st ++ [req] |} in
    match npm_search (length (requests st)) req with
    | Ended (SyntaxError message) => (Err (Error ("Invalid JSON response: " +:+ message)), st')
    | Ended (Value searchResults) => (Ok searchResults, st')
    | RequestError message => (Err (Error ("HTTP request failed: " +:+ message)), st')
    | TimedOut => (Err (Error "Search request timeout"), st')
    end.

(** [(x * 100).toFixed(1)] and the percent sign. *)
Definition percent (x : jsval) : string :=
  toFixed1 (to_number x * 100)%float +:+ "%".

(** [pkg.keywords && pkg.keywords.length > 0] *)
Definition has_keywords (keywords : jsval) : bool :=
  truthy_val keywords && PrimFloat.ltb 0%float (to_number (optional_length keywords)).

(** The lines both listings print for the links and the date of a
    package; the two differ in the labels. *)
Definition links_and_date (npm_label homepage_label repository_label date_label : string)
    (pkg : jsval) : result string :=
  let* links := get pkg "links" in
  let* npm := get links "npm" in
  let* homepage := get links "homepage" in
  let* repository := get links "repository" in
  let* date := get pkg "date" in
  Ok ((npm_label +:+ to_string npm +:+ nl)
      +:+ (if truthy_val homepage then homepage_label +:+ to_string homepage +:+ nl else "")
      +:+ (if truthy_val repository
           then repository_label +:+ to_string repository +:+ nl else "")
      +:+ (date_label +:+ toLocaleDateString date +:+ nl +:+ nl)).

(** What one turn of the loop over [searchResults.objects] appends. *)
Definition search_entry (i : nat) (hit : json) : result string :=
  let* pkg := get (Some hit) "package" in
  let* score := get (Some hit) "score" in
  let* name := get pkg "name" in
  let* version := get pkg "version" in
  let* description := get pkg "description" in
  let* keywords := get pkg "keywords" in
  let* keywords_line :=
    if has_keywords keywords then
      match keywords with
      | Some (JArr xs) => Ok ("   Keywords: " +:+ join_array ", " xs +:+ nl)
      | _ => type_error (NotAFunction "pkg.keywords.join")
      end
    else Ok "" in
  let* author := get pkg "author" in
  let* final := get score "final" in
  let* detail := get score "detail" in
  let* quality := get detail "quality" in
  let* popularity := get detail "popularity" in
  let* maintenance := get detail "maintenance" in
  let* rest :=
    links_and_date "   NPM: " "   Homepage: " "   Repository: " "   Last updated: " pkg in
  Ok (("ðŸ“¦ **" +:+ to_string name +:+ "** v" +:+ to_string version +:+ nl)
      +:+ ("   " +:+ to_string (Some (or_else description (JStr "No description available")))
           +:+ nl)
      +:+ keywords_line
      +:+ (if truthy_val (authorName author)
           then "   Author: " +:+ to_string (authorName author) +:+ nl
           else "")
      +:+ ("   Score: " +:+ percent final
           +:+ " (Quality: " +:+ percent quality
           +:+ ", Popularity: " +:+ percent popularity
           +:+ ", Maintenance: " +:+ percent maintenance +:+ ")" +:+ nl)
      +:+ rest).

(** The text [searchNpmPackages] builds from the parsed body. *)
Definition search_text (query : string) (from : json) (searchResults : json)
  : result string :=
  let* total := get (Some searchResults) "total" in
  let* objects := get (Some searchResults) "objects" in
  let* shown := get_length objects in
  let* results := iterate "searchResults.objects" objects in
  let* resultText :=
    append_each search_entry 0 results
      (("Search Results for " +:+ dquote +:+ query +:+ dquote +:+ nl)
       +:+ ("Total packages found: " +:+ to_string total +:+ nl)
       +:+ ("Showing " +:+ to_string shown
            +:+ " results (from " +:+ to_string (Some from) +:+ ")" +:+ nl +:+ nl)) in
  Ok (if is_zero shown then
        resultText +:+ "No packages found for this search query." +:+ nl
        +:+ "Try:" +:+ nl
        +:+ "- Using different keywords" +:+ nl
        +:+ "- Checking spelling" +:+ nl
        +:+ "- Using more general terms" +:+ nl
      else resultText).

(** [!query || typeof query !== 'string' || query.trim().length === 0] *)
Definition bad_query (query : jsval) : bool :=
  match query with
  | Some (JStr q) => String.eqb q "" || String.eqb (trim q) ""
  | Some _ | None => true
  end.

(** [size > 250] *)
Definition too_large (size : json) : bool :=
  PrimFloat.ltb 250%float (to_number (Some size)).

(** [searchNpmPackages].  [args] is the [arguments] member of the request,
    which may be missing: destructuring [undefined] throws before the
    checks. *)
Definition searchNpmPackages (args : option SearchPackagesArgs) : M (list TextContent) :=
  match args with
  | None => lift (type_error (DestructureOfUndefined "query"))
  | Some args =>
      let size := default (JNum 20) (size args) in
      let from := default (JNum 0) (from args) in
      match query args with
      | Some (JStr query) =>
          if bad_query (Some (JStr query)) then
            throw (McpError InvalidParams "query is required and must be a non-empty string")
          else if too_large size then
            throw (McpError InvalidParams "size cannot exceed 250")
          else
            try_internal "Failed to search packages: "
              (searchResults <- performPackageSearch (trim query) size from ;;
               resultText <- lift (search_text query from searchResults) ;;
               ret (text_content resultText))
      | _ =>
          throw (McpError InvalidParams "query is required and must be a non-empty string")
      end
  end.

(** The loop over [popularQueries.slice(0, 5)]: a search that fails, and
    a body the inner loop throws on, is logged and skipped. *)
Fixpoint seed_searches (terms : list string) (acc : list jsval * list json)
  : M (list jsval * list json) :=
  match terms with
  | [] => ret acc
  | searchTerm :: terms' =>
      fun st =>
        match performPackageSearch searchTerm (JNum 10) (JNum 0) st with
        | (Ok results, st') =>
            match (let* objects := get (Some results) "objects" in
                   iterate "results.objects" objects) with
            | Ok hits => seed_searches terms' (add_hits hits acc) st'
            | Err _ => seed_searches terms' acc st'
            end
        | (Err _, st') => seed_searches terms' acc st'
        end
  end.

(** The score of the comparator in [getPopularPackages], for a package
    whose [name] is neither [null] nor missing. *)
Definition heuristic (a : json) : float :=
  ((if PrimFloat.ltb (to_number (optional_length (prop "name" a))) 15%float then 1 else 0)
   + (if truthy_val (prop "description" a) then 1 else 0)
   + to_number (Some (or_else (optional_length (prop "keywords" a)) (JNum 0))) / 10)%float.

Definition by_heuristic (a b : json) : float :=
  (heuristic b - heuristic a)%float.

(** [a.name.length] throws. *)
Definition nameless (a : json) : bool :=
  match prop "name" a with
  | None | Some JNull => true
  | Some _ => false
  end.

(** The order in which the sort first reads the elements of an array it
    sorts in one run (V8 does so below 64 elements): its first comparison
    is of the second element with the first. *)
Definition read_order (packageDetails : list json) : list json :=
  match packageDetails with
  | a :: b :: others => b :: a :: others
  | _ => packageDetails
  end.

(** [packageDetails.sort(...)].  With two packages or more the comparator
    reads [name.length] of each, and throws on the first it reads whose
    [name] is [null] or missing.  The scores order the packages unless one
    of them is not a number; the order the engine leaves then is taken to
    be that of [sort_by] too. *)
Definition sort_packages (packageDetails : list json) : result (list json) :=
  match packageDetails with
  | [] | [_] => Ok packageDetails
  | _ =>
      match List.filter nameless (read_order packageDetails) with
      | a :: _ => type_error (ReadOfNullish (prop "name" a) "length")
      | [] => Ok (sort_by by_heuristic packageDetails)
      end
  end.

(** What one turn of the loop over [topPackages] appends; [i] counts
    from 0. *)
Definition popular_entry (i : nat) (pkg : json) : result string :=
  let name := prop "name" pkg in
  let version := prop "version" pkg in
  let description := prop "description" pkg in
  let keywords := prop "keywords" pkg in
  let* keywords_line :=
    if has_keywords keywords then
      match keywords with
      | Some (JArr xs) => Ok ("**Keywords:** " +:+ join_array ", " (firstn 5 xs) +:+ nl)
      | Some (JStr _) => type_error (NotAFunction "pkg.keywords.slice(...).join")
      | _ => type_error (NotAFunction "pkg.keywords.slice")
      end
    else Ok "" in
  let author := prop "author" pkg in
  let* rest :=
    links_and_date "**NPM:** " "**Homepage:** " "**Repository:** " "**Last Updated:** "
      (Some pkg) in
  Ok (("## " +:+ show_nat (i + 1) +:+ ". " +:+ to_string name +:+ nl)
      +:+ ("**Version:** " +:+ to_string version +:+ nl)
      +:+ ("**Description:** "
           +:+ to_string (Some (or_else description (JStr "No description available")))
           +:+ nl)
      +:+ keywords_line
      +:+ (if truthy_val (authorName author)
           then "**Author:** " +:+ to_string (authorName author) +:+ nl
           else "")
      +:+ rest).

Definition popular_entries (i : nat) (pkgs : list json) (resultText : string)
  : result string :=
  append_each popular_entry i pkgs resultText.

(** The digest built from the accumulated [packageDetails]; [stamp] is the
    clock read by [new Date()]. *)
Definition digest (stamp : Z) (packageDetails : list json) : result string :=
  let* sorted := sort_packages packageDetails in
  let resultText := "# ðŸ”¥ Most Popular NPM Packages" +:+ nl +:+ nl in
  let resultText := resultText +:+ "Updated: " +:+ toISOString stamp +:+ nl +:+ nl in
  let topPackages := firstn 50 sorted in
  popular_entries 0 topPackages resultText.

Definition cache_is_fresh (st : state) (now : Z) : bool :=
  match popularPackagesCache st with
  | Some cached =>
      negb (String.eqb cached "")
      && (now - popularPackagesCacheTime st <? CACHE_DURATION)%Z
  | None => false
  end.

(** [getPopularPackages]; [now] is [Date.now()] on entry.  The cache is
    written when the digest is built, not when building it throws. *)
Definition getPopularPackages (now stamp : Z) : M (list TextContent) :=
  fun st =>
    if cache_is_fresh st now then
      (Ok (text_content (default "" (popularPackagesCache st))), st)
    else
      try_internal "Failed to fetch popular packages: "
        (found <- seed_searches (firstn 5 popularQueries) ([], []) ;;
         resultText <- lift (digest stamp (snd found)) ;;
         fun st' =>
           (Ok (text_content resultText),
            {| popularPackagesCache := Some resultText;
               popularPackagesCacheTime := now;
               requests := requests st' |})) st.

(** The states the server can be in: the initial one, and what a call of
    either operation leaves behind. *)
Inductive reachable : state -> Prop :=
| reachable_initial : reachable initial
| reachable_search (args : option SearchPackagesArgs) (st : state) :
    reachable st -> reachable (snd (searchNpmPackages args st))
| reachable_popular (now stamp : Z) (st : state) :
    reachable st -> reachable (snd (getPopularPackages now stamp st)).

End Runtime.

End Search.

(* ------------------------------------------------------------------------- *)
(** ** Downloading and unpacking an archive *)
(* ------------------------------------------------------------------------- *)

Module Extract.
Import Js Path Fs.

Definition sanitize_char (c : ascii) : ascii :=
  if Ascii.eqb c "@"%char || Ascii.eqb c "/"%char then "_"%char else c.

(** [packageName.replace(/[@\/]/g, '_')] *)
Fixpoint sanitize (packageName : string) : string :=
  match packageName with
  | EmptyString => EmptyString
  | String c s => String (sanitize_char c) (sanitize s)
  end.

(** What [fs.rmSync(p, { recursive: true })] does with what it finds at
    [p]: it removes it, or it throws (no permission, a busy file) and
    leaves something there, or nothing. *)
Inductive removal :=
| Removed
| Refused (message : string) (remains : option entry).

(** Replaces the entry a listing has under [k]. *)
Fixpoint replace_item (k : string) (v : entry) (items : list (string * entry))
  : list (string * entry) :=
  match items with
  | [] => []
  | (k', v') :: items' =>
      if String.eqb k k' then (k, v) :: items' else (k', v') :: replace_item k v items'
  end.

Definition insert_at {A} (n : nat) (x : A) (l : list A) : list A :=
  firstn n l ++ x :: skipn n l.

Definition remove_item (k : string) (items : list (string * entry))
  : list (string * entry) :=
  List.filter (fun kv => negb (String.eqb k (fst kv))) items.

(** An archive member as [tar] hands it to the extractor: a file with
    its content, a directory, or a hard or symbolic link with the path it
    names.  (Device nodes and FIFOs are passed over by [tar] and left out
    here.) *)
Inductive tar_kind :=
| TarFile (content : string)
| TarDirectory
| TarLink (linkpath : string).

Record tar_entry := { te_path : string; te_kind : tar_kind }.

(** The path an entry is written to under [cwd] with [strip: n]: the first
    [n] parts of the stored path, split at the separators, go, and of the
    others the empty ones and the [.] are passed over.  An entry with fewer
    than [n] parts, or with a [..] among the parts that stay, is not
    written ([tar] refuses [..] unless [preservePaths] is set). *)
Definition stripped (n : nat) (p : string) : option (list string) :=
  let parts := split_slash p in
  if (length parts <? n)%nat then None
  else if existsb (String.eqb "..") (skipn n parts) then None
  else Some (List.filter (fun s => negb (String.eqb s "") && negb (String.eqb s "."))
               (skipn n parts)).

(** How the piped streams end. *)
Inductive stream_end :=
| Finished
| DecompressionFailed (message : string)
| ExtractionFailed (message : string)
| DownloadTimeout.

(** How the GET of an archive URL goes: a transport error, the 30 s timeout
    before any response, or a response with its status code, the entries the
    extractor was handed, and the way the streams ended. *)
Inductive download :=
| RequestFailed (message : string)
| NoResponse
| Response (statusCode : nat) (unpacked : list tar_entry) (how : stream_end).

(** Puts [new] where [p] leads to; nothing changes when [p] leads
    nowhere. *)
Fixpoint graft (p : path) (new : entry) (e : entry) : entry :=
  match p with
  | [] => new
  | s :: p' =>
      match e with
      | Dir l items =>
          match assoc s items with
          | Some child => Dir l (replace_item s (graft p' new child) items)
          | None => e
          end
      | _ => e
      end
  end.

Section FileSystem.

(** What the file system decides on its own: where [readdirSync] shows a
    name that is new to a directory (the position among the names the
    directory has), and how a removal ends. *)
Variable readdir_slot : string -> list string -> nat.
Variable rm_outcome : path -> entry -> removal.

(** What is seen in the directory [tar] unpacks into once it has made the
    links of an archive: from the entries still to come, the first of which
    is a link, and the listing of the directory before, the listing of the
    directory after.  What a link shows depends on what it leads to, and
    [tar] refuses to write through one. *)
Variable tar_links : list tar_entry -> list (string * entry) -> list (string * entry).

(** Binds [k] to [v] in a directory listing: in place when the name is
    there, where the file system puts a new name otherwise. *)
Definition set_item (k : string) (v : entry) (items : list (string * entry))
  : list (string * entry) :=
  match assoc k items with
  | Some _ => replace_item k v items
  | None => insert_at (readdir_slot k (map fst items)) (k, v) items
  end.

(** [fs.rmSync(p, { recursive: true })] at [p], of which [rest] is still to
    go from the entry [e]: the message of the thrown error, if any, and the
    tree left behind.  It throws when nothing is at [p], when [p] is the
    root, and when the file system refuses. *)
Fixpoint rm_at (p : path) (e : entry) (rest : path) : option string * entry :=
  match rest with
  | [] => (Some "EBUSY: resource busy or locked, rm", e)
  | s :: rest' =>
      match e with
      | Dir l items =>
          match assoc s items with
          | Some child =>
              match rest' with
              | [] =>
                  match rm_outcome p child with
                  | Removed => (None, Dir l (remove_item s items))
                  | Refused message None => (Some message, Dir l (remove_item s items))
                  | Refused message (Some remains) =>
                      (Some message, Dir l (set_item s remains items))
                  end
              | _ :: _ =>
                  let '(thrown, child') := rm_at p child rest' in
                  (thrown, Dir l (set_item s child' items))
              end
          | None => (Some "ENOENT: no such file or directory, rm", e)
          end
      | _ => (Some "ENOENT: no such file or directory, rm", e)
      end
  end.

Definition rmSync (root : entry) (p : path) : option string * entry :=
  rm_at p root p.

(** [fs.mkdirSync(p, { recursive: true })] seen from the entry [cur] that
    is (or is not) where [p] starts; [None] stands for the thrown error:
    something that is not a directory is in the way.  (That the operating
    system fails for a reason of its own, a full disk say, is modelled for
    the removal only.) *)
Fixpoint mkdirSync (p : path) (cur : option entry) : option entry :=
  match p with
  | [] =>
      match cur with
      | None => Some (Dir true [])
      | Some (Dir l items) => Some (Dir l items)
      | Some _ => None
      end
  | s :: p' =>
      match cur with
      | None =>
          match mkdirSync p' None with
          | Some child => Some (Dir true [(s, child)])
          | None => None
          end
      | Some (Dir l items) =>
          match mkdirSync p' (assoc s items) with
          | Some child => Some (Dir l (set_item s child items))
          | None => None
          end
      | Some _ => None
      end
  end.

(** What [tar] makes of a file or a directory entry at [p], seen from the
    entry [cur] that is (or is not) where [p] starts; [None] stands for an
    entry that is passed over with a warning.  Missing directories on the
    way are made; the way does not go through anything that is not a
    directory.  At the end, a file takes the place of what is there unless
    that is a directory with something in it, and a directory leaves a
    directory as it is and takes the place of anything else.  Links are
    not made here but in [unpack]. *)
Fixpoint place (p : path) (k : tar_kind) (cur : option entry) : option entry :=
  match p with
  | [] =>
      match k, cur with
      | TarFile content, Some (Dir _ (_ :: _)) => None
      | TarFile content, _ => Some (File (Some content))
      | TarDirectory, Some (Dir l items) => Some (Dir l items)
      | TarDirectory, _ => Some (Dir true [])
      | TarLink _, _ => None
      end
  | s :: p' =>
      match cur with
      | None =>
          match place p' k None with
          | Some child => Some (Dir true [(s, child)])
          | None => None
          end
      | Some (Dir l items) =>
          match place p' k (assoc s items) with
          | Some child => Some (Dir l (set_item s child items))
          | None => None
          end
      | Some _ => None
      end
  end.

(** One entry of the archive.  An entry whose path, stripped, is that of
    [cwd] itself changes nothing. *)
Definition unpack_entry (cwd : path) (root : entry) (e : tar_entry) : entry :=
  match stripped 1 (te_path e) with
  | Some (s :: rel) =>
      match place (cwd ++ s :: rel) (te_kind e) (Some root) with
      | Some root' => root'
      | None => root
      end
  | Some [] | None => root
  end.

(** [tar.extract({ cwd, strip: 1 })] fed the entries in archive order.
    Files and directories are written one by one; from the first link on,
    what the directory at [cwd] holds in the end is for [tar_links] to
    say. *)
Fixpoint unpack (cwd : path) (entries : list tar_entry) (root : entry) : entry :=
  match entries with
  | [] => root
  | e :: rest =>
      match te_kind e with
      | TarLink _ =>
          match resolve root cwd with
          | Some (Dir l items) => graft cwd (Dir l (tar_links entries items)) root
          | _ => root
          end
      | TarFile _ | TarDirectory => unpack cwd rest (unpack_entry cwd root e)
      end
  end.

Section Server.

(** [this.tempDir] *)
Variable tempDir : path.

(** The network: what a GET of each URL does. *)
Variable https_get : string -> download.

Definition extractPath_of (packageName : string) : path :=
  join tempDir (sanitize packageName).

(** [downloadAndExtract]: the promise's outcome and the file tree left
    behind.  A throw of [rmSync] or [mkdirSync] rejects the promise of the
    [async] function. *)
Definition downloadAndExtract (tarballUrl packageName : string) (root : entry)
  : result path * entry :=
  let sanitizedName := sanitize packageName in
  let extractPath := join tempDir sanitizedName in
  match (if existsSync root extractPath then rmSync root extractPath else (None, root)) with
  | (Some message, root1) => (Err (Error message), root1)
  | (None, root1) =>
      match mkdirSync extractPath (Some root1) with
      | None => (Err (Error "EEXIST: file already exists, mkdir"), root1)
      | Some root2 =>
          match https_get tarballUrl with
          | RequestFailed message => (Err (Error ("Download failed: " +:+ message)), root2)
          | NoResponse => (Err (Error "Download timeout"), root2)
          | Response statusCode unpacked how =>
              if negb (statusCode =? 200)%nat then
                (Err (Error ("HTTP " +:+ show_nat statusCode +:+ ": Failed to download tarball")),
                 root2)
              else
                let root3 := unpack extractPath unpacked root2 in
                match how with
                | Finished => (Ok extractPath, root3)
                | DecompressionFailed message =>
                    (Err (Error ("Decompression failed: " +:+ message)), root3)
                | ExtractionFailed message =>
                    (Err (Error ("Extraction failed: " +:+ message)), root3)
                | DownloadTimeout => (Err (Error "Download timeout"), root3)
                end
          end
      end
  end.

End Server.

End FileSystem.

End Extract.


(* ------------------------------------------------------------------------- *)
(** ** Sample inputs *)
(* ------------------------------------------------------------------------- *)

Module Samples.
Import Js Path Fs Walk Files.

(** An extracted package with a source file and a bundled dependency. *)
Definition with_node_modules : entry :=
  Dir true
    [("index.js", File (Some "module.exports = 1;"));
     ("node_modules", Dir true [("lib.js", File (Some "exports.x = 2;"))])].

(** The server's directory: [temp] holds the sandbox [pkg] and, next to
    it, a file that belongs to no package. *)
Definition server_root : entry :=
  Dir true
    [("srv",
      Dir true
        [("temp",
          Dir true
            [("pkg", with_node_modules);
             ("outside.txt", File (Some "secret"))])])].

Definition sandbox : path := ["srv"; "temp"; "pkg"].

(** A package of [n] code files [0.js], [1.js], ... *)
Definition many_files (n : nat) : entry :=
  Dir true (map (fun i => (show_nat i +:+ ".js", File (Some "x"))) (seq 0 n)).

Definition some_package : PackageInfo :=
  {| pi_name := "many"; pi_version := "1.0.0"; pi_description := None |}.

(** A metadata body with an archive URL and no checksum. *)
Definition body_without_shasum : json :=
  JObj {[ "name" := JStr "left-pad";
          "version" := JStr "1.3.0";
          "dist" := JObj {[ "tarball" := JStr "https://registry.npmjs.org/left-pad/-/left-pad-1.3.0.tgz" ]} ]}.

(** A metadata body with no optional field but its dependencies. *)
Definition bare_metadata : json :=
  JObj {[ "name" := JStr "bare";
          "version" := JStr "0.1.0";
          "dist" := JObj {[ "tarball" := JStr "https://registry.npmjs.org/bare/-/bare-0.1.0.tgz";
                            "shasum" := JStr "da39a3ee5e6b4b0d3255bfef95601890afd80709" ]};
          "dependencies" := JObj {[ "left-pad" := JStr "^1.3.0"; "semver" := JStr "^7.0.0" ]} ]}.

Definition bare_args : Registry.ListPackageFilesArgs :=
  {| Registry.packageName := Some (JStr "bare"); Registry.version := None |}.

(** A registry that answers every search with one hit named after the
    query, and a runtime that prints every number and date the same way
    and reads no string as a number. *)
Definition one_hit (n : nat) (r : Search.request) : response json :=
  Ended (Value
    (JObj {[ "objects" :=
               JArr [ JObj {[ "package" :=
                                JObj {[ "name" := JStr (Search.req_text r);
                                        "version" := JStr "1.0.0";
                                        "date" := JStr "2024-01-01T00:00:00.000Z";
                                        "links" :=
                                          JObj {[ "npm" := JStr "https://www.npmjs.com/" ]} ]};
                              "score" :=
                                JObj {[ "final" := JNum 1;
                                        "detail" := JObj {[ "quality" := JNum 1;
                                                            "popularity" := JNum 1;
                                                            "maintenance" := JNum 1 ]} ]} ]} ];
             "total" := JNum 1;
             "time" := JStr "now" ]})).

Definition fixed_number (x : float) : string := "1".

Definition no_number (s : string) : float := PrimFloat.nan.

(** [String(x)] and [x.toFixed(1)] on the few numbers of the samples. *)
Definition small_number (x : float) : string :=
  if PrimFloat.eqb x 0 then "0"
  else if PrimFloat.eqb x 1 then "1"
  else if PrimFloat.eqb x 20 then "20"
  else "NaN".


Definition fixed_date (d : jsval) : string := "1/1/2024".

Definition fixed_iso (t : Z) : string := "2024-01-01T00:00:00.000Z".

(** A search for 300 results. *)
Definition oversized_search : Search.SearchPackagesArgs :=
  {| Search.query := Some (JStr "react"); Search.size := Some (JNum 300); Search.from := None |}.

(** A registry whose hits carry a name and nothing else. *)
Definition hits_without_links (n : nat) (r : Search.request) : response json :=
  Ended (Value
    (JObj {[ "objects" :=
               JArr [ JObj {[ "package" := JObj {[ "name" := JStr (Search.req_text r) ]} ]} ];
             "total" := JNum 1 ]})).


(** A server whose [temp] directory is still empty, and two archives. *)
Definition temp_root : entry :=
  Dir true [("srv", Dir true [("temp", Dir true [])])].

Definition temp_dir : path := ["srv"; "temp"].

Definition first_archive : list Extract.tar_entry :=
  [ {| Extract.te_path := "package/package.json"; Extract.te_kind := Extract.TarFile "{}" |};
    {| Extract.te_path := "package/index.js"; Extract.te_kind := Extract.TarFile "one" |} ].

Definition second_archive : list Extract.tar_entry :=
  [ {| Extract.te_path := "package/main.js"; Extract.te_kind := Extract.TarFile "two" |} ].

Definition two_archives (url : string) : Extract.download :=
  if String.eqb url "https://registry.npmjs.org/first.tgz"
  then Extract.Response 200 first_archive Extract.Finished
  else Extract.Response 200 second_archive Extract.Finished.

(** A file system that shows a new name last and refuses no removal, and
    one that refuses every removal and leaves what is there. *)
Definition lists_last (name : string) (names : list string) : nat := length names.

Definition removes_all (p : path) (e : entry) : Extract.removal := Extract.Removed.

(** Links that change nothing: the sample archives have none. *)
Definition no_links (entries : list Extract.tar_entry) (items : list (string * entry))
  : list (string * entry) := items.

Definition removes_nothing (p : path) (e : entry) : Extract.removal :=
  Extract.Refused "EACCES: permission denied, rm" (Some e).

End Samples.

(* ------------------------------------------------------------------------- *)
(** ** What the walks reach *)
(* ------------------------------------------------------------------------- *)

Module Reach.
Import Path Fs Walk.

(** No directory lists a name twice. *)
Fixpoint distinct_names (e : entry) : bool :=
  match e with
  | Dir _ items =>
      (fix all (l : list (string * entry)) : bool :=
         match l with
         | [] => true
         | (item, child) :: l' =>
             negb (existsb (String.eqb item) (map fst l')) && distinct_names child && all l'
         end) items
  | File _ | Special | Dangling => true
  end.

(** From the directory [e], the directories [rel] lead to the file [name]:
    each of them can be listed and none has a name that [hidden] holds of. *)
Fixpoint leads_to (hidden : string -> bool) (e : entry) (rel : list string) (name : string)
  : option (option string) :=
  match e with
  | Dir true items =>
      match rel with
      | [] =>
          match assoc name items with
          | Some (File content) => Some content
          | _ => None
          end
      | d :: rel' =>
          if hidden d then None
          else match assoc d items with
               | Some (Dir l sub) => leads_to hidden (Dir l sub) rel' name
               | _ => None
               end
      end
  | _ => None
  end.

Definition dot_name (item : string) : bool := startsWith item ".".

(** [leads_to] from the entry found at [dir]. *)
Definition reached (hidden : string -> bool) (root : entry) (dir : path)
    (rel : list string) (name : string) : option (option string) :=
  match resolve root dir with
  | Some e => leads_to hidden e rel name
  | None => None
  end.

(** An entry the walks get nothing from: a directory that cannot be listed,
    something that is neither file nor directory, a broken link. *)
Definition unreadable (e : entry) : bool :=
  match e with
  | Dir false _ | Special | Dangling => true
  | Dir true _ | File _ => false
  end.

(** The first name on the way to the file [name] through [rel]. *)
Definition first_key (rel : list string) (name : string) : string :=
  match rel with
  | [] => name
  | d :: _ => d
  end.

End Reach.

(* ------------------------------------------------------------------------- *)
(** ** The order of the file list *)
(* ------------------------------------------------------------------------- *)

Module Listing.

(** The order [Array.prototype.sort] puts strings in, as a relation. *)
Definition leb_true (a b : string) : Prop := String.leb a b = true.

End Listing.
(* ------------------------------------------------------------------------- *)
(** ** What a download unpacked, and paths that part ways *)
(* ------------------------------------------------------------------------- *)

Module ExtractSpec.
Import Js Path Fs Extract.

(** The entries a download got unpacked: those of a response with status
    200, none otherwise. *)
Definition unpacked_by (dl : download) : list tar_entry :=
  match dl with
  | Response statusCode unpacked _ => if (statusCode =? 200)%nat then unpacked else []
  | RequestFailed _ | NoResponse => []
  end.

(** Two paths part ways: after a common start, each goes on with a
    different segment. *)
Definition apart (p q : path) : Prop :=
  exists common a b p' q', p = common ++ a :: p' /\ q = common ++ b :: q' /\ a <> b.








(** The removal of what is at [p] is not refused. *)
Definition removable (rm_outcome : path -> entry -> removal) (root : entry) (p : path)
  : Prop :=
  forall e, resolve root p = Some e -> rm_outcome p e = Removed.

End ExtractSpec.

(* ------------------------------------------------------------------------- *)
(** ** What the seed searches accumulate *)
(* ------------------------------------------------------------------------- *)

Module Popular.
Import Js Search.

(** The name of a package, when it is a string. *)
Definition string_name (pkg : json) : option string :=
  match prop "name" pkg with
  | Some (JStr s) => Some s
  | _ => None
  end.

Section Runtime.

Variable npm_search : nat -> request -> response json.

(** Some search response held the package: it is the [package] of one of
    the [objects] of a body the registry sent. *)
Definition returned (pkg : json) : Prop :=
  exists n req searchResults hits hit,
    npm_search n req = Ended (Value searchResults)
    /\ prop "objects" searchResults = Some (JArr hits)
    /\ In hit hits
    /\ prop "package" hit = Some pkg.

(** What the seed loop keeps true of its two accumulators. *)
Definition accumulated (acc : list jsval * list json) : Prop :=
  NoDup (omap string_name (snd acc))
  /\ (forall s, In (Some (JStr s)) (fst acc) <-> In s (omap string_name (snd acc)))
  /\ Forall returned (snd acc).

End Runtime.

End Popular.

(* ------------------------------------------------------------------------- *)
(** ** The temp directory at start and exit *)
(* ------------------------------------------------------------------------- *)

Module Lifecycle.
Import Js Path Fs Extract.

Section Server.

Variable readdir_slot : string -> list string -> nat.
Variable rm_outcome : path -> entry -> removal.

(** [this.tempDir] *)
Variable tempDir : path.

(** [ensureTempDir], called by the constructor; [None] stands for the
    error [mkdirSync] throws. *)
Definition ensureTempDir (root : entry) : option entry :=
  if negb (existsSync root tempDir) then mkdirSync readdir_slot tempDir (Some root)
  else Some root.

(** [cleanup], called on process exit: the message it logs when [rmSync]
    throws, if it does, and the tree left behind. *)
Definition cleanup (root : entry) : option string * entry :=
  if existsSync root tempDir then
    match rmSync readdir_slot rm_outcome root tempDir with
    | (Some message, root') =>
        (Some ("Failed to cleanup temp directory: Error: " +:+ message), root')
    | (None, root') => (None, root')
    end
  else (None, root).

End Server.

End Lifecycle.


(* ------------------------------------------------------------------------- *)
(** ** The package tools and the handler's catch *)
(* ------------------------------------------------------------------------- *)

Module Tools.
Import Js Dynamic Path Fs Walk Files Registry Extract.

(** [interface GetPackageCodeArgs], as the members of the arguments object
    arrive. *)
Record GetPackageCodeArgs := {
  gpc_packageName : jsval;
  gpc_version : jsval;
  gpc_filePath : jsval
}.

(** What [await this.fetchPackageInfo(...)] gives the two tools, at the
    declared type [PackageInfo]: [dist.tarball] and the fields they print. *)
Record Fetched := {
  tarball : string;
  info : PackageInfo
}.

(** [!packageName || typeof packageName !== 'string'] *)
Definition bad_packageName (packageName : jsval) : bool :=
  negb (truthy_val packageName) || negb (is_string packageName).

(** The [catch] of the [CallToolRequestSchema] handler: an [McpError] is
    thrown on as it is, anything else is wrapped. *)
Definition tool_catch {A} (r : result A) : result A :=
  match r with
  | Ok a => Ok a
  | Err (McpError code message) => Err (McpError code message)
  | Err (Error message) =>
      Err (McpError InternalError ("Tool execution failed: " +:+ message))
  end.


Section Server.

Variable readdir_slot : string -> list string -> nat.
Variable rm_outcome : path -> entry -> removal.
Variable tar_links : list tar_entry -> list (string * entry) -> list (string * entry).

Variable tempDir : path.

(** The network: what a GET of each archive URL does. *)
Variable https_get : string -> download.

(** The message of the [TypeError] [path.join] throws on an argument that
    is not a string. *)
Variable invalid_path_message : json -> string.

Local Abbreviation downloadAndExtract :=
  (downloadAndExtract readdir_slot rm_outcome tar_links tempDir https_get).

(** [getNpmPackageCode]: the outcome and the file tree left behind.
    [args] is the [arguments] member of the request, which may be missing:
    destructuring [undefined] throws before the [try].  [fetched] is how the
    call of [fetchPackageInfo] ends. *)
Definition getNpmPackageCode (args : option GetPackageCodeArgs) (fetched : result Fetched)
    (root : entry) : result (list TextContent) * entry :=
  match args with
  | None => (type_error (DestructureOfUndefined "packageName"), root)
  | Some args =>
      match gpc_packageName args with
      | Some (JStr packageName) =>
          if bad_packageName (Some (JStr packageName)) then
            (Err (McpError InvalidParams "packageName is required and must be a string"),
             root)
          else
            match fetched with
            | Err e => (rethrow_internal "Failed to fetch package code: " (Err e), root)
            | Ok packageInfo =>
                let '(extracted, root') :=
                  downloadAndExtract (tarball packageInfo) packageName root in
                match extracted with
                | Err e => (rethrow_internal "Failed to fetch package code: " (Err e), root')
                | Ok extractedPath =>
                    if truthy_val (gpc_filePath args) then
                      match gpc_filePath args with
                      | Some (JStr filePath) =>
                          (rethrow_internal "Failed to fetch package code: "
                             (getSpecificFile root' extractedPath filePath),
                           root')
                      | Some other =>
                          (rethrow_internal "Failed to fetch package code: "
                             (Err (Error (invalid_path_message other))),
                           root')
                      | None =>
                          (Ok (getAllCodeFiles root' extractedPath (info packageInfo)), root')
                      end
                    else
                      (Ok (getAllCodeFiles root' extractedPath (info packageInfo)), root')
                end
            end
      | _ =>
          (Err (McpError InvalidParams "packageName is required and must be a string"), root)
      end
  end.

(** [listPackageFiles], in the same way. *)
Definition listPackageFiles (args : option ListPackageFilesArgs) (fetched : result Fetched)
    (root : entry) : result (list TextContent) * entry :=
  match args with
  | None => (type_error (DestructureOfUndefined "packageName"), root)
  | Some args =>
      match Registry.packageName args with
      | Some (JStr packageName) =>
          if bad_packageName (Some (JStr packageName)) then
            (Err (McpError InvalidParams "packageName is required and must be a string"),
             root)
          else
            match fetched with
            | Err e => (rethrow_internal "Failed to list package files: " (Err e), root)
            | Ok packageInfo =>
                let '(extracted, root') :=
                  downloadAndExtract (tarball packageInfo) packageName root in
                match extracted with
                | Err e => (rethrow_internal "Failed to list package files: " (Err e), root')
                | Ok extractedPath =>
                    (Ok (text_content
                           (listPackageFiles_text packageName
                              (pi_version (info packageInfo))
                              (fileList root' extractedPath))),
                     root')
                end
            end
      | _ =>
          (Err (McpError InvalidParams "packageName is required and must be a string"), root)
      end
  end.

End Server.

End Tools.

(* ------------------------------------------------------------------------- *)
(** ** The resource handler *)
(* ------------------------------------------------------------------------- *)

Module Resources.
Import Js Search.

Section Runtime.

Variable npm_search : nat -> request -> response json.
Variable number_toString : float -> string.
Variable string_toNumber : string -> float.
Variable toLocaleDateString : jsval -> string.
Variable toISOString : Z -> string.

(** The [ReadResourceRequestSchema] handler. *)
Definition readResource (uri : string) (now stamp : Z) : M (list TextContent) :=
  if String.eqb uri "npm://popular-packages" then
    getPopularPackages npm_search number_toString string_toNumber toLocaleDateString
      toISOString now stamp
  else
    throw (McpError InvalidParams ("Unknown resource: " +:+ uri)).

End Runtime.

End Resources.

(* ------------------------------------------------------------------------- *)
(** ** More sample inputs *)
(* ------------------------------------------------------------------------- *)

Module Scenarios.
Import Js Fs Search.

(** A registry that answers no search. *)
Definition registry_down (n : nat) (r : request) : response json := TimedOut.


(** A server that finds a file where its [temp] directory should be. *)
Definition blocked_root : entry :=
  Dir true [("srv", Dir true [("temp", File (Some "not a directory"))])].

End Scenarios.


(* ========================================================================= *)
(** * Properties *)
(* ========================================================================= *)


(* ------------------------------------------------------------------------- *)
(** ** Facts about strings *)
(* ------------------------------------------------------------------------- *)

Module StringFacts.

Lemma append_nil_l (a : string) : "" +:+ a = a.
Proof. reflexivity. Qed.

Lemma append_cons (x : ascii) (a b : string) : String x a +:+ b = String x (a +:+ b).
Proof. reflexivity. Qed.

Lemma append_assoc (a b c : string) : (a +:+ b) +:+ c = a +:+ (b +:+ c).
Proof.
  induction a as [|x a IH]; [reflexivity|].
  rewrite !append_cons, IH. reflexivity.
Qed.

Lemma append_nil_r (a : string) : a +:+ "" = a.
Proof.
  induction a as [|x a IH]; [reflexivity|].
  rewrite append_cons, IH. reflexivity.
Qed.

(** A loop that appends one piece per element appends the pieces in
    order. *)
Lemma fold_append {A} (piece : A -> string) (l : list A) (init : string) :
  fold_left (fun acc x => acc +:+ piece x) l init
  = init +:+ fold_right (fun x rest => piece x +:+ rest) "" l.
Proof.
  revert init. induction l as [|x l IH]; intros init; simpl.
  - now rewrite append_nil_r.
  - rewrite IH, append_assoc. reflexivity.
Qed.

Lemma append_nonempty_l (a b : string) : a <> "" -> a +:+ b <> "".
Proof. destruct a; [congruence | rewrite append_cons; discriminate]. Qed.

End StringFacts.
(* ------------------------------------------------------------------------- *)
(** ** Facts about paths *)
(* ------------------------------------------------------------------------- *)

Module PathFacts.
Import Path StringFacts.

Lemma split_slash_no_slash s : no_slash s = true -> split_slash s = [s].
Proof.
  induction s as [|c s IH]; simpl; [reflexivity|].
  intros H. apply andb_prop in H as [Hc Hs].
  apply negb_true_iff in Hc. rewrite Hc, (IH Hs). reflexivity.
Qed.

Lemma normalize_step_plain stack seg :
  plain seg = true -> normalize_step stack seg = seg :: stack.
Proof.
  unfold plain, normalize_step. intros H.
  apply andb_prop in H as [H H3]. apply andb_prop in H as [H1 H2].
  apply negb_true_iff in H1, H2, H3. rewrite H1, H2, H3. reflexivity.
Qed.

Lemma fold_normalize_plain segs stack :
  forallb plain segs = true ->
  fold_left normalize_step segs stack = rev segs ++ stack.
Proof.
  revert stack. induction segs as [|seg segs IH]; intros stack H; simpl in *.
  - reflexivity.
  - apply andb_prop in H as [Hseg Hsegs].
    rewrite normalize_step_plain by assumption.
    rewrite IH by assumption. rewrite <- app_assoc. reflexivity.
Qed.

Lemma normalize_plain segs : forallb plain segs = true -> normalize segs = segs.
Proof.
  intros H. unfold normalize. rewrite fold_normalize_plain by assumption.
  rewrite app_nil_r. apply rev_involutive.
Qed.

Lemma ends_with_slash_no_slash s : no_slash s = true -> ends_with_slash s = false.
Proof.
  induction s as [|c s IH]; simpl; [reflexivity|].
  intros H. apply andb_prop in H as [Hc Hs]. apply negb_true_iff in Hc.
  destruct s; [exact Hc | exact (IH Hs)].
Qed.

Lemma ends_with_slash_cons c s : s <> "" -> ends_with_slash (String c s) = ends_with_slash s.
Proof. destruct s; [congruence | reflexivity]. Qed.

Lemma ends_with_slash_snoc s : ends_with_slash (s +:+ "/") = true.
Proof.
  induction s as [|c s IH]; [reflexivity|].
  change (String c s +:+ "/") with (String c (s +:+ "/")).
  rewrite ends_with_slash_cons; [exact IH|]. now destruct s.
Qed.

(** What [normalize] returns holds plain segments only. *)
Lemma fold_normalize_is_plain segs stack :
  forallb plain stack = true ->
  forallb plain (fold_left normalize_step segs stack) = true.
Proof.
  revert stack. induction segs as [|seg segs IH]; intros stack Hstack; simpl; [exact Hstack|].
  apply IH. unfold normalize_step.
  destruct (String.eqb seg "") eqn:H1; [exact Hstack|].
  destruct (String.eqb seg ".") eqn:H2; [exact Hstack|].
  destruct (String.eqb seg "..") eqn:H3.
  - destruct stack; [reflexivity|]. simpl in *. now apply andb_prop in Hstack as [_ ?].
  - simpl. unfold plain at 1. now rewrite H1, H2, H3, Hstack.
Qed.

Lemma normalize_is_plain segs : forallb plain (normalize segs) = true.
Proof.
  unfold normalize. rewrite forallb_forall. intros x Hx. apply in_rev in Hx.
  pose proof (fold_normalize_is_plain segs [] eq_refl) as H.
  rewrite forallb_forall in H. now apply H.
Qed.

(** Joining a plain name onto a normalised directory appends it. *)
Lemma join_plain dir name :
  forallb plain dir = true -> plain name = true -> no_slash name = true ->
  join dir name = dir ++ [name].
Proof.
  intros Hdir Hname Hslash. unfold join.
  rewrite (ends_with_slash_no_slash _ Hslash).
  rewrite split_slash_no_slash by assumption.
  apply normalize_plain. rewrite forallb_app. simpl.
  rewrite Hdir, Hname. reflexivity.
Qed.

(** Without a separator at its end, a relative path joins to plain
    segments. *)
Lemma join_is_plain dir rel :
  ends_with_slash rel = false -> forallb plain (join dir rel) = true.
Proof. intros H. unfold join. rewrite H. apply normalize_is_plain. Qed.

Lemma split_slash_sep (a s : string) :
  no_slash a = true -> split_slash (a +:+ "/" +:+ s) = a :: split_slash s.
Proof.
  induction a as [|c a IH]; intros H.
  - rewrite append_nil_l, append_cons, append_nil_l. reflexivity.
  - simpl in H. apply andb_prop in H as [Hc Ha]. apply negb_true_iff in Hc.
    rewrite append_cons. cbn [split_slash]. rewrite Hc, (IH Ha). reflexivity.
Qed.

Lemma split_slash_concat (r : list string) :
  r <> [] -> forallb no_slash r = true -> split_slash (String.concat "/" r) = r.
Proof.
  induction r as [|a r IH]; [congruence|]. intros _ H. simpl in H.
  apply andb_prop in H as [Ha Hr].
  destruct r as [|b r]; [now apply split_slash_no_slash|].
  change (String.concat "/" (a :: b :: r)) with (a +:+ "/" +:+ String.concat "/" (b :: r)).
  rewrite (split_slash_sep _ _ Ha), IH; [reflexivity | congruence | exact Hr].
Qed.

Lemma ends_with_slash_app (a b : string) :
  b <> "" -> ends_with_slash (a +:+ b) = ends_with_slash b.
Proof.
  intros Hb. induction a as [|c a IH]; [reflexivity|].
  rewrite append_cons, ends_with_slash_cons; [exact IH|].
  destruct a; [now rewrite append_nil_l | rewrite append_cons; discriminate].
Qed.

Lemma concat_nonempty (a : string) (r : list string) :
  a <> "" -> String.concat "/" (a :: r) <> "".
Proof.
  intros Ha. destruct r as [|b r]; [exact Ha|].
  change (String.concat "/" (a :: b :: r)) with (a +:+ "/" +:+ String.concat "/" (b :: r)).
  now apply append_nonempty_l.
Qed.

Lemma plain_nonempty (s : string) : plain s = true -> s <> "".
Proof. intros H ->. discriminate. Qed.

(** Names joined by separators do not end with one. *)
Lemma ends_with_slash_concat (r : list string) :
  forallb plain r = true -> forallb no_slash r = true ->
  ends_with_slash (String.concat "/" r) = false.
Proof.
  induction r as [|a r IH]; [reflexivity|]. simpl. intros Hp Hs.
  apply andb_prop in Hp as [Ha Hr]. apply andb_prop in Hs as [Hsa Hsr].
  destruct r as [|b r]; [now apply ends_with_slash_no_slash|].
  change (String.concat "/" (a :: b :: r)) with (a +:+ "/" +:+ String.concat "/" (b :: r)).
  assert (Hne : String.concat "/" (b :: r) <> "").
  { apply concat_nonempty, plain_nonempty. simpl in Hr. now apply andb_prop in Hr as [? _]. }
  rewrite ends_with_slash_app by now apply append_nonempty_l.
  rewrite ends_with_slash_app by exact Hne.
  exact (IH Hr Hsr).
Qed.

(** Joining names onto a normalised directory appends them. *)
Lemma join_concat (dir : path) (r : list string) :
  forallb plain dir = true -> r <> [] ->
  forallb plain r = true -> forallb no_slash r = true ->
  join dir (String.concat "/" r) = dir ++ r.
Proof.
  intros Hdir Hne Hp Hs. unfold join.
  rewrite (ends_with_slash_concat r Hp Hs), (split_slash_concat r Hne Hs).
  apply normalize_plain. now rewrite forallb_app, Hdir, Hp.
Qed.

End PathFacts.

(* ------------------------------------------------------------------------- *)
(** ** The file tree seen through [fs] *)
(* ------------------------------------------------------------------------- *)

Module FsFacts.
Import Path Fs.

(** Induction on a file tree, with the hypothesis for every entry of a
    directory. *)
Section EntryInduction.

Variable P : entry -> Prop.
Hypothesis P_file : forall content, P (File content).
Hypothesis P_dir : forall l items, Forall (fun kv => P (snd kv)) items -> P (Dir l items).
Hypothesis P_special : P Special.
Hypothesis P_dangling : P Dangling.

Lemma entry_nested_ind (e : entry) : P e.
Proof.
  revert e. fix IH 1. intros [content | l items | |].
  - apply P_file.
  - apply P_dir.
    induction items as [|kv items IHitems]; constructor; [apply IH | exact IHitems].
  - apply P_special.
  - apply P_dangling.
Qed.

End EntryInduction.

Lemma resolve_app (q r : path) (root : entry) :
  resolve root (q ++ r) = resolve_from (resolve root q) r.
Proof.
  revert root. induction q as [|s q IH]; intros root; simpl; [reflexivity|].
  destruct root as [|l items| |]; try reflexivity.
  destruct (assoc s items) as [child|]; [apply IH | reflexivity].
Qed.

Lemma resolve_parent (q : path) (s : string) (root e : entry) :
  resolve root (q ++ [s]) = Some e -> is_directory (resolve root q).
Proof.
  rewrite resolve_app. destruct (resolve root q) as [[|l items| |]|]; simpl; try discriminate.
  intros _. now exists l, items.
Qed.

(** Without a trailing separator the operating system finds what the
    segments lead to. *)
Lemma lookup_plain (root : entry) (p : path) :
  forallb plain p = true -> lookup root p = resolve root p.
Proof.
  intros Hp. unfold lookup. destruct (rev p) as [|[|c s] before] eqn:Hrev; try reflexivity.
  apply (f_equal (@rev string)) in Hrev. rewrite rev_involutive in Hrev. subst p.
  simpl in Hp. rewrite forallb_app in Hp. simpl in Hp.
  apply andb_prop in Hp as [_ Hp]. discriminate.
Qed.

(** With one, it finds the directory before the separator, if there is
    one. *)
Lemma lookup_slash (root : entry) (p : path) :
  lookup root (p ++ [""])
  = match resolve root p with
    | Some (Dir l items) => Some (Dir l items)
    | _ => None
    end.
Proof. unfold lookup. rewrite rev_app_distr. simpl. now rewrite rev_involutive. Qed.

End FsFacts.

(* ------------------------------------------------------------------------- *)
(** ** Listing and reading files *)
(* ------------------------------------------------------------------------- *)

Module FilesFacts.
Import Js Path Fs Walk Files Samples PathFacts StringFacts FsFacts.

(** What [getAllFiles] does keep to: below [dir], it returns files only, and
    no directory on the way to one has a name that starts with a dot. *)
Lemma walk_all_ancestors (e : entry) :
  forall dir p,
    well_named e = true -> forallb plain dir = true ->
    In p (walk_all dir e) ->
    exists rel name,
      p = dir ++ rel ++ [name] /\ Forall (fun seg => startsWith seg "." = false) rel.
Proof.
  induction e as [content | l items IH | |] using entry_nested_ind;
    intros dir p Hnamed Hdir; simpl; try contradiction.
  destruct l; [|contradiction].
  simpl in Hnamed.
  induction items as [|[item child] items IHitems]; simpl; [contradiction|].
  apply Forall_cons_iff in IH as [IHchild IH]. simpl in IHchild.
  apply andb_prop in Hnamed as [Hnamed Hrest].
  apply andb_prop in Hnamed as [Hnamed Hchild].
  apply andb_prop in Hnamed as [Hplain Hslash].
  rewrite (join_plain dir item Hdir Hplain Hslash).
  specialize (IHitems IH Hrest).
  destruct child as [content | l' items' | |]; try exact IHitems.
  - intros [<- | Hin]; [|exact (IHitems Hin)].
    exists [], item. split; [reflexivity | constructor].
  - destruct (startsWith item ".") eqn:Hhidden; simpl; [exact IHitems|].
    intros Hin. apply in_app_or in Hin as [Hin | Hin]; [|exact (IHitems Hin)].
    destruct (IHchild (dir ++ [item]) p Hchild) as (rel & name & -> & Hrel).
    + rewrite forallb_app. simpl. now rewrite Hdir, Hplain.
    + exact Hin.
    + exists (item :: rel), name. split.
      * now rewrite <- app_assoc.
      * constructor; assumption.
Qed.

(** [findCodeFiles], the other walk, does keep to the skip set: no directory
    on the way to a file it returns is one [shouldSkipDirectory] names. *)
Lemma walk_code_ancestors (e : entry) :
  forall dir file,
    well_named e = true -> forallb plain dir = true ->
    In file (walk_code dir e) ->
    exists rel name,
      cf_path file = dir ++ rel ++ [name]
      /\ Forall (fun seg => shouldSkipDirectory seg = false) rel
      /\ isCodeFile name = true.
Proof.
  induction e as [content | l items IH | |] using entry_nested_ind;
    intros dir file Hnamed Hdir; simpl; try contradiction.
  destruct l; [|contradiction].
  simpl in Hnamed.
  induction items as [|[item child] items IHitems]; simpl; [contradiction|].
  apply Forall_cons_iff in IH as [IHchild IH]. simpl in IHchild.
  apply andb_prop in Hnamed as [Hnamed Hrest].
  apply andb_prop in Hnamed as [Hnamed Hchild].
  apply andb_prop in Hnamed as [Hplain Hslash].
  rewrite (join_plain dir item Hdir Hplain Hslash).
  specialize (IHitems IH Hrest).
  destruct child as [content | l' items' | |]; try exact IHitems.
  - destruct (isCodeFile item) eqn:Hcode; [|exact IHitems].
    destruct content as [c|]; [|exact IHitems].
    intros [<- | Hin]; [|exact (IHitems Hin)].
    exists [], item. simpl. split; [reflexivity|]. split; [constructor | exact Hcode].
  - destruct (shouldSkipDirectory item) eqn:Hskip; simpl; [exact IHitems|].
    intros Hin. apply in_app_or in Hin as [Hin | Hin]; [|exact (IHitems Hin)].
    destruct (IHchild (dir ++ [item]) file Hchild) as (rel & name & Hpath & Hrel & Hcode).
    + rewrite forallb_app. simpl. now rewrite Hdir, Hplain.
    + exact Hin.
    + exists (item :: rel), name. split; [|split].
      * rewrite Hpath. now rewrite <- app_assoc.
      * constructor; assumption.
      * exact Hcode.
Qed.

Lemma well_named_child (l : bool) (items : list (string * entry)) (s : string) (child : entry) :
  well_named (Dir l items) = true -> assoc s items = Some child -> well_named child = true.
Proof.
  simpl. induction items as [|[item e] items IH]; simpl; [discriminate|].
  intros Hnamed. apply andb_prop in Hnamed as [Hnamed Hrest].
  apply andb_prop in Hnamed as [_ He].
  destruct (String.eqb s item); [intros [= <-]; exact He | exact (IH Hrest)].
Qed.

Lemma well_named_resolve (p : path) (root e : entry) :
  well_named root = true -> resolve root p = Some e -> well_named e = true.
Proof.
  revert root. induction p as [|s p IH]; intros root Hnamed; simpl.
  - intros [= <-]. exact Hnamed.
  - destruct root as [|l items| |]; try discriminate.
    destruct (assoc s items) as [child|] eqn:Hchild; [|discriminate].
    apply IH. exact (well_named_child l items s child Hnamed Hchild).
Qed.

(** C1, as stated, fails: on a package that holds [index.js] and
    [node_modules/lib.js], [getAllFiles] returns both and [listPackageFiles]
    lists both, although [shouldSkipDirectory] names [node_modules]. *)
Lemma getAllFiles_lists_node_modules :
  shouldSkipDirectory "node_modules" = true
  /\ getAllFiles server_root sandbox
     = [sandbox ++ ["index.js"]; sandbox ++ ["node_modules"; "lib.js"]]
  /\ fileList server_root sandbox = ["index.js"; "node_modules/lib.js"].
Proof.
  split; [reflexivity|].
  split; vm_compute; reflexivity.
Qed.

(** C1, as the code has it.  In a file tree whose names are directory entry
    names, every path [getAllFiles] returns for [dir] is a file below [dir],
    and no directory between [dir] and the file has a name that starts with
    a dot.  That is the whole test: the skip set is not consulted, and the
    sample package with [node_modules/lib.js] and [index.js] yields both
    files, where [findCodeFiles] yields [index.js] only. *)
Theorem getAllFiles_skips_hidden_only :
  (forall root dir p,
     well_named root = true -> forallb plain dir = true ->
     In p (getAllFiles root dir) ->
     exists rel name,
       p = dir ++ rel ++ [name] /\ Forall (fun seg => startsWith seg "." = false) rel)
  /\ getAllFiles server_root sandbox
     = [sandbox ++ ["index.js"]; sandbox ++ ["node_modules"; "lib.js"]]
  /\ map cf_path (findCodeFiles server_root sandbox) = [sandbox ++ ["index.js"]].
Proof.
  split.
  - intros root dir p Hnamed Hdir. unfold getAllFiles.
    destruct (resolve root dir) as [e|] eqn:He; [|contradiction].
    apply walk_all_ancestors; [|exact Hdir].
    exact (well_named_resolve dir root e Hnamed He).
  - split; vm_compute; reflexivity.
Qed.

Lemma getAllFiles_skips_hidden_only_witness :
  exists rel name,
    sandbox ++ ["node_modules"; "lib.js"] = sandbox ++ rel ++ [name]
    /\ Forall (fun seg => startsWith seg "." = false) rel.
Proof.
  apply (proj1 getAllFiles_skips_hidden_only server_root sandbox
           (sandbox ++ ["node_modules"; "lib.js"])).
  - reflexivity.
  - reflexivity.
  - vm_compute. right. left. reflexivity.
Defined.

Lemma firstn_cap {A} (n : nat) (l : list A) : length (firstn n l) = Nat.min n (length l).
Proof. apply length_firstn. Qed.

(** Pieces joined with nothing between them. *)
Lemma concat_pieces {A} (piece : A -> string) (l : list A) :
  String.concat "" (map piece l) = fold_right (fun x rest => piece x +:+ rest) "" l.
Proof.
  induction l as [|x l IH]; [reflexivity|].
  simpl map. simpl fold_right. rewrite <- IH.
  destruct l as [|y l]; simpl; [now rewrite append_nil_r | reflexivity].
Qed.

(** C3.  [getAllCodeFiles] prints the first 20 of the files
    [findCodeFiles] returned and no other.  Its text is, in this order: the
    heading with the package name, version and description and with the
    number of all files found; for each shown file its relative path
    between [===] marks and then its content; and, when more than 20 files
    were found, the line that gives the number of files left out (the number
    found minus 20) and the hint at [list_package_files].  For the package
    of 500 code files the text reports 500, shows [0.js] to [19.js], and
    ends with "... and 480 more files". *)
Theorem getAllCodeFiles_cap (root : entry) (extractedPath : path) (packageInfo : PackageInfo) :
  let codeFiles := findCodeFiles root extractedPath in
  let shown := firstn 20 codeFiles in
  (length shown <= 20)%nat
  /\ length shown = Nat.min 20 (length codeFiles)
  /\ getAllCodeFiles root extractedPath packageInfo
     = text_content
         ("Package: " +:+ pi_name packageInfo +:+ "@" +:+ pi_version packageInfo +:+ nl
          +:+ "Description: "
          +:+ match pi_description packageInfo with
              | Some description =>
                  if String.eqb description "" then "No description" else description
              | None => "No description"
              end
          +:+ nl
          +:+ "Code files found: " +:+ show_nat (length codeFiles) +:+ nl +:+ nl
          +:+ String.concat ""
                (map (fun file =>
                        "=== " +:+ String.concat "/" (relative extractedPath (cf_path file))
                        +:+ " ===" +:+ nl +:+ cf_content file +:+ nl +:+ nl)
                     shown)
          +:+ (if (20 <? length codeFiles)%nat then
                 "... and " +:+ show_nat (length codeFiles - 20) +:+ " more files" +:+ nl
                 +:+ "Use the 'list_package_files' tool to see all files, then fetch specific files as needed."
                 +:+ nl
               else ""))
  /\ length (findCodeFiles (many_files 500) []) = 500%nat
  /\ getAllCodeFiles (many_files 500) [] some_package
     = text_content
         ("Package: many@1.0.0" +:+ nl
          +:+ "Description: No description" +:+ nl
          +:+ "Code files found: 500" +:+ nl +:+ nl
          +:+ String.concat ""
                (map (fun i => "=== " +:+ show_nat i +:+ ".js ===" +:+ nl +:+ "x" +:+ nl +:+ nl)
                     (seq 0 20))
          +:+ "... and 480 more files" +:+ nl
          +:+ "Use the 'list_package_files' tool to see all files, then fetch specific files as needed."
          +:+ nl).
Proof.
  intros codeFiles shown.
  assert (Hlen : length shown = Nat.min 20 (length codeFiles)) by apply firstn_cap.
  split; [rewrite Hlen; apply Nat.le_min_l|].
  split; [exact Hlen|].
  split.
  - unfold getAllCodeFiles, getAllCodeFiles_text. fold codeFiles.
    change (firstn maxFiles codeFiles) with shown.
    rewrite fold_append, concat_pieces.
    unfold header, section, overflow, string_or, render_relative, maxFiles.
    f_equal. rewrite !append_assoc.
    repeat (f_equal; try reflexivity).
  - split; vm_compute; reflexivity.
Qed.

Ltac head_differs :=
  let H := fresh in
  intros H; repeat rewrite ?append_cons, ?append_nil_l in H; discriminate H.

Lemma not_found_is_not_not_a_file (filePath : string) :
  "Path is not a file: " +:+ filePath <> "File not found: " +:+ filePath.
Proof. head_differs. Qed.

Lemma getSpecificFile_reads (root : entry) (extractedPath : path) (filePath content : string) :
  lookup root (join extractedPath filePath) = Some (File (Some content)) ->
  getSpecificFile root extractedPath filePath
  = Ok (text_content ("File: " +:+ filePath +:+ nl +:+ nl +:+ content)).
Proof.
  intros Hres. unfold getSpecificFile, existsSync, readFileSync, statSync.
  rewrite Hres. reflexivity.
Qed.

Lemma split_slash_dir (name : string) :
  no_slash name = true -> split_slash (name +:+ "/") = [name; ""].
Proof.
  induction name as [|c name IH]; [reflexivity|].
  simpl. intros H. apply andb_prop in H as [Hc Hname]. apply negb_true_iff in Hc.
  change (String c name +:+ "/") with (String c (name +:+ "/")).
  simpl. rewrite Hc, (IH Hname). reflexivity.
Qed.

(** A name with a separator after it joins to the name and the mark of
    the separator. *)
Lemma join_dir (dir : path) (name : string) :
  forallb plain dir = true -> plain name = true -> no_slash name = true ->
  join dir (name +:+ "/") = (dir ++ [name]) ++ [""].
Proof.
  intros Hdir Hname Hslash. unfold join.
  rewrite ends_with_slash_snoc, (split_slash_dir _ Hslash). f_equal.
  unfold normalize. rewrite !fold_left_app. simpl.
  rewrite (fold_normalize_plain dir) by assumption.
  rewrite (normalize_step_plain _ name) by assumption.
  unfold normalize_step at 1. simpl.
  rewrite app_nil_r. simpl. now rewrite rev_involutive.
Qed.

(** C7.  [getSpecificFile] fails with "File not found" exactly when
    [existsSync] finds nothing at the joined path; when the path exists and
    is not a file (a directory, say) it fails with "Path is not a file",
    which is another message; on a file whose read throws it fails with
    "Failed to read file" and the cause; on a readable file it returns the
    content.  By the tree: a name that leads nowhere is not found, with or
    without a separator after it; a directory is not a file, with or without
    the separator; a readable file is returned under its name and not
    found under its name with a separator after it. *)
Theorem getSpecificFile_errors (root : entry) (extractedPath : path) (filePath : string) :
  let fullFilePath := join extractedPath filePath in
  (getSpecificFile root extractedPath filePath = Err (Error ("File not found: " +:+ filePath))
   <-> existsSync root fullFilePath = false)
  /\ (forall st, statSync root fullFilePath = Some st -> is_file st = false ->
      getSpecificFile root extractedPath filePath
      = Err (Error ("Path is not a file: " +:+ filePath))
      /\ getSpecificFile root extractedPath filePath
         <> Err (Error ("File not found: " +:+ filePath)))
  /\ (forall message, statSync root fullFilePath = Some IsFile ->
      readFileSync root fullFilePath = inr message ->
      getSpecificFile root extractedPath filePath
      = Err (Error ("Failed to read file " +:+ filePath +:+ ": " +:+ message)))
  /\ (forall content, statSync root fullFilePath = Some IsFile ->
      readFileSync root fullFilePath = inl content ->
      getSpecificFile root extractedPath filePath
      = Ok (text_content ("File: " +:+ filePath +:+ nl +:+ nl +:+ content)))
  /\ (forall name,
        forallb plain extractedPath = true -> plain name = true -> no_slash name = true ->
        (resolve root (extractedPath ++ [name]) = None ->
         getSpecificFile root extractedPath name
         = Err (Error ("File not found: " +:+ name))
         /\ getSpecificFile root extractedPath (name +:+ "/")
            = Err (Error ("File not found: " +:+ (name +:+ "/"))))
        /\ (forall l items,
              resolve root (extractedPath ++ [name]) = Some (Dir l items) ->
              getSpecificFile root extractedPath name
              = Err (Error ("Path is not a file: " +:+ name))
              /\ getSpecificFile root extractedPath (name +:+ "/")
                 = Err (Error ("Path is not a file: " +:+ (name +:+ "/"))))
        /\ (forall content,
              resolve root (extractedPath ++ [name]) = Some (File (Some content)) ->
              getSpecificFile root extractedPath name
              = Ok (text_content ("File: " +:+ name +:+ nl +:+ nl +:+ content))
              /\ getSpecificFile root extractedPath (name +:+ "/")
                 = Err (Error ("File not found: " +:+ (name +:+ "/"))))).
Proof.
  intros fullFilePath. split; [|split; [|split; [|split]]].
  - unfold getSpecificFile. fold fullFilePath. unfold existsSync, readFileSync, statSync.
    destruct (lookup root fullFilePath) as [[[content|]|l items| |]|]; simpl;
      split; try reflexivity; try discriminate;
      intros [= H]; revert H; head_differs.
  - intros st Hstat Hfile. unfold getSpecificFile. fold fullFilePath.
    unfold existsSync. rewrite Hstat. simpl. rewrite Hfile. simpl.
    split; [reflexivity|]. intros H.
    assert (H' : "Path is not a file: " +:+ filePath = "File not found: " +:+ filePath)
      by congruence.
    exact (not_found_is_not_not_a_file filePath H').
  - intros message Hstat Hread. unfold getSpecificFile. fold fullFilePath.
    unfold existsSync. now rewrite Hstat, Hread.
  - intros content Hstat Hread. unfold getSpecificFile. fold fullFilePath.
    unfold existsSync. now rewrite Hstat, Hread.
  - intros name Hdir Hname Hslash.
    assert (Hplain : forallb plain (extractedPath ++ [name]) = true)
      by (rewrite forallb_app; simpl; now rewrite Hdir, Hname).
    unfold getSpecificFile, existsSync, statSync, readFileSync.
    rewrite (join_plain _ _ Hdir Hname Hslash), (join_dir _ _ Hdir Hname Hslash).
    rewrite lookup_slash, (lookup_plain _ _ Hplain).
    split; [|split].
    + intros ->. split; reflexivity.
    + intros l items ->. split; reflexivity.
    + intros content ->. split; reflexivity.
Qed.

(** C9.  The joined path is not checked against the sandbox: for a sandbox
    [parent/dir] and a readable file [parent/name] next to it, the relative
    path [../name] resolves to that file, which lies outside the sandbox, and
    [getSpecificFile] returns its content. *)
Theorem getSpecificFile_escapes_sandbox
    (root : entry) (parent : path) (dir name content : string) :
  forallb plain parent = true ->
  plain dir = true ->
  plain name = true ->
  no_slash name = true ->
  name <> dir ->
  resolve root (parent ++ [name]) = Some (File (Some content)) ->
  join (parent ++ [dir]) ("../" +:+ name) = parent ++ [name]
  /\ ~ within (parent ++ [dir]) (parent ++ [name])
  /\ getSpecificFile root (parent ++ [dir]) ("../" +:+ name)
     = Ok (text_content ("File: " +:+ ("../" +:+ name) +:+ nl +:+ nl +:+ content)).
Proof.
  intros Hparent Hdir Hname Hslash Hneq Hres.
  assert (Hjoin : join (parent ++ [dir]) ("../" +:+ name) = parent ++ [name]).
  { unfold join.
    replace (ends_with_slash ("../" +:+ name)) with false
      by (symmetry; rewrite !append_cons, append_nil_l;
          rewrite !ends_with_slash_cons;
          [now apply ends_with_slash_no_slash | now destruct name | discriminate | discriminate]).
    replace (split_slash ("../" +:+ name)) with [".."; name]
      by (rewrite !append_cons, append_nil_l; simpl;
          rewrite (split_slash_no_slash _ Hslash); reflexivity).
    unfold normalize. rewrite !fold_left_app.
    rewrite (fold_normalize_plain parent) by assumption.
    simpl. rewrite (normalize_step_plain _ dir) by assumption.
    unfold normalize_step at 2. simpl.
    rewrite (normalize_step_plain _ name) by assumption.
    rewrite app_nil_r. simpl. rewrite rev_involutive. reflexivity. }
  split; [exact Hjoin|]. split.
  - intros [rest Hrest]. rewrite <- app_assoc in Hrest.
    apply app_inv_head in Hrest. simpl in Hrest. congruence.
  - apply getSpecificFile_reads. rewrite Hjoin, lookup_plain; [exact Hres|].
    rewrite forallb_app. simpl. now rewrite Hparent, Hname.
Qed.

Lemma getSpecificFile_escapes_sandbox_witness :
  join sandbox "../outside.txt" = ["srv"; "temp"; "outside.txt"]
  /\ ~ within sandbox ["srv"; "temp"; "outside.txt"]
  /\ getSpecificFile server_root sandbox "../outside.txt"
     = Ok (text_content ("File: ../outside.txt" +:+ nl +:+ nl +:+ "secret")).
Proof.
  apply (getSpecificFile_escapes_sandbox server_root ["srv"; "temp"] "pkg" "outside.txt" "secret");
    try reflexivity.
  discriminate.
Defined.

End FilesFacts.

(* ------------------------------------------------------------------------- *)
(** ** Package metadata *)
(* ------------------------------------------------------------------------- *)

Module RegistryFacts.
Import Js Registry Samples.

Lemma prop_object (k : string) (v t : json) :
  prop k v = Some t -> exists members, v = JObj members.
Proof. destruct v; simpl; try discriminate. intros _. eauto. Qed.

(** C2, as stated, fails: a body that holds an archive URL and no checksum
    is resolved, not rejected. *)
Lemma fetchPackageInfo_resolves_without_shasum :
  member (prop "dist" body_without_shasum) "shasum" = None
  /\ fetchPackageInfo (Ended (Value body_without_shasum)) = Ok body_without_shasum.
Proof. split; vm_compute; reflexivity. Qed.

(** C2, as the code has it.  When the response has ended,
    [fetchPackageInfo] resolves with the parsed value exactly when that
    value has a [dist] whose [tarball] is truthy.  Otherwise it rejects, and
    the cause decides the error: a body that does not parse gives "Invalid
    JSON response: " with the parser's message; the body [null] gives
    "Invalid JSON response: " with the message of the [TypeError]; every
    other parsed value gives "Invalid package info: missing tarball URL".
    The checksum is not looked at. *)
Theorem fetchPackageInfo_rejects_iff_no_tarball (body : parsed json) :
  match fetchPackageInfo (Ended body) with
  | Ok packageInfo =>
      body = Value packageInfo
      /\ exists dist url,
           prop "dist" packageInfo = Some dist
           /\ prop "tarball" dist = Some url
           /\ truthy url = true
  | Err e =>
      match body with
      | SyntaxError message => e = Error ("Invalid JSON response: " +:+ message)
      | Value JNull => exists message, e = Error ("Invalid JSON response: " +:+ message)
      | Value packageInfo =>
          e = Error "Invalid package info: missing tarball URL"
          /\ forall dist url,
               prop "dist" packageInfo = Some dist ->
               prop "tarball" dist = Some url ->
               truthy url = false
      end
  end.
Proof.
  destruct body as [message | packageInfo].
  - reflexivity.
  - destruct packageInfo as [| b | x | s | xs | members].
    1: simpl; eauto.
    1-4: simpl; split; [reflexivity | intros ? ? [=]].
    unfold fetchPackageInfo. simpl prop.
    destruct (members !! "dist") as [dist|] eqn:Hdist.
    + destruct (truthy dist) eqn:Htruthy; simpl.
      * destruct (prop "tarball" dist) as [url|] eqn:Hurl; simpl.
        -- destruct (truthy url) eqn:Hurl_truthy; simpl.
           ++ split; [reflexivity | eauto].
           ++ split; [reflexivity|].
              intros ? ? [= <-]. rewrite Hurl. intros [= <-]. exact Hurl_truthy.
        -- split; [reflexivity|].
           intros ? ? [= <-]. rewrite Hurl. discriminate.
      * split; [reflexivity|].
        intros ? url [= <-] Hurl.
        destruct (prop_object _ _ _ Hurl) as [m ->]. discriminate.
    + split; [reflexivity|]. intros ? ? [=].
Qed.

(** C8.  Once the metadata is fetched, [getPackageInfo] builds a record in
    which a missing [description] reads "No description available", each
    missing [main], [types], [author], [license], [homepage] and
    [repository] reads "Not specified", and [dependencies] and
    [devDependencies] are the numbers of keys of the two objects (0 when
    missing). *)
Theorem getPackageInfo_normalizes
    (args : ListPackageFilesArgs) (res : response json) (packageInfo : json) :
  truthy_val (packageName args) = true ->
  is_string (packageName args) = true ->
  fetchPackageInfo res = Ok packageInfo ->
  exists info,
    getPackageInfo (Some args) res = Ok info
    /\ (prop "description" packageInfo = None ->
        description info = JStr "No description available")
    /\ (prop "main" packageInfo = None -> main info = JStr "Not specified")
    /\ (prop "types" packageInfo = None -> types info = JStr "Not specified")
    /\ (prop "author" packageInfo = None -> author info = JStr "Not specified")
    /\ (prop "license" packageInfo = None -> license info = JStr "Not specified")
    /\ (prop "homepage" packageInfo = None -> homepage info = JStr "Not specified")
    /\ (prop "repository" packageInfo = None -> repository info = JStr "Not specified")
    /\ (forall deps, prop "dependencies" packageInfo = Some (JObj deps) ->
        dependencies info = size deps)
    /\ (prop "dependencies" packageInfo = None -> dependencies info = 0%nat)
    /\ (forall deps, prop "devDependencies" packageInfo = Some (JObj deps) ->
        devDependencies info = size deps)
    /\ (prop "devDependencies" packageInfo = None -> devDependencies info = 0%nat).
Proof.
  intros Hname Hstring Hfetch.
  exists (make_info packageInfo). split.
  - unfold getPackageInfo. rewrite Hname, Hstring, Hfetch. reflexivity.
  - unfold make_info; simpl.
    repeat split; try (intros ->; reflexivity); intros deps ->; reflexivity.
Qed.

Lemma getPackageInfo_normalizes_witness :
  exists info,
    getPackageInfo (Some bare_args) (Ended (Value bare_metadata)) = Ok info
    /\ (prop "description" bare_metadata = None ->
        description info = JStr "No description available")
    /\ (prop "main" bare_metadata = None -> main info = JStr "Not specified")
    /\ (prop "types" bare_metadata = None -> types info = JStr "Not specified")
    /\ (prop "author" bare_metadata = None -> author info = JStr "Not specified")
    /\ (prop "license" bare_metadata = None -> license info = JStr "Not specified")
    /\ (prop "homepage" bare_metadata = None -> homepage info = JStr "Not specified")
    /\ (prop "repository" bare_metadata = None -> repository info = JStr "Not specified")
    /\ (forall deps, prop "dependencies" bare_metadata = Some (JObj deps) ->
        dependencies info = size deps)
    /\ (prop "dependencies" bare_metadata = None -> dependencies info = 0%nat)
    /\ (forall deps, prop "devDependencies" bare_metadata = Some (JObj deps) ->
        devDependencies info = size deps)
    /\ (prop "devDependencies" bare_metadata = None -> devDependencies info = 0%nat).
Proof.
  apply (getPackageInfo_normalizes bare_args (Ended (Value bare_metadata)) bare_metadata).
  - reflexivity.
  - reflexivity.
  - vm_compute. reflexivity.
Defined.

(** The record built for [bare_metadata]: every optional field is missing,
    two dependencies are declared. *)
Example getPackageInfo_bare :
  exists info,
    getPackageInfo (Some bare_args) (Ended (Value bare_metadata)) = Ok info
    /\ description info = JStr "No description available"
    /\ main info = JStr "Not specified"
    /\ repository info = JStr "Not specified"
    /\ dependencies info = 2%nat
    /\ devDependencies info = 0%nat.
Proof. eexists. split; [vm_compute; reflexivity|]. vm_compute. repeat split. Qed.

End RegistryFacts.
(* ------------------------------------------------------------------------- *)
(** ** Search and the popular-packages cache *)
(* ------------------------------------------------------------------------- *)

Module SearchFacts.
Import Js Dynamic Search StringFacts.

(** White space around a word goes, that of Unicode included: here a
    no-break space (U+00A0) before it and an ideographic space (U+3000)
    after it; a no-break space alone trims to nothing. *)
Example trim_unicode :
  let nbsp := String (ascii_of_nat 194) (String (ascii_of_nat 160) "") in
  let ideographic :=
    String (ascii_of_nat 227) (String (ascii_of_nat 128) (String (ascii_of_nat 128) "")) in
  trim (nbsp +:+ " react" +:+ ideographic) = "react"
  /\ trim nbsp = ""
  /\ trim " a b " = "a b".
Proof. vm_compute. repeat split. Qed.

Section Runtime.

Variable npm_search : nat -> request -> response json.
Variable toFixed1 : float -> string.
Variable number_toString : float -> string.
Variable string_toNumber : string -> float.
Variable toLocaleDateString : jsval -> string.
Variable toISOString : Z -> string.

Local Abbreviation to_number := (to_number number_toString string_toNumber).
Local Abbreviation performPackageSearch := (performPackageSearch npm_search).
Local Abbreviation search_text :=
  (search_text toFixed1 number_toString string_toNumber toLocaleDateString).
Local Abbreviation searchNpmPackages :=
  (searchNpmPackages npm_search toFixed1 number_toString string_toNumber toLocaleDateString).
Local Abbreviation seed_searches := (seed_searches npm_search).
Local Abbreviation digest :=
  (digest number_toString string_toNumber toLocaleDateString toISOString).
Local Abbreviation getPopularPackages :=
  (getPopularPackages npm_search number_toString string_toNumber toLocaleDateString
     toISOString).
Local Abbreviation reachable :=
  (reachable npm_search toFixed1 number_toString string_toNumber toLocaleDateString
     toISOString).

(** Every call of [performPackageSearch] is logged, whatever comes back. *)
Lemma performPackageSearch_sends (query : string) (size from : json) (st : state) :
  snd (performPackageSearch query size from st)
  = sent st [ {| req_text := query; req_size := size; req_from := from |} ].
Proof.
  unfold Search.performPackageSearch, sent.
  destruct (npm_search _ _) as [[message | searchResults] | message |]; reflexivity.
Qed.

Lemma sent_sent (st : state) (a b : list request) : sent (sent st a) b = sent st (a ++ b).
Proof. unfold sent; simpl. now rewrite <- app_assoc. Qed.

Lemma sent_nil (st : state) : sent st [] = st.
Proof. unfold sent. rewrite app_nil_r. now destruct st. Qed.

(** C4, as the code has it.  For a call that has an arguments object: when
    the query is missing, is not a string or trims to the empty string,
    [searchNpmPackages] throws an [McpError] with code [InvalidParams] that
    says the query is required; when the size is above 250 it throws one
    too, which says so if the query is good.  Either way the state is left
    as it was: no request has been added to the log of
    [performPackageSearch] calls.  A query of a blank, a no-break space
    (U+00A0) and a line feed is one that trims to the empty string.  A call
    without an arguments object fails before these checks with the
    [TypeError] of the destructuring, and sends nothing either. *)
Theorem searchNpmPackages_invalid_params (args : SearchPackagesArgs) (st : state) :
  (query args = None
   \/ (exists v, query args = Some v /\ forall q, v <> JStr q)
   \/ (exists q, query args = Some (JStr q) /\ trim q = "") ->
   searchNpmPackages (Some args) st
   = (Err (McpError InvalidParams "query is required and must be a non-empty string"), st))
  /\ (forall n,
        size args = Some n ->
        PrimFloat.ltb 250 (to_number (Some n)) = true ->
        exists message,
          searchNpmPackages (Some args) st = (Err (McpError InvalidParams message), st)
          /\ requests (snd (searchNpmPackages (Some args) st)) = requests st
          /\ (message = "query is required and must be a non-empty string"
              \/ message = "size cannot exceed 250")
          /\ (forall q, query args = Some (JStr q) -> trim q <> "" ->
              message = "size cannot exceed 250"))
  /\ (let nbsp := String (ascii_of_nat 194) (String (ascii_of_nat 160) "") in
      forall size from,
        searchNpmPackages
          (Some {| query := Some (JStr (" " +:+ nbsp +:+ nl)); size := size; from := from |}) st
        = (Err (McpError InvalidParams "query is required and must be a non-empty string"),
           st))
  /\ searchNpmPackages None st
     = (Err (Error "Cannot destructure property 'query' of 'args' as it is undefined."), st).
Proof.
  split; [|split; [|split; [reflexivity | reflexivity]]].
  - intros Hbad. unfold Search.searchNpmPackages.
    destruct (query args) as [[| b | x | q | xs | members]|] eqn:Hquery; try reflexivity.
    destruct (bad_query (Some (JStr q))) eqn:Hq; [reflexivity|].
    destruct Hbad as [Hnone | [(v & Hv & Hnot) | (q' & Hq' & Htrim)]].
    + discriminate.
    + injection Hv as <-. now destruct (Hnot q).
    + injection Hq' as <-. simpl in Hq.
      rewrite Htrim, orb_true_r in Hq. discriminate.
  - intros n Hn Hlt. unfold Search.searchNpmPackages.
    destruct (query args) as [[| b | x | q | xs | members]|] eqn:Hquery.
    1-3, 5-7: eexists; split; [reflexivity|]; split; [reflexivity|];
      split; [now left | discriminate].
    destruct (bad_query (Some (JStr q))) eqn:Hq.
    + eexists. split; [reflexivity|]. split; [reflexivity|]. split; [now left|].
      intros q' [= <-] Htrim. simpl in Hq.
      destruct (String.eqb_spec q "") as [-> | _]; [now destruct Htrim|].
      destruct (String.eqb_spec (trim q) "") as [Hempty | _]; [contradiction | discriminate].
    + rewrite Hn. unfold too_large. change (default (JNum 20) (Some n)) with n.
      rewrite Hlt. eexists. split; [reflexivity|]. split; [reflexivity|].
      split; [now right | reflexivity].
Qed.

(** The seed loop always completes: a failed search is skipped, and each
    term costs one request. *)
Lemma seed_searches_completes (terms : list string)
    (acc : list jsval * list json) (st : state) :
  exists found,
    seed_searches terms acc st = (Ok found, sent st (map seed_request terms)).
Proof.
  revert acc st. induction terms as [|searchTerm terms IH]; intros acc st; simpl.
  - exists acc. unfold ret. now rewrite sent_nil.
  - pose proof (performPackageSearch_sends searchTerm (JNum 10) (JNum 0) st) as Hsent.
    destruct (performPackageSearch searchTerm (JNum 10) (JNum 0) st) as [[results | e] st'];
      simpl in Hsent; subst st'.
    + destruct (and_then _ _) as [hits | e].
      * destruct (IH (add_hits hits acc) (sent st [seed_request searchTerm]))
          as [found Hfound].
        exists found. rewrite sent_sent in Hfound. exact Hfound.
      * destruct (IH acc (sent st [seed_request searchTerm])) as [found Hfound].
        exists found. rewrite sent_sent in Hfound. exact Hfound.
    + destruct (IH acc (sent st [seed_request searchTerm])) as [found Hfound].
      exists found. rewrite sent_sent in Hfound. exact Hfound.
Qed.

Lemma append_each_extends {A} (piece : nat -> A -> result string) (l : list A) (i : nat)
    (resultText text : string) :
  append_each piece i l resultText = Ok text -> exists rest, text = resultText +:+ rest.
Proof.
  revert i resultText. induction l as [|x l IH]; intros i resultText; simpl.
  - intros [= <-]. exists "". now rewrite append_nil_r.
  - destruct (piece i x) as [t | e]; simpl; [|discriminate].
    intros H. destruct (IH _ _ H) as [rest ->].
    eexists. apply append_assoc.
Qed.

(** A digest is never the empty string, so a stored digest is a truthy
    cache entry. *)
Lemma digest_nonempty (stamp : Z) (packageDetails : list json) (resultText : string) :
  digest stamp packageDetails = Ok resultText -> resultText <> "".
Proof.
  unfold Search.digest.
  destruct (sort_packages _ _ _) as [sorted | e]; simpl; [|discriminate].
  unfold popular_entries. intros H.
  destruct (append_each_extends _ _ _ _ _ H) as [rest ->].
  rewrite !append_cons. discriminate.
Qed.

Lemma cache_is_fresh_true (st : state) (now : Z) (cached : string) :
  popularPackagesCache st = Some cached -> cached <> "" ->
  (now - popularPackagesCacheTime st < CACHE_DURATION)%Z ->
  cache_is_fresh st now = true.
Proof.
  intros Hcache Hne Hage. unfold cache_is_fresh. rewrite Hcache.
  apply String.eqb_neq in Hne. rewrite Hne. simpl. now apply Z.ltb_lt.
Qed.

Lemma cache_is_fresh_false (st : state) (now : Z) :
  popularPackagesCache st = None
  \/ (CACHE_DURATION <= now - popularPackagesCacheTime st)%Z ->
  cache_is_fresh st now = false.
Proof.
  intros [Hnone | Hage]; unfold cache_is_fresh.
  - now rewrite Hnone.
  - destruct (popularPackagesCache st); [|reflexivity].
    apply andb_false_iff. right. now apply Z.ltb_ge.
Qed.

(** What a recomputation returns and leaves behind: the five seed
    requests are sent; when the digest is built it is returned and stored,
    and when building it throws, the error is thrown on and the cache is
    not written. *)
Lemma getPopularPackages_recomputes (st : state) (now stamp : Z) :
  cache_is_fresh st now = false ->
  exists found,
    seed_searches (firstn 5 popularQueries) ([], []) st
    = (Ok found, sent st (map seed_request (firstn 5 popularQueries)))
    /\ getPopularPackages now stamp st
       = match digest stamp (snd found) with
         | Ok resultText =>
             (Ok (text_content resultText),
              {| popularPackagesCache := Some resultText;
                 popularPackagesCacheTime := now;
                 requests := requests st ++ map seed_request (firstn 5 popularQueries) |})
         | Err e =>
             (Err (McpError InternalError
                     ("Failed to fetch popular packages: " +:+ message_of e)),
              sent st (map seed_request (firstn 5 popularQueries)))
         end.
Proof.
  intros Hstale.
  destruct (seed_searches_completes (firstn 5 popularQueries) ([], []) st) as [found Hfound].
  exists found. split; [exact Hfound|].
  unfold Search.getPopularPackages. rewrite Hstale.
  unfold try_internal, bind, lift. rewrite Hfound.
  destruct (Search.digest _ _ _ _ _ _) as [resultText | e]; reflexivity.
Qed.

Lemma searchNpmPackages_keeps_cache (args : option SearchPackagesArgs) (st : state) :
  popularPackagesCache (snd (searchNpmPackages args st)) = popularPackagesCache st.
Proof.
  unfold Search.searchNpmPackages. destruct args as [args|]; [|reflexivity].
  destruct (query args) as [[| b | x | q | xs | members]|]; try reflexivity.
  destruct (bad_query (Some (JStr q))); [reflexivity|].
  destruct (too_large _ _ _); [reflexivity|].
  unfold try_internal, bind, lift.
  pose proof (performPackageSearch_sends (trim q) (default (JNum 20) (size args))
                (default (JNum 0) (from args)) st) as Hsent.
  destruct (performPackageSearch _ _ _ st) as [[r | e] st']; simpl in *; subst st';
    [|reflexivity].
  destruct (Search.search_text _ _ _ _ _ _ _); reflexivity.
Qed.

(** The cache never holds the empty string: it holds nothing or a digest. *)
Lemma reachable_cache_nonempty (st : state) :
  reachable st -> popularPackagesCache st <> Some "".
Proof.
  induction 1 as [| args st Hst IH | now stamp st Hst IH].
  - discriminate.
  - now rewrite searchNpmPackages_keeps_cache.
  - destruct (cache_is_fresh st now) eqn:Hfresh.
    + unfold Search.getPopularPackages. rewrite Hfresh. exact IH.
    + destruct (getPopularPackages_recomputes st now stamp Hfresh) as (found & _ & ->).
      destruct (digest stamp (snd found)) as [resultText | e] eqn:Hdigest; simpl.
      * intros [= ->]. exact (digest_nonempty _ _ _ Hdigest eq_refl).
      * exact IH.
Qed.

(** C5, as the code has it.  In every state the server can reach: with a
    stored digest younger than [CACHE_DURATION] (24 hours),
    [getPopularPackages] returns that very text and leaves the state, the
    log of search requests included, as it was.  With no entry, or with one
    of that age or older, it sends the five seed searches and builds the
    digest from what they found.  When the digest is built, it is returned
    and stored with the time read on entry, and a call less than 24 hours
    after that one returns the same text and sends nothing.  When building
    it throws, the call fails with [InternalError] and the cache is left as
    it was. *)
Theorem getPopularPackages_cache (st : state) (now stamp : Z) :
  reachable st ->
  (forall cached,
     popularPackagesCache st = Some cached ->
     (now - popularPackagesCacheTime st < CACHE_DURATION)%Z ->
     getPopularPackages now stamp st = (Ok (text_content cached), st))
  /\ (popularPackagesCache st = None
      \/ (CACHE_DURATION <= now - popularPackagesCacheTime st)%Z ->
      exists found,
        seed_searches (firstn 5 popularQueries) ([], []) st
        = (Ok found, sent st (map seed_request (firstn 5 popularQueries)))
        /\ match digest stamp (snd found) with
           | Ok resultText =>
               let st' := {| popularPackagesCache := Some resultText;
                             popularPackagesCacheTime := now;
                             requests := requests st
                                         ++ map seed_request (firstn 5 popularQueries) |} in
               getPopularPackages now stamp st = (Ok (text_content resultText), st')
               /\ forall later stamp',
                    (later - now < CACHE_DURATION)%Z ->
                    getPopularPackages later stamp' st' = (Ok (text_content resultText), st')
           | Err e =>
               getPopularPackages now stamp st
               = (Err (McpError InternalError
                         ("Failed to fetch popular packages: " +:+ message_of e)),
                  {| popularPackagesCache := popularPackagesCache st;
                     popularPackagesCacheTime := popularPackagesCacheTime st;
                     requests := requests st
                                 ++ map seed_request (firstn 5 popularQueries) |})
           end).
Proof.
  intros Hreach. split.
  - intros cached Hcache Hage. unfold Search.getPopularPackages.
    assert (Hne : cached <> "")
      by (intros ->; exact (reachable_cache_nonempty st Hreach Hcache)).
    rewrite (cache_is_fresh_true st now cached Hcache Hne Hage), Hcache.
    reflexivity.
  - intros Hstale. apply cache_is_fresh_false in Hstale.
    destruct (getPopularPackages_recomputes st now stamp Hstale) as (found & Hseeds & Hrun).
    exists found. split; [exact Hseeds|].
    destruct (digest stamp (snd found)) as [resultText | e] eqn:Hdigest; [|exact Hrun].
    cbv zeta. split; [exact Hrun|].
    intros later stamp' Hage. unfold Search.getPopularPackages.
    erewrite cache_is_fresh_true;
      [reflexivity | reflexivity | exact (digest_nonempty _ _ _ Hdigest) | exact Hage].
Qed.

End Runtime.

(** C4, as stated, fails for a call that has no arguments object: the
    query is missing, and the call fails with the [TypeError] of the
    destructuring, which is no [McpError]; the handler's [catch] turns it
    into an [InternalError].  Nothing is sent. *)
Lemma searchNpmPackages_without_arguments :
  searchNpmPackages Samples.one_hit Samples.fixed_number Samples.fixed_number
    Samples.no_number Samples.fixed_date None initial
  = (Err (Error "Cannot destructure property 'query' of 'args' as it is undefined."),
     initial)
  /\ Tools.tool_catch
       (fst (searchNpmPackages Samples.one_hit Samples.fixed_number Samples.fixed_number
               Samples.no_number Samples.fixed_date None initial))
     = Err (McpError InternalError
              "Tool execution failed: Cannot destructure property 'query' of 'args' as it is undefined.").
Proof. split; reflexivity. Qed.

(** A search for 300 results is refused before anything is sent. *)
Lemma searchNpmPackages_invalid_params_witness :
  searchNpmPackages Samples.one_hit Samples.fixed_number Samples.fixed_number
    Samples.no_number Samples.fixed_date (Some Samples.oversized_search) initial
  = (Err (McpError InvalidParams "size cannot exceed 250"), initial).
Proof.
  destruct (searchNpmPackages_invalid_params Samples.one_hit Samples.fixed_number
              Samples.fixed_number Samples.no_number Samples.fixed_date
              Samples.oversized_search initial) as (_ & Hsize & _ & _).
  destruct (Hsize (JNum 300) eq_refl eq_refl) as (message & Hrun & _ & _ & Hmessage).
  rewrite Hrun, (Hmessage "react" eq_refl ltac:(discriminate)). reflexivity.
Defined.

(** C5, as stated, fails when the digest cannot be built: with a registry
    whose hits carry no [links], the call on a fresh server sends the five
    searches, fails with [InternalError], and stores nothing; the next call
    sends five more. *)
Lemma getPopularPackages_recompute_fails :
  let run :=
    getPopularPackages Samples.hits_without_links Samples.fixed_number Samples.no_number
      Samples.fixed_date Samples.fixed_iso 0 0 initial in
  fst run
  = Err (McpError InternalError
           "Failed to fetch popular packages: Cannot read properties of undefined (reading 'npm')")
  /\ popularPackagesCache (snd run) = None
  /\ length (requests (snd run)) = 5%nat
  /\ length (requests
               (snd (getPopularPackages Samples.hits_without_links Samples.fixed_number
                       Samples.no_number Samples.fixed_date Samples.fixed_iso 1000 1000
                       (snd run))))
     = 10%nat.
Proof. vm_compute. repeat split. Qed.

(** The state after a first call on a fresh server, and a second call one
    second later: the stored digest comes back and nothing is sent. *)
Lemma getPopularPackages_cache_witness :
  let st1 :=
    snd (getPopularPackages Samples.one_hit Samples.fixed_number Samples.no_number
           Samples.fixed_date Samples.fixed_iso 0 0 initial) in
  getPopularPackages Samples.one_hit Samples.fixed_number Samples.no_number
    Samples.fixed_date Samples.fixed_iso 1000 1000 st1
  = (Ok (text_content (default "" (popularPackagesCache st1))), st1).
Proof.
  cbv zeta.
  apply (proj1 (getPopularPackages_cache Samples.one_hit Samples.fixed_number
                  Samples.fixed_number Samples.no_number Samples.fixed_date Samples.fixed_iso
                  (snd (getPopularPackages Samples.one_hit Samples.fixed_number
                          Samples.no_number Samples.fixed_date Samples.fixed_iso 0 0 initial))
                  1000 1000
                  (reachable_popular _ _ _ _ _ _ 0%Z 0%Z initial
                     (reachable_initial _ _ _ _ _ _)))).
  - vm_compute. reflexivity.
  - vm_compute. reflexivity.
Defined.

End SearchFacts.
(* ------------------------------------------------------------------------- *)
(** ** Extraction into the sandbox *)
(* ------------------------------------------------------------------------- *)

Module ExtractFacts.
Import Js Path Fs Extract ExtractSpec StringFacts PathFacts FsFacts.

Lemma assoc_app {A} (k : string) (a b : list (string * A)) :
  assoc k (a ++ b) = match assoc k a with Some v => Some v | None => assoc k b end.
Proof.
  induction a as [|[k' v] a IH]; simpl; [reflexivity|].
  destruct (String.eqb k k'); [reflexivity | exact IH].
Qed.

Lemma assoc_split {A} (k : string) (n : nat) (l : list (string * A)) :
  assoc k l = match assoc k (firstn n l) with Some v => Some v | None => assoc k (skipn n l) end.
Proof. now rewrite <- assoc_app, firstn_skipn. Qed.

Lemma assoc_insert_at (k : string) (v : entry) (n : nat) (items : list (string * entry)) :
  assoc k items = None -> assoc k (insert_at n (k, v) items) = Some v.
Proof.
  intros Hnone. unfold insert_at. rewrite assoc_app.
  rewrite (assoc_split k n) in Hnone.
  destruct (assoc k (firstn n items)); [discriminate|].
  simpl. now rewrite String.eqb_refl.
Qed.

Lemma assoc_insert_at_other (k k' : string) (v : entry) (n : nat)
    (items : list (string * entry)) :
  k' <> k -> assoc k' (insert_at n (k, v) items) = assoc k' items.
Proof.
  intros Hne. unfold insert_at. rewrite assoc_app, (assoc_split k' n items).
  destruct (assoc k' (firstn n items)); [reflexivity|].
  simpl. apply String.eqb_neq in Hne. now rewrite Hne.
Qed.

Lemma assoc_replace_item (k : string) (v w : entry) (items : list (string * entry)) :
  assoc k items = Some w -> assoc k (replace_item k v items) = Some v.
Proof.
  induction items as [|[k' v'] items IH]; simpl; [discriminate|].
  destruct (String.eqb k k') eqn:E; simpl.
  - now rewrite String.eqb_refl.
  - now rewrite E.
Qed.

Lemma assoc_replace_item_other (k k' : string) (v : entry) (items : list (string * entry)) :
  k' <> k -> assoc k' (replace_item k v items) = assoc k' items.
Proof.
  intros Hne. induction items as [|[k0 v0] items IH]; simpl; [reflexivity|].
  destruct (String.eqb_spec k k0) as [<- | Hk]; simpl.
  - apply String.eqb_neq in Hne. now rewrite Hne.
  - now rewrite IH.
Qed.

Lemma assoc_remove_item (s : string) (items : list (string * entry)) :
  assoc s (remove_item s items) = None.
Proof.
  unfold remove_item. induction items as [|[k w] items IH]; simpl; [reflexivity|].
  destruct (String.eqb s k) eqn:E; simpl; [exact IH|].
  now rewrite E.
Qed.

Lemma assoc_remove_item_other (s k : string) (items : list (string * entry)) :
  k <> s -> assoc k (remove_item s items) = assoc k items.
Proof.
  intros Hne. unfold remove_item.
  induction items as [|[k' w] items IH]; simpl; [reflexivity|].
  destruct (String.eqb_spec s k') as [<- | Hs]; simpl.
  - apply String.eqb_neq in Hne. now rewrite Hne.
  - now rewrite IH.
Qed.


Lemma no_slash_sanitize (s : string) : no_slash (sanitize s) = true.
Proof.
  induction s as [|c s IH]; simpl; [reflexivity|].
  rewrite IH, andb_true_r. unfold sanitize_char, is_slash.
  destruct (Ascii.eqb c "@") eqn:Hat; [reflexivity|].
  destruct (Ascii.eqb c "/") eqn:Hslash; [reflexivity|]. simpl. now rewrite Hslash.
Qed.

(** The sandbox path has no trailing separator: what the operating
    system finds there is what the segments lead to. *)
Lemma sandbox_is_plain (tempDir : path) (packageName : string) :
  forallb plain (extractPath_of tempDir packageName) = true.
Proof.
  apply join_is_plain, ends_with_slash_no_slash, no_slash_sanitize.
Qed.

Lemma not_existsSync (root : entry) (p : path) :
  forallb plain p = true ->
  existsSync root p = false ->
  resolve root p = None \/ resolve root p = Some Dangling.
Proof.
  intros Hp. unfold existsSync, statSync. rewrite (lookup_plain _ _ Hp).
  destruct (resolve root p) as [[| | |]|]; simpl; try discriminate; auto.
Qed.

Lemma existsSync_resolve (root : entry) (p : path) :
  forallb plain p = true ->
  existsSync root p = true ->
  exists e, resolve root p = Some e /\ e <> Dangling.
Proof.
  intros Hp. unfold existsSync, statSync. rewrite (lookup_plain _ _ Hp).
  destruct (resolve root p) as [[| | |]|]; simpl; try discriminate; eauto.
Qed.


Lemma resolve_graft (p : path) (new root x : entry) :
  resolve root p = Some x -> resolve (graft p new root) p = Some new.
Proof.
  revert root. induction p as [|s p IH]; intros root; simpl; [reflexivity|].
  destruct root as [|l items| |]; try discriminate.
  destruct (assoc s items) as [child|] eqn:Hchild; [|discriminate].
  intros Hx. simpl. rewrite (assoc_replace_item s _ child items Hchild).
  exact (IH child Hx).
Qed.

Lemma graft_frame (common : path) (a b : string) (p' q' : path) (new root : entry) :
  a <> b ->
  resolve (graft (common ++ a :: p') new root) (common ++ b :: q')
  = resolve root (common ++ b :: q').
Proof.
  intros Hne. assert (Hba : b <> a) by congruence.
  revert root. induction common as [|c common IH]; intros root; simpl.
  - destruct root as [|l items| |]; try reflexivity.
    destruct (assoc a items) as [child|]; [|reflexivity].
    simpl. now rewrite assoc_replace_item_other.
  - destruct root as [|l items| |]; try reflexivity.
    destruct (assoc c items) as [child|] eqn:Hchild; [|simpl; now rewrite Hchild].
    simpl. rewrite (assoc_replace_item c _ child items Hchild). apply IH.
Qed.

Section FileSystem.

Variable readdir_slot : string -> list string -> nat.
Variable rm_outcome : path -> entry -> removal.
Variable tar_links : list tar_entry -> list (string * entry) -> list (string * entry).

Local Abbreviation set_item := (set_item readdir_slot).
Local Abbreviation rm_at := (rm_at readdir_slot rm_outcome).
Local Abbreviation rmSync := (rmSync readdir_slot rm_outcome).
Local Abbreviation mkdirSync := (mkdirSync readdir_slot).
Local Abbreviation place := (place readdir_slot).
Local Abbreviation unpack_entry := (unpack_entry readdir_slot).
Local Abbreviation unpack := (unpack readdir_slot tar_links).
Local Abbreviation unpack_all :=
  (fun cwd entries root => fold_left (unpack_entry cwd) entries root).
Local Abbreviation downloadAndExtract :=
  (downloadAndExtract readdir_slot rm_outcome tar_links).

Lemma assoc_set_item (s : string) (v : entry) (items : list (string * entry)) :
  assoc s (set_item s v items) = Some v.
Proof.
  unfold Extract.set_item. destruct (assoc s items) as [w|] eqn:H.
  - exact (assoc_replace_item s v w items H).
  - exact (assoc_insert_at s v _ items H).
Qed.

Lemma assoc_set_item_other (s k : string) (v : entry) (items : list (string * entry)) :
  k <> s -> assoc k (set_item s v items) = assoc k items.
Proof.
  intros Hne. unfold Extract.set_item. destruct (assoc s items).
  - now apply assoc_replace_item_other.
  - now apply assoc_insert_at_other.
Qed.

(** ** Removal *)

(** What [rmSync] does at a path where something is: it removes it or
    throws, as the file system decides; the directory above stays. *)
Lemma rm_at_found (target q : path) (s : string) (e x : entry) :
  resolve e (q ++ [s]) = Some x ->
  exists e1,
    rm_at target e (q ++ [s])
    = (match rm_outcome target x with Removed => None | Refused message _ => Some message end,
       e1)
    /\ is_directory (resolve e1 q)
    /\ resolve e1 (q ++ [s])
       = match rm_outcome target x with Removed => None | Refused _ remains => remains end.
Proof.
  revert e. induction q as [|s' q IH]; intros e; simpl.
  - destruct e as [|l items| |]; try discriminate.
    destruct (assoc s items) as [child|] eqn:Hchild; [|discriminate].
    intros [= ->].
    destruct (rm_outcome target x) as [|message [remains|]]; eexists;
      (split; [reflexivity|]); (split; [now eexists _, _|]); simpl.
    + now rewrite assoc_remove_item.
    + now rewrite assoc_set_item.
    + now rewrite assoc_remove_item.
  - destruct e as [|l items| |]; try discriminate.
    destruct (assoc s' items) as [child|] eqn:Hchild; [|discriminate].
    intros Hx. destruct (IH child Hx) as (child1 & Hrm & Hdir & Hres).
    destruct (q ++ [s]) as [|y rest] eqn:Hq; [now destruct q|].
    rewrite Hrm. eexists. split; [reflexivity|].
    cbn [resolve]. rewrite assoc_set_item. now split.
Qed.

(** [rmSync] changes nothing at a path that parts ways with its own. *)
Lemma rm_at_frame (target common : path) (a b : string) (p' q' : path) (e : entry) :
  a <> b ->
  resolve (snd (rm_at target e (common ++ a :: p'))) (common ++ b :: q')
  = resolve e (common ++ b :: q').
Proof.
  intros Hne. revert e. induction common as [|c common IH]; intros e; simpl.
  - destruct e as [|l items| |]; try reflexivity.
    destruct (assoc a items) as [child|] eqn:Ha; [|reflexivity].
    assert (Hba : b <> a) by congruence.
    destruct p' as [|s p'].
    + destruct (rm_outcome target child) as [|message [remains|]]; simpl.
      * now rewrite assoc_remove_item_other.
      * now rewrite assoc_set_item_other.
      * now rewrite assoc_remove_item_other.
    + destruct (Extract.rm_at _ _ target child (s :: p')) as [thrown child'].
      simpl. now rewrite assoc_set_item_other.
  - destruct e as [|l items| |]; try reflexivity.
    destruct (assoc c items) as [child|] eqn:Hc; [|simpl; now rewrite Hc].
    specialize (IH child).
    destruct (common ++ a :: p') as [|y rest] eqn:Hq; [now destruct common|].
    destruct (Extract.rm_at _ _ target child (y :: rest)) as [thrown child'].
    simpl in *. rewrite assoc_set_item. exact IH.
Qed.

(** ** Making directories *)

(** [mkdirSync] on a path where nothing is makes an empty directory
    there. *)
Lemma resolve_mkdirSync (p : path) (cur : option entry) (made : entry) :
  mkdirSync p cur = Some made ->
  resolve_from cur p = None ->
  resolve made p = Some (Dir true []).
Proof.
  revert cur made. induction p as [|s p IH]; intros cur made; simpl.
  - destruct cur as [[|l items| |]|]; simpl; try discriminate.
    intros [= <-] _. reflexivity.
  - destruct cur as [[|l items| |]|]; simpl; try discriminate.
    + destruct (Extract.mkdirSync _ p (assoc s items)) as [child|] eqn:Hmk; [|discriminate].
      intros [= <-] Hnone. cbn [resolve]. rewrite assoc_set_item.
      apply (IH (assoc s items) child Hmk).
      destruct (assoc s items); [exact Hnone | reflexivity].
    + destruct (Extract.mkdirSync _ p None) as [child|] eqn:Hmk; [|discriminate].
      intros [= <-] _. cbn [resolve assoc]. rewrite String.eqb_refl.
      now apply (IH None child Hmk).
Qed.

(** [mkdirSync] throws when the path leads to a broken link. *)
Lemma mkdirSync_dangling (p : path) (root : entry) :
  resolve root p = Some Dangling -> mkdirSync p (Some root) = None.
Proof.
  revert root. induction p as [|s p IH]; intros root; simpl.
  - intros [= ->]. reflexivity.
  - destruct root as [|l items| |]; try discriminate.
    destruct (assoc s items) as [child|]; [|discriminate].
    intros H. now rewrite (IH child H).
Qed.

Lemma mkdirSync_succeeds (q : path) (s : string) (root1 : entry) :
  is_directory (resolve root1 q) ->
  resolve root1 (q ++ [s]) = None ->
  exists root2, mkdirSync (q ++ [s]) (Some root1) = Some root2.
Proof.
  revert root1. induction q as [|s' q IH]; intros root1; simpl.
  - intros (l & items & [= ->]). destruct (assoc s items); [discriminate|].
    intros _. eauto.
  - intros (l & items & Hdir).
    destruct root1 as [|l1 items1| |]; try discriminate.
    destruct (assoc s' items1) as [child|] eqn:Hchild; [|discriminate].
    intros Hnone. destruct (IH child) as [child2 Hmk]; [now exists l, items | exact Hnone |].
    rewrite Hmk. eauto.
Qed.

Lemma mkdirSync_frame (common : path) (a b : string) (p' q' : path)
    (cur : option entry) (made : entry) :
  a <> b ->
  mkdirSync (common ++ a :: p') cur = Some made ->
  resolve made (common ++ b :: q') = resolve_from cur (common ++ b :: q').
Proof.
  intros Hne. assert (Hba : b <> a) by congruence.
  revert cur made. induction common as [|c common IH]; intros cur made; simpl.
  - destruct cur as [[|l items| |]|]; simpl; try discriminate.
    + destruct (Extract.mkdirSync _ p' (assoc a items)) as [child|]; [|discriminate].
      intros [= <-]. simpl. now rewrite assoc_set_item_other.
    + destruct (Extract.mkdirSync _ p' None) as [child|]; [|discriminate].
      intros [= <-]. simpl. apply String.eqb_neq in Hba. now rewrite Hba.
  - destruct cur as [[|l items| |]|]; simpl; try discriminate.
    + destruct (Extract.mkdirSync _ (common ++ a :: p') (assoc c items)) as [child|] eqn:Hmk;
        [|discriminate].
      intros [= <-]. simpl. rewrite assoc_set_item.
      rewrite (IH _ _ Hmk). now destruct (assoc c items).
    + destruct (Extract.mkdirSync _ (common ++ a :: p') None) as [child|] eqn:Hmk;
        [|discriminate].
      intros [= <-]. simpl. rewrite String.eqb_refl. exact (IH _ _ Hmk).
Qed.

(** [mkdirSync] cannot go through a file. *)
Lemma mkdirSync_blocked (q : path) (s : string) (root : entry) (content : option string) :
  resolve root q = Some (File content) -> mkdirSync (q ++ [s]) (Some root) = None.
Proof.
  revert root. induction q as [|s' q IH]; intros root; simpl.
  - now intros [= ->].
  - destruct root as [|l items| |]; try discriminate.
    destruct (assoc s' items) as [child|]; [|discriminate].
    intros H. now rewrite (IH child H).
Qed.

(** ** One entry of the archive *)



(** An entry changes nothing at a path that parts ways with its own. *)
Lemma place_frame (common : path) (a b : string) (p' q' : path) (k : tar_kind)
    (cur : option entry) (made : entry) :
  a <> b ->
  place (common ++ a :: p') k cur = Some made ->
  resolve made (common ++ b :: q') = resolve_from cur (common ++ b :: q').
Proof.
  intros Hne. assert (Hba : b <> a) by congruence.
  revert cur made. induction common as [|c common IH]; intros cur made; simpl.
  - destruct cur as [[|l items| |]|]; simpl; try discriminate.
    + destruct (Extract.place _ p' k (assoc a items)) as [child|]; [|discriminate].
      intros [= <-]. simpl. now rewrite assoc_set_item_other.
    + destruct (Extract.place _ p' k None) as [child|]; [|discriminate].
      intros [= <-]. simpl. apply String.eqb_neq in Hba. now rewrite Hba.
  - destruct cur as [[|l items| |]|]; simpl; try discriminate.
    + destruct (Extract.place _ (common ++ a :: p') k (assoc c items)) as [child|] eqn:Hp;
        [|discriminate].
      intros [= <-]. simpl. rewrite assoc_set_item.
      rewrite (IH _ _ Hp). now destruct (assoc c items).
    + destruct (Extract.place _ (common ++ a :: p') k None) as [child|] eqn:Hp;
        [|discriminate].
      intros [= <-]. simpl. rewrite String.eqb_refl. exact (IH _ _ Hp).
Qed.


(** Writing below [cwd] is writing in what is at [cwd]. *)
Lemma place_under (cwd p : path) (k : tar_kind) (root sub : entry) :
  resolve root cwd = Some sub ->
  match place p k (Some sub) with
  | Some sub' =>
      exists root', place (cwd ++ p) k (Some root) = Some root'
                    /\ resolve root' cwd = Some sub'
  | None => place (cwd ++ p) k (Some root) = None
  end.
Proof.
  revert root. induction cwd as [|c cwd IH]; intros root; simpl.
  - intros [= ->]. destruct (Extract.place _ p k (Some sub)); eauto.
  - destruct root as [|l items| |]; try discriminate.
    destruct (assoc c items) as [child|] eqn:Hc; [|discriminate].
    intros Hsub. specialize (IH child Hsub).
    destruct (Extract.place _ p k (Some sub)) as [sub'|].
    + destruct IH as (child' & -> & Hres). eexists. split; [reflexivity|].
      simpl. now rewrite assoc_set_item.
    + now rewrite IH.
Qed.


(** ** The whole archive *)


Lemma resolve_unpack_entry (cwd : path) (e : tar_entry) (root sub : entry) :
  resolve root cwd = Some sub ->
  resolve (unpack_entry cwd root e) cwd = Some (unpack_entry [] sub e).
Proof.
  intros Hsub. unfold Extract.unpack_entry.
  destruct (stripped 1 (te_path e)) as [[|s rel]|]; try exact Hsub.
  pose proof (place_under cwd (s :: rel) (te_kind e) root sub Hsub) as H.
  change ([] ++ s :: rel) with (s :: rel).
  destruct (Extract.place _ (s :: rel) (te_kind e) (Some sub)) as [sub'|].
  - destruct H as (root' & -> & Hres). exact Hres.
  - now rewrite H.
Qed.

(** Unpacking below [cwd] is unpacking in what is at [cwd]. *)
Lemma resolve_unpack (cwd : path) (entries : list tar_entry) (root sub : entry) :
  resolve root cwd = Some sub ->
  resolve (unpack cwd entries root) cwd = Some (unpack [] entries sub).
Proof.
  revert root sub. induction entries as [|e entries IH]; intros root sub Hsub;
    [exact Hsub|].
  simpl. destruct (te_kind e) as [content| |linkpath].
  - apply IH. now apply resolve_unpack_entry.
  - apply IH. now apply resolve_unpack_entry.
  - rewrite Hsub. destruct sub as [|l items| |]; try exact Hsub.
    exact (resolve_graft cwd _ root _ Hsub).
Qed.

(** Unpacking changes nothing at a path that parts ways with [cwd]. *)
Lemma unpack_frame (cwd q : path) (entries : list tar_entry) (root : entry) :
  apart cwd q -> resolve (unpack cwd entries root) q = resolve root q.
Proof.
  intros (common & a & b & p' & q' & -> & -> & Hne).
  assert (Hentry : forall e r,
             resolve (unpack_entry (common ++ a :: p') r e) (common ++ b :: q')
             = resolve r (common ++ b :: q')).
  { intros e r. unfold Extract.unpack_entry.
    destruct (stripped 1 (te_path e)) as [[|s rel]|]; try reflexivity.
    rewrite <- app_assoc, <- app_comm_cons.
    destruct (Extract.place _ _ (te_kind e) (Some r)) as [r'|] eqn:Hp; [|reflexivity].
    exact (place_frame common a b _ q' _ _ _ Hne Hp). }
  revert root. induction entries as [|e entries IH]; intros root; [reflexivity|].
  simpl. destruct (te_kind e) as [content| |linkpath].
  - now rewrite IH, Hentry.
  - now rewrite IH, Hentry.
  - destruct (resolve root (common ++ a :: p')) as [[|l items| |]|]; try reflexivity.
    now apply graft_frame.
Qed.










Section Server.

Variable tempDir : path.

Local Abbreviation downloadAndExtract := (downloadAndExtract tempDir).

(** Before the download, the sandbox path holds an empty directory. *)
Lemma sandbox_emptied (p : path) (root root1 root2 : entry) :
  forallb plain p = true ->
  (if existsSync root p then rmSync root p else (None, root)) = (None, root1) ->
  mkdirSync p (Some root1) = Some root2 ->
  resolve root2 p = Some (Dir true []).
Proof.
  intros Hp Hrm Hmk. apply (resolve_mkdirSync p (Some root1) root2 Hmk). simpl.
  destruct (existsSync root p) eqn:Hex.
  - destruct (existsSync_resolve root p Hp Hex) as (e & He & _).
    destruct p as [|c p'] using rev_ind; [discriminate|].
    destruct (rm_at_found (p' ++ [c]) p' c root e He) as (e1 & Hrm1 & _ & Hres).
    unfold Extract.rmSync in Hrm. rewrite Hrm1 in Hrm.
    destruct (rm_outcome (p' ++ [c]) e) as [|message remains]; [|discriminate].
    injection Hrm as <-. exact Hres.
  - injection Hrm as <-.
    destruct (not_existsSync root p Hp Hex) as [Hnone | Hdangling]; [exact Hnone|].
    rewrite (mkdirSync_dangling p root Hdangling) in Hmk. discriminate.
Qed.

(** A run that resolves has found the archive complete and leaves at the
    sandbox path what unpacking that archive into an empty directory
    gives, whatever was there before. *)
Lemma downloadAndExtract_resolved
    (https_get : string -> download) (tarballUrl packageName : string)
    (root root' : entry) (extractPath : path) :
  downloadAndExtract https_get tarballUrl packageName root = (Ok extractPath, root') ->
  extractPath = extractPath_of tempDir packageName
  /\ exists entries,
       https_get tarballUrl = Response 200 entries Finished
       /\ resolve root' extractPath = Some (unpack [] entries (Dir true [])).
Proof.
  unfold Extract.downloadAndExtract, extractPath_of.
  pose proof (sandbox_is_plain tempDir packageName) as Hplain. unfold extractPath_of in Hplain.
  set (p := join tempDir (sanitize packageName)) in *.
  pose proof (sandbox_emptied p root) as Hempty.
  destruct (if existsSync root p then rmSync root p else (None, root)) as [[message|] root1];
    [discriminate|].
  destruct (mkdirSync p (Some root1)) as [root2|] eqn:Hmk; [|discriminate].
  specialize (Hempty root1 root2 Hplain eq_refl Hmk).
  destruct (https_get tarballUrl) as [message | | statusCode entries how];
    try discriminate.
  destruct (statusCode =? 200)%nat eqn:Hstatus; simpl; [|discriminate].
  apply Nat.eqb_eq in Hstatus. subst statusCode.
  destruct how; try discriminate.
  intros [= <- <-]. split; [reflexivity|].
  exists entries. split; [reflexivity|].
  now apply resolve_unpack.
Qed.

(** A run whose sandbox path is [q/s], with a directory at [q] and
    nothing at [q/s] that cannot be removed, gets as far as the download
    and leaves at [q/s] what it unpacked into an empty directory; it
    resolves exactly when the download ends complete with status 200. *)
Lemma downloadAndExtract_at
    (https_get : string -> download) (tarballUrl packageName : string) (root : entry)
    (q : path) (s : string) :
  extractPath_of tempDir packageName = q ++ [s] ->
  is_directory (resolve root q) ->
  resolve root (q ++ [s]) <> Some Dangling ->
  removable rm_outcome root (q ++ [s]) ->
  exists outcome root',
    downloadAndExtract https_get tarballUrl packageName root = (outcome, root')
    /\ resolve root' (q ++ [s])
       = Some (unpack [] (unpacked_by (https_get tarballUrl)) (Dir true []))
    /\ (outcome = Ok (q ++ [s])
        <-> exists entries, https_get tarballUrl = Response 200 entries Finished)
    /\ (forall extractPath, outcome = Ok extractPath -> extractPath = q ++ [s]).
Proof.
  intros Hpath Hdir Hlink Hremovable.
  pose proof (sandbox_is_plain tempDir packageName) as Hplain.
  unfold Extract.downloadAndExtract. unfold extractPath_of in Hpath, Hplain.
  rewrite Hpath in *. set (p := q ++ [s]) in *.
  assert (Hrm : exists root1,
             (if existsSync root p then rmSync root p else (None, root)) = (None, root1)
             /\ is_directory (resolve root1 q) /\ resolve root1 p = None).
  { destruct (existsSync root p) eqn:Hex.
    - destruct (existsSync_resolve root p Hplain Hex) as (e & He & _).
      destruct (rm_at_found p q s root e He) as (root1 & Hrm & Hdir1 & Hres).
      rewrite (Hremovable e He) in Hrm, Hres. now exists root1.
    - exists root. split; [reflexivity|]. split; [exact Hdir|].
      destruct (not_existsSync root p Hplain Hex) as [Hnone | Hdangling];
        [exact Hnone | contradiction]. }
  destruct Hrm as (root1 & -> & Hdir1 & Hnone).
  destruct (mkdirSync_succeeds q s root1 Hdir1 Hnone) as [root2 Hmk].
  fold p in Hmk. rewrite Hmk.
  pose proof (resolve_mkdirSync p (Some root1) root2 Hmk Hnone) as Hempty.
  destruct (https_get tarballUrl) as [message | | statusCode unpacked how].
  - eexists _, _. split; [reflexivity|]. split; [exact Hempty|].
    split; [split; [discriminate | intros (? & [=])] | discriminate].
  - eexists _, _. split; [reflexivity|]. split; [exact Hempty|].
    split; [split; [discriminate | intros (? & [=])] | discriminate].
  - destruct (statusCode =? 200)%nat eqn:Hstatus; cbn [unpacked_by negb]; rewrite Hstatus.
    + apply Nat.eqb_eq in Hstatus. subst statusCode.
      pose proof (resolve_unpack p unpacked root2 _ Hempty) as Hunpacked.
      destruct how; eexists _, _; (split; [reflexivity|]); (split; [exact Hunpacked|]);
        (split; [split; [eauto || discriminate | try reflexivity; intros (? & [=])]
                | try discriminate; now intros ? [= <-]]).
    + eexists _, _. split; [reflexivity|]. split; [exact Hempty|].
      split; [split; [discriminate | intros (? & [= -> _ _]); discriminate] | discriminate].
Qed.




End Server.

End FileSystem.


Lemma sanitize_char_cases (c : ascii) :
  (c <> "@"%char /\ c <> "/"%char /\ sanitize_char c = c)
  \/ ((c = "@"%char \/ c = "/"%char) /\ sanitize_char c = "_"%char).
Proof.
  unfold sanitize_char.
  destruct (Ascii.eqb_spec c "@"%char) as [-> | Hat]; [right; auto|].
  destruct (Ascii.eqb_spec c "/"%char) as [-> | Hslash]; [right; auto|].
  left. auto.
Qed.

(** C10.  [sanitize] changes ['@'] and ['/'] into ['_'] and nothing else,
    so the distinct names [@foo/bar] and [_foo_bar] get the same sandbox
    directory under every [tempDir]; and whenever two names share their
    sanitized form, an extraction for the second that resolves leaves in
    that directory only its own archive.  On the sample server, the
    [index.js] unpacked for [@foo/bar] is gone once [_foo_bar] has been
    extracted. *)
Theorem sanitize_collision :
  "@foo/bar" <> "_foo_bar"
  /\ sanitize "@foo/bar" = sanitize "_foo_bar"
  /\ (forall tempDir, extractPath_of tempDir "@foo/bar" = extractPath_of tempDir "_foo_bar")
  /\ (forall c,
        (c <> "@"%char /\ c <> "/"%char /\ sanitize_char c = c)
        \/ ((c = "@"%char \/ c = "/"%char) /\ sanitize_char c = "_"%char))
  /\ (forall readdir_slot rm_outcome tar_links
             tempDir net1 net2 url1 url2 name1 name2 root extractPath,
        sanitize name1 = sanitize name2 ->
        let first :=
          downloadAndExtract readdir_slot rm_outcome tar_links tempDir net1 url1 name1 root in
        let second :=
          downloadAndExtract readdir_slot rm_outcome tar_links tempDir net2 url2 name2
            (snd first) in
        fst second = Ok extractPath ->
        extractPath = extractPath_of tempDir name1
        /\ exists entries,
             net2 url2 = Response 200 entries Finished
             /\ resolve (snd second) (extractPath_of tempDir name1)
                = Some (unpack readdir_slot tar_links [] entries (Dir true [])))
  /\ (let first :=
        downloadAndExtract Samples.lists_last Samples.removes_all Samples.no_links
          Samples.temp_dir Samples.two_archives "https://registry.npmjs.org/first.tgz"
          "@foo/bar" Samples.temp_root in
      let second :=
        downloadAndExtract Samples.lists_last Samples.removes_all Samples.no_links
          Samples.temp_dir Samples.two_archives "https://registry.npmjs.org/second.tgz"
          "_foo_bar" (snd first) in
      fst first = Ok ["srv"; "temp"; "_foo_bar"]
      /\ resolve (snd first) ["srv"; "temp"; "_foo_bar"; "index.js"] = Some (File (Some "one"))
      /\ fst second = Ok ["srv"; "temp"; "_foo_bar"]
      /\ resolve (snd second) ["srv"; "temp"; "_foo_bar"; "index.js"] = None
      /\ resolve (snd second) ["srv"; "temp"; "_foo_bar"; "main.js"] = Some (File (Some "two"))).
Proof.
  split; [discriminate|].
  split; [reflexivity|].
  split; [reflexivity|].
  split; [exact sanitize_char_cases|].
  split.
  - intros readdir_slot rm_outcome tar_links tempDir net1 net2 url1 url2 name1 name2 root
      extractPath Hsame first second Hok.
    assert (Hpath : extractPath_of tempDir name1 = extractPath_of tempDir name2)
      by (unfold extractPath_of; now rewrite Hsame).
    rewrite Hpath.
    destruct (downloadAndExtract_resolved readdir_slot rm_outcome tar_links tempDir net2 url2
                name2 (snd first) (snd second) extractPath) as (-> & entries & Hnet & Hres).
    + rewrite <- Hok. fold second. now destruct second.
    + split; [reflexivity|]. exists entries. split; [exact Hnet | exact Hres].
  - vm_compute. repeat split.
Qed.

End ExtractFacts.

(* ------------------------------------------------------------------------- *)
(** ** What the walks return *)
(* ------------------------------------------------------------------------- *)

Module ReachFacts.
Import Js Path Fs Walk Files Reach PathFacts FsFacts FilesFacts.

Lemma assoc_names {A} (k : string) (items : list (string * A)) (v : A) :
  assoc k items = Some v -> existsb (String.eqb k) (map fst items) = true.
Proof.
  induction items as [|[k' w] items IH]; simpl; [discriminate|].
  destruct (String.eqb k k'); [reflexivity | exact IH].
Qed.

Lemma leads_to_key hidden items rel name content :
  leads_to hidden (Dir true items) rel name = Some content ->
  exists c, assoc (first_key rel name) items = Some c.
Proof.
  destruct rel as [|d rel]; simpl.
  - destruct (assoc name items) as [c|]; [eauto | discriminate].
  - destruct (hidden d); [discriminate|].
    destruct (assoc d items) as [c|]; [eauto | discriminate].
Qed.

Lemma leads_to_skip hidden item child items rel name :
  String.eqb (first_key rel name) item = false ->
  leads_to hidden (Dir true ((item, child) :: items)) rel name
  = leads_to hidden (Dir true items) rel name.
Proof.
  destruct rel as [|d rel]; simpl; intros ->; reflexivity.
Qed.

Lemma leads_to_later hidden item child items rel name content :
  existsb (String.eqb item) (map fst items) = false ->
  leads_to hidden (Dir true items) rel name = Some content ->
  leads_to hidden (Dir true ((item, child) :: items)) rel name = Some content.
Proof.
  intros Hfresh Hleads. rewrite leads_to_skip; [exact Hleads|].
  destruct (leads_to_key _ _ _ _ _ Hleads) as [c Hc].
  apply assoc_names in Hc.
  destruct (String.eqb_spec (first_key rel name) item) as [Heq|]; [|reflexivity].
  rewrite Heq in Hc. rewrite Hc in Hfresh. discriminate.
Qed.

Ltac split_named H :=
  let Hrest := fresh "Hrest" in
  let Hchild := fresh "Hchild" in
  let Hplain := fresh "Hplain" in
  let Hslash := fresh "Hslash" in
  simpl in H;
  apply andb_prop in H as [H Hrest];
  apply andb_prop in H as [H Hchild];
  apply andb_prop in H as [Hplain Hslash].

Ltac split_distinct H :=
  let Hrest := fresh "Drest" in
  let Hchild := fresh "Dchild" in
  simpl in H;
  apply andb_prop in H as [H Hrest];
  apply andb_prop in H as [H Hchild];
  apply negb_true_iff in H.

Lemma plain_snoc dir item :
  forallb plain dir = true -> plain item = true -> forallb plain (dir ++ [item]) = true.
Proof. intros Hdir Hitem. rewrite forallb_app. simpl. now rewrite Hdir, Hitem. Qed.

(** Every path [walk_all] returns is a file that visible, listable
    directories lead to. *)
Lemma walk_all_sound (e : entry) :
  forall dir p,
    well_named e = true -> distinct_names e = true -> forallb plain dir = true ->
    In p (walk_all dir e) ->
    exists rel name content,
      p = dir ++ rel ++ [name] /\ leads_to dot_name e rel name = Some content.
Proof.
  induction e as [content | l items IH | |] using entry_nested_ind;
    intros dir p Hnamed Hdistinct Hdir; simpl; try contradiction.
  destruct l; [|contradiction].
  induction items as [|[item child] items IHitems]; [contradiction|].
  apply Forall_cons_iff in IH as [IHchild IH]. simpl in IHchild.
  split_named Hnamed. split_distinct Hdistinct.
  specialize (IHitems IH Hrest Drest).
  assert (Hlater : In p (walk_all dir (Dir true items)) ->
            exists rel name content,
              p = dir ++ rel ++ [name]
              /\ leads_to dot_name (Dir true ((item, child) :: items)) rel name = Some content).
  { intros Hin. destruct (IHitems Hin) as (rel & name & content & -> & Hleads).
    exists rel, name, content. split; [reflexivity|].
    now apply leads_to_later. }
  cbn [walk_all]. rewrite (join_plain dir item Hdir Hplain Hslash).
  destruct child as [content | l' sub | |]; try exact Hlater.
  - intros [<- | Hin]; [|exact (Hlater Hin)].
    exists [], item, content. split; [reflexivity|].
    simpl. now rewrite String.eqb_refl.
  - destruct (startsWith item ".") eqn:Hhidden; simpl; [exact Hlater|].
    intros Hin. apply in_app_or in Hin as [Hin | Hin]; [|exact (Hlater Hin)].
    destruct (IHchild (dir ++ [item]) p Hchild Dchild (plain_snoc _ _ Hdir Hplain) Hin)
      as (rel & name & content & -> & Hleads).
    exists (item :: rel), name, content. split; [now rewrite <- app_assoc|].
    cbn [leads_to]. unfold dot_name at 1. rewrite Hhidden.
    cbn [assoc]. rewrite String.eqb_refl. exact Hleads.
Qed.

(** Every file that visible, listable directories lead to is returned. *)
Lemma walk_all_complete (e : entry) :
  forall dir rel name content,
    well_named e = true -> forallb plain dir = true ->
    leads_to dot_name e rel name = Some content ->
    In (dir ++ rel ++ [name]) (walk_all dir e).
Proof.
  induction e as [content | l items IH | |] using entry_nested_ind;
    intros dir rel name content' Hnamed Hdir; try (destruct rel; discriminate).
  destruct l; [|destruct rel; discriminate].
  induction items as [|[item child] items IHitems].
  - destruct rel; simpl; [discriminate|]. destruct (dot_name s); discriminate.
  - apply Forall_cons_iff in IH as [IHchild IH]. simpl in IHchild.
    split_named Hnamed. specialize (IHitems IH Hrest).
    assert (Hlater : In (dir ++ rel ++ [name]) (walk_all dir (Dir true items)) ->
              In (dir ++ rel ++ [name]) (walk_all dir (Dir true ((item, child) :: items)))).
    { cbn [walk_all]. intros Hin.
      destruct child as [c | l' sub | |]; try exact Hin.
      - right. exact Hin.
      - destruct (negb (startsWith item ".")); [|exact Hin].
        apply in_or_app. right. exact Hin. }
    destruct (String.eqb (first_key rel name) item) eqn:Hkey.
    + apply String.eqb_eq in Hkey.
      cbn [walk_all]. rewrite (join_plain dir item Hdir Hplain Hslash).
      destruct rel as [|d rel]; simpl in Hkey; subst.
      * simpl. rewrite String.eqb_refl.
        destruct child as [c | l' sub | |]; try discriminate.
        intros _. left. reflexivity.
      * cbn [leads_to assoc]. rewrite String.eqb_refl.
        destruct (dot_name item) eqn:Hhidden; [discriminate|].
        destruct child as [c | l' sub | |]; try discriminate.
        intros Hleads. unfold dot_name in Hhidden. rewrite Hhidden. simpl.
        apply in_or_app. left.
        assert (Hpath : dir ++ item :: rel ++ [name] = (dir ++ [item]) ++ rel ++ [name])
          by now rewrite <- app_assoc.
        rewrite Hpath.
        exact (IHchild (dir ++ [item]) rel name content' Hchild
                 (plain_snoc _ _ Hdir Hplain) Hleads).
    + rewrite (leads_to_skip _ _ _ _ _ _ Hkey). intros Hleads.
      exact (Hlater (IHitems Hleads)).
Qed.

(** Every file [walk_code] returns is a readable code file that listable
    directories outside the skip set lead to, with its content. *)
Lemma walk_code_sound (e : entry) :
  forall dir file,
    well_named e = true -> distinct_names e = true -> forallb plain dir = true ->
    In file (walk_code dir e) ->
    exists rel name,
      cf_path file = dir ++ rel ++ [name]
      /\ isCodeFile name = true
      /\ leads_to shouldSkipDirectory e rel name = Some (Some (cf_content file)).
Proof.
  induction e as [content | l items IH | |] using entry_nested_ind;
    intros dir file Hnamed Hdistinct Hdir; simpl; try contradiction.
  destruct l; [|contradiction].
  induction items as [|[item child] items IHitems]; [contradiction|].
  apply Forall_cons_iff in IH as [IHchild IH]. simpl in IHchild.
  split_named Hnamed. split_distinct Hdistinct.
  specialize (IHitems IH Hrest Drest).
  assert (Hlater : In file (walk_code dir (Dir true items)) ->
            exists rel name,
              cf_path file = dir ++ rel ++ [name]
              /\ isCodeFile name = true
              /\ leads_to shouldSkipDirectory (Dir true ((item, child) :: items)) rel name
                 = Some (Some (cf_content file))).
  { intros Hin. destruct (IHitems Hin) as (rel & name & Hpath & Hcode & Hleads).
    exists rel, name. split; [exact Hpath|]. split; [exact Hcode|].
    now apply leads_to_later. }
  cbn [walk_code]. rewrite (join_plain dir item Hdir Hplain Hslash).
  destruct child as [content | l' sub | |]; try exact Hlater.
  - destruct (isCodeFile item) eqn:Hcode; [|exact Hlater].
    destruct content as [c|]; [|exact Hlater].
    intros [<- | Hin]; [|exact (Hlater Hin)].
    exists [], item. simpl. split; [reflexivity|]. split; [exact Hcode|].
    now rewrite String.eqb_refl.
  - destruct (shouldSkipDirectory item) eqn:Hskip; simpl; [exact Hlater|].
    intros Hin. apply in_app_or in Hin as [Hin | Hin]; [|exact (Hlater Hin)].
    destruct (IHchild (dir ++ [item]) file Hchild Dchild (plain_snoc _ _ Hdir Hplain) Hin)
      as (rel & name & Hpath & Hcode & Hleads).
    exists (item :: rel), name. split; [rewrite Hpath; now rewrite <- app_assoc|].
    split; [exact Hcode|].
    cbn [leads_to]. rewrite Hskip.
    cbn [assoc]. rewrite String.eqb_refl. exact Hleads.
Qed.

(** Every readable code file that listable directories outside the skip set
    lead to is returned, with its content. *)
Lemma walk_code_complete (e : entry) :
  forall dir rel name content,
    well_named e = true -> forallb plain dir = true ->
    isCodeFile name = true ->
    leads_to shouldSkipDirectory e rel name = Some (Some content) ->
    In {| cf_path := dir ++ rel ++ [name]; cf_content := content |} (walk_code dir e).
Proof.
  induction e as [content | l items IH | |] using entry_nested_ind;
    intros dir rel name content' Hnamed Hdir Hcode; try (destruct rel; discriminate).
  destruct l; [|destruct rel; discriminate].
  induction items as [|[item child] items IHitems].
  - destruct rel; simpl; [discriminate|]. destruct (shouldSkipDirectory s); discriminate.
  - apply Forall_cons_iff in IH as [IHchild IH]. simpl in IHchild.
    split_named Hnamed. specialize (IHitems IH Hrest).
    set (file := {| cf_path := dir ++ rel ++ [name]; cf_content := content' |}) in *.
    assert (Hlater : In file (walk_code dir (Dir true items)) ->
              In file (walk_code dir (Dir true ((item, child) :: items)))).
    { cbn [walk_code]. intros Hin.
      destruct child as [c | l' sub | |]; try exact Hin.
      - destruct (isCodeFile item); [|exact Hin].
        destruct c; [right|]; exact Hin.
      - destruct (negb (shouldSkipDirectory item)); [|exact Hin].
        apply in_or_app. right. exact Hin. }
    destruct (String.eqb (first_key rel name) item) eqn:Hkey.
    + apply String.eqb_eq in Hkey.
      cbn [walk_code]. rewrite (join_plain dir item Hdir Hplain Hslash).
      destruct rel as [|d rel]; simpl in Hkey; subst.
      * simpl. rewrite String.eqb_refl.
        destruct child as [c | l' sub | |]; try discriminate.
        intros [= ->]. rewrite Hcode. left. reflexivity.
      * cbn [leads_to assoc]. rewrite String.eqb_refl.
        destruct (shouldSkipDirectory item) eqn:Hskip; [discriminate|].
        destruct child as [c | l' sub | |]; try discriminate.
        intros Hleads. simpl.
        apply in_or_app. left. unfold file.
        assert (Hpath : dir ++ (item :: rel) ++ [name] = (dir ++ [item]) ++ rel ++ [name])
          by now rewrite <- app_assoc.
        rewrite Hpath.
        exact (IHchild (dir ++ [item]) rel name content' Hchild
                 (plain_snoc _ _ Hdir Hplain) Hcode Hleads).
    + rewrite (leads_to_skip _ _ _ _ _ _ Hkey). intros Hleads.
      exact (Hlater (IHitems Hleads)).
Qed.

Lemma leads_to_resolve hidden (e : entry) (rel : list string) (name : string)
    (content : option string) :
  leads_to hidden e rel name = Some content ->
  resolve e (rel ++ [name]) = Some (File content).
Proof.
  revert e. induction rel as [|d rel IH]; intros e; simpl.
  - destruct e as [|[] items| |]; try discriminate.
    destruct (assoc name items) as [[c| | |]|]; try discriminate.
    now intros [= ->].
  - destruct e as [|[] items| |]; try discriminate.
    destruct (hidden d); [discriminate|].
    destruct (assoc d items) as [[|l sub| |]|]; try discriminate.
    apply IH.
Qed.

Lemma distinct_names_child (l : bool) (items : list (string * entry)) (s : string) (child : entry) :
  distinct_names (Dir l items) = true -> assoc s items = Some child ->
  distinct_names child = true.
Proof.
  simpl. induction items as [|[item e] items IH]; simpl; [discriminate|].
  intros H. apply andb_prop in H as [H Hrest]. apply andb_prop in H as [_ He].
  destruct (String.eqb s item); [intros [= <-]; exact He | exact (IH Hrest)].
Qed.

Lemma distinct_names_resolve (p : path) (root e : entry) :
  distinct_names root = true -> resolve root p = Some e -> distinct_names e = true.
Proof.
  revert root. induction p as [|s p IH]; intros root Hd; simpl.
  - intros [= <-]. exact Hd.
  - destruct root as [|l items| |]; try discriminate.
    destruct (assoc s items) as [child|] eqn:Hchild; [|discriminate].
    apply IH. exact (distinct_names_child l items s child Hd Hchild).
Qed.


Lemma getAllFiles_sound (root : entry) (dir p : path) :
  well_named root = true -> distinct_names root = true -> forallb plain dir = true ->
  In p (getAllFiles root dir) ->
  exists rel name content,
    p = dir ++ rel ++ [name] /\ reached dot_name root dir rel name = Some content.
Proof.
  intros Hnamed Hdistinct Hdir. unfold getAllFiles, reached.
  destruct (resolve root dir) as [e|] eqn:He; [|contradiction].
  pose proof (well_named_resolve dir root e Hnamed He) as Hnamed'.
  pose proof (distinct_names_resolve dir root e Hdistinct He) as Hdistinct'.
  now apply walk_all_sound.
Qed.

(** X1.  In a file tree with proper, distinct entry names, [getAllFiles]
    returns exactly the files that directories which can be listed, and whose
    names do not start with a dot, lead to from [dir]: nothing else, and all
    of them, whether they can be read or not. *)
Theorem getAllFiles_exact (root : entry) (dir p : path) :
  well_named root = true -> distinct_names root = true -> forallb plain dir = true ->
  In p (getAllFiles root dir)
  <-> exists rel name content,
        p = dir ++ rel ++ [name] /\ reached dot_name root dir rel name = Some content.
Proof.
  intros Hnamed Hdistinct Hdir. split; [now apply getAllFiles_sound|].
  unfold getAllFiles, reached.
  destruct (resolve root dir) as [e|] eqn:He; [|intros (? & ? & ? & _ & [=])].
  pose proof (well_named_resolve dir root e Hnamed He) as Hnamed'.
  pose proof (distinct_names_resolve dir root e Hdistinct He) as Hdistinct'.
  intros (rel & name & content & -> & Hleads).
  now apply (walk_all_complete e dir rel name content).
Qed.

Lemma getAllFiles_exact_witness :
  In (Samples.sandbox ++ ["node_modules"; "lib.js"])
     (getAllFiles Samples.server_root Samples.sandbox)
  <-> exists rel name content,
        Samples.sandbox ++ ["node_modules"; "lib.js"] = Samples.sandbox ++ rel ++ [name]
        /\ reached dot_name Samples.server_root Samples.sandbox rel name = Some content.
Proof.
  apply (getAllFiles_exact Samples.server_root Samples.sandbox
           (Samples.sandbox ++ ["node_modules"; "lib.js"])); reflexivity.
Defined.

(** X2.  In a file tree with proper, distinct entry names, [findCodeFiles]
    returns exactly the readable files with a code extension that
    directories which can be listed, and which [shouldSkipDirectory] does not
    name, lead to from [dir], each with the content read from it. *)
Theorem findCodeFiles_exact (root : entry) (dir : path) (file : CodeFile) :
  well_named root = true -> distinct_names root = true -> forallb plain dir = true ->
  In file (findCodeFiles root dir)
  <-> exists rel name,
        cf_path file = dir ++ rel ++ [name]
        /\ isCodeFile name = true
        /\ reached shouldSkipDirectory root dir rel name = Some (Some (cf_content file)).
Proof.
  intros Hnamed Hdistinct Hdir. unfold findCodeFiles, reached.
  destruct (resolve root dir) as [e|] eqn:He.
  - pose proof (well_named_resolve dir root e Hnamed He) as Hnamed'.
    pose proof (distinct_names_resolve dir root e Hdistinct He) as Hdistinct'.
    split.
    + now apply walk_code_sound.
    + intros (rel & name & Hpath & Hcode & Hleads).
      destruct file as [p c]. simpl in *. subst p.
      now apply walk_code_complete.
  - split; [contradiction | intros (? & ? & _ & _ & [=])].
Qed.

Lemma findCodeFiles_exact_witness :
  In {| cf_path := Samples.sandbox ++ ["index.js"]; cf_content := "module.exports = 1;" |}
     (findCodeFiles Samples.server_root Samples.sandbox)
  <-> exists rel name,
        Samples.sandbox ++ ["index.js"] = Samples.sandbox ++ rel ++ [name]
        /\ isCodeFile name = true
        /\ reached shouldSkipDirectory Samples.server_root Samples.sandbox rel name
           = Some (Some "module.exports = 1;").
Proof.
  apply (findCodeFiles_exact Samples.server_root Samples.sandbox
           {| cf_path := Samples.sandbox ++ ["index.js"];
              cf_content := "module.exports = 1;" |}); reflexivity.
Defined.


End ReachFacts.

(* ------------------------------------------------------------------------- *)
(** ** The file list of [listPackageFiles] *)
(* ------------------------------------------------------------------------- *)

Module ListingFacts.
Import Js Path Fs Walk Files Reach Listing PathFacts StringFacts FsFacts FilesFacts
  ReachFacts.

Lemma insert_sorted_perm (s : string) (l : list string) :
  Permutation (insert_sorted s l) (s :: l).
Proof.
  induction l as [|x l IH]; simpl; [reflexivity|].
  destruct (String.leb s x); [reflexivity|].
  rewrite IH. apply perm_swap.
Qed.

Lemma sort_strings_perm (l : list string) : Permutation (sort_strings l) l.
Proof.
  unfold sort_strings. induction l as [|x l IH]; simpl; [reflexivity|].
  rewrite insert_sorted_perm. now constructor.
Qed.

Lemma insert_sorted_hd (s a : string) (l : list string) :
  leb_true a s -> HdRel leb_true a l -> HdRel leb_true a (insert_sorted s l).
Proof.
  intros Has Hal. destruct l as [|x l]; simpl; [now constructor|].
  destruct (String.leb s x); constructor; [exact Has|].
  now inversion Hal.
Qed.

Lemma insert_sorted_sorted (s : string) (l : list string) :
  Sorted leb_true l -> Sorted leb_true (insert_sorted s l).
Proof.
  induction 1 as [|x l Hl IH Hhd]; simpl; [repeat constructor|].
  destruct (String.leb s x) eqn:Hsx.
  - constructor; [now constructor | constructor; exact Hsx].
  - constructor; [exact IH|].
    apply insert_sorted_hd; [|exact Hhd].
    destruct (String.leb_total s x) as [H | H]; [congruence | exact H].
Qed.

Lemma sort_strings_sorted (l : list string) : Sorted leb_true (sort_strings l).
Proof.
  unfold sort_strings. induction l as [|x l IH]; simpl; [constructor|].
  now apply insert_sorted_sorted.
Qed.

(** X4.  The list [listPackageFiles] prints is in ascending order, and it is
    a rearrangement of the relative paths of the files [getAllFiles]
    returned: nothing is dropped or added, so the number printed as the
    total is the number of files found. *)
Theorem fileList_sorted_permutation (root : entry) (extractedPath : path) :
  Sorted leb_true (fileList root extractedPath)
  /\ Permutation (fileList root extractedPath)
       (map (fun filePath => render_relative (relative extractedPath filePath))
            (getAllFiles root extractedPath))
  /\ length (fileList root extractedPath) = length (getAllFiles root extractedPath).
Proof.
  unfold fileList. split; [apply sort_strings_sorted|].
  split; [apply sort_strings_perm|].
  rewrite (Permutation_length (sort_strings_perm _)). apply length_map.
Qed.

Lemma relative_app (dir r : path) : relative dir (dir ++ r) = r.
Proof.
  induction dir as [|s dir IH]; simpl; [now destruct r|].
  now rewrite String.eqb_refl.
Qed.

Lemma well_named_key (l : bool) (items : list (string * entry)) (k : string) (c : entry) :
  well_named (Dir l items) = true -> assoc k items = Some c ->
  plain k = true /\ no_slash k = true.
Proof.
  simpl. induction items as [|[item e] items IH]; simpl; [discriminate|].
  intros H. apply andb_prop in H as [H Hrest]. apply andb_prop in H as [H _].
  apply andb_prop in H as [Hplain Hslash].
  destruct (String.eqb_spec k item) as [-> | _]; [intros _; now split | exact (IH Hrest)].
Qed.

Lemma leads_to_named hidden (rel : list string) :
  forall (e : entry) (name : string) (content : option string),
    well_named e = true ->
    leads_to hidden e rel name = Some content ->
    forallb plain (rel ++ [name]) = true /\ forallb no_slash (rel ++ [name]) = true.
Proof.
  induction rel as [|d rel IH]; intros e name content Hnamed; simpl.
  - destruct e as [|[] items| |]; try discriminate.
    destruct (assoc name items) as [c|] eqn:Hc; [|discriminate].
    intros _. destruct (well_named_key _ _ _ _ Hnamed Hc) as [-> ->]. now split.
  - destruct e as [|[] items| |]; try discriminate.
    destruct (hidden d); [discriminate|].
    destruct (assoc d items) as [[|l sub| |]|] eqn:Hc; try discriminate.
    intros Hleads.
    destruct (well_named_key _ _ _ _ Hnamed Hc) as [-> ->].
    exact (IH (Dir l sub) name content (well_named_child _ _ _ _ Hnamed Hc) Hleads).
Qed.

(** X3.  Every line of the list of [listPackageFiles] is a path
    [getSpecificFile] accepts for the same extracted root: joined back onto
    the root it leads to a file, so the answer is never "File not found" or
    "Path is not a file", and a file that can be read comes back with its
    content. *)
Theorem listed_file_can_be_fetched (root : entry) (extractedPath : path) (filePath : string) :
  well_named root = true -> distinct_names root = true ->
  forallb plain extractedPath = true ->
  In filePath (fileList root extractedPath) ->
  exists content,
    resolve root (join extractedPath filePath) = Some (File content)
    /\ existsSync root (join extractedPath filePath) = true
    /\ forall text, content = Some text ->
         getSpecificFile root extractedPath filePath
         = Ok (text_content ("File: " +:+ filePath +:+ nl +:+ nl +:+ text)).
Proof.
  intros Hnamed Hdistinct Hdir Hin.
  apply (Permutation_in _ (sort_strings_perm _)) in Hin.
  apply in_map_iff in Hin as (p & <- & Hp).
  apply (getAllFiles_sound root extractedPath p Hnamed Hdistinct Hdir) in Hp
    as (rel & name & content & -> & Hreached).
  unfold reached in Hreached.
  destruct (resolve root extractedPath) as [e|] eqn:He; [|discriminate].
  destruct (leads_to_named _ rel e name content
              (well_named_resolve _ _ _ Hnamed He) Hreached) as [Hplain Hslash].
  rewrite relative_app. unfold render_relative.
  assert (Hjoin : join extractedPath (String.concat "/" (rel ++ [name]))
                  = extractedPath ++ rel ++ [name]).
  { apply join_concat; [exact Hdir | now destruct rel | exact Hplain | exact Hslash]. }
  assert (Hfile : resolve root (extractedPath ++ rel ++ [name]) = Some (File content)).
  { rewrite resolve_app, He. simpl. exact (leads_to_resolve _ _ _ _ _ Hreached). }
  assert (Hlookup : lookup root (extractedPath ++ rel ++ [name]) = Some (File content)).
  { rewrite lookup_plain; [exact Hfile|]. now rewrite forallb_app, Hdir, Hplain. }
  exists content. rewrite Hjoin. split; [exact Hfile|]. split.
  - unfold existsSync, statSync. now rewrite Hlookup.
  - intros text ->. apply getSpecificFile_reads. now rewrite Hjoin.
Qed.

Lemma listed_file_can_be_fetched_witness :
  exists content,
    resolve Samples.server_root (join Samples.sandbox "node_modules/lib.js")
    = Some (File content)
    /\ existsSync Samples.server_root (join Samples.sandbox "node_modules/lib.js") = true
    /\ forall text, content = Some text ->
         getSpecificFile Samples.server_root Samples.sandbox "node_modules/lib.js"
         = Ok (text_content ("File: " +:+ "node_modules/lib.js" +:+ nl +:+ nl +:+ text)).
Proof.
  apply (listed_file_can_be_fetched Samples.server_root Samples.sandbox "node_modules/lib.js").
  - reflexivity.
  - reflexivity.
  - reflexivity.
  - vm_compute. right. left. reflexivity.
Defined.

End ListingFacts.

(* ------------------------------------------------------------------------- *)
(** ** Entries the walks pass over, skipped names and extensions *)
(* ------------------------------------------------------------------------- *)

Module WalkFacts.
Import Js Path Fs Walk Files Reach PathFacts StringFacts.

Lemma walk_all_app (dir : path) (l1 l2 : list (string * entry)) :
  walk_all dir (Dir true (l1 ++ l2))
  = walk_all dir (Dir true l1) ++ walk_all dir (Dir true l2).
Proof.
  induction l1 as [|[item child] l1 IH]; [reflexivity|].
  cbn [walk_all app] in *.
  destruct child as [c | l sub | |]; try exact IH.
  - simpl. now rewrite IH.
  - destruct (negb (startsWith item ".")); [|exact IH].
    rewrite IH. now rewrite app_assoc.
Qed.

Lemma walk_code_app (dir : path) (l1 l2 : list (string * entry)) :
  walk_code dir (Dir true (l1 ++ l2))
  = walk_code dir (Dir true l1) ++ walk_code dir (Dir true l2).
Proof.
  induction l1 as [|[item child] l1 IH]; [reflexivity|].
  cbn [walk_code app] in *.
  destruct child as [c | l sub | |]; try exact IH.
  - destruct (isCodeFile item); [|exact IH].
    destruct c; [|exact IH]. simpl. now rewrite IH.
  - destruct (negb (shouldSkipDirectory item)); [|exact IH].
    rewrite IH. now rewrite app_assoc.
Qed.

(** X5.  Neither walk stops at an entry it cannot use.  A directory that
    cannot be listed, a broken link or a special file in a listing changes
    nothing: both walks return what they return without that entry; for
    [findCodeFiles] the same holds for a file that cannot be read. *)
Theorem walks_skip_unreadable
    (dir : path) (before after : list (string * entry)) (item : string) (bad : entry) :
  (unreadable bad = true ->
   walk_all dir (Dir true (before ++ (item, bad) :: after))
   = walk_all dir (Dir true (before ++ after))
   /\ walk_code dir (Dir true (before ++ (item, bad) :: after))
      = walk_code dir (Dir true (before ++ after)))
  /\ walk_code dir (Dir true (before ++ (item, File None) :: after))
     = walk_code dir (Dir true (before ++ after)).
Proof.
  split.
  - intros Hbad. rewrite !walk_all_app, !walk_code_app.
    change ((item, bad) :: after) with ([(item, bad)] ++ after).
    rewrite walk_all_app, walk_code_app.
    destruct bad as [c | [] sub | |]; try discriminate; simpl.
    + destruct (negb (startsWith item ".")), (negb (shouldSkipDirectory item)); now split.
    + now split.
    + now split.
  - rewrite !walk_code_app.
    change ((item, File None) :: after) with ([(item, File None)] ++ after).
    rewrite walk_code_app. simpl. now destruct (isCodeFile item).
Qed.

(** X6.  [shouldSkipDirectory] holds exactly of the names that start with
    a dot and of [node_modules] and [__pycache__]: the other four names of
    its list start with a dot already. *)
Theorem shouldSkipDirectory_iff (dirName : string) :
  shouldSkipDirectory dirName = true
  <-> startsWith dirName "." = true
      \/ dirName = "node_modules" \/ dirName = "__pycache__".
Proof.
  unfold shouldSkipDirectory, includes, skipDirs. simpl.
  destruct (startsWith dirName ".") eqn:Hdot; simpl; [tauto|].
  destruct (String.eqb_spec dirName ".git") as [-> | _]; [discriminate|].
  destruct (String.eqb_spec dirName ".svn") as [-> | _]; [discriminate|].
  destruct (String.eqb_spec dirName ".hg") as [-> | _]; [discriminate|].
  destruct (String.eqb_spec dirName "node_modules") as [-> | Hnm]; [tauto|].
  destruct (String.eqb_spec dirName ".DS_Store") as [-> | _]; [discriminate|].
  destruct (String.eqb_spec dirName "__pycache__") as [-> | Hpc]; [tauto|].
  simpl. split; [discriminate | intros [H | [H | H]]; congruence].
Qed.

Lemma lower_ascii_dot (c : ascii) :
  Ascii.eqb (lower_ascii c) "."%char = Ascii.eqb c "."%char.
Proof. destruct c as [[] [] [] [] [] [] [] []]; reflexivity. Qed.

Lemma lower_ascii_idem (c : ascii) : lower_ascii (lower_ascii c) = lower_ascii c.
Proof. destruct c as [[] [] [] [] [] [] [] []]; reflexivity. Qed.

Lemma toLowerCase_idem (s : string) : toLowerCase (toLowerCase s) = toLowerCase s.
Proof. induction s as [|c s IH]; simpl; [reflexivity|]. now rewrite lower_ascii_idem, IH. Qed.

Lemma last_dot_lower (s : string) : last_dot (toLowerCase s) = last_dot s.
Proof.
  induction s as [|c s IH]; simpl; [reflexivity|].
  rewrite IH, lower_ascii_dot. reflexivity.
Qed.

Lemma length_lower (s : string) : String.length (toLowerCase s) = String.length s.
Proof. induction s as [|c s IH]; simpl; [reflexivity | now rewrite IH]. Qed.

Lemma substring_lower (n m : nat) (s : string) :
  substring n m (toLowerCase s) = toLowerCase (substring n m s).
Proof.
  revert m s. induction n as [|n IH]; intros m s.
  - revert s. induction m as [|m IHm]; intros [|c s]; simpl; try reflexivity.
    now rewrite IHm.
  - destruct s as [|c s]; simpl; [reflexivity | apply IH].
Qed.

Lemma dotdot_lower (s : string) : String.eqb (toLowerCase s) ".." = String.eqb s "..".
Proof.
  destruct s as [|a [|b [|c s]]]; simpl; try reflexivity.
  - now rewrite lower_ascii_dot.
  - rewrite !lower_ascii_dot. reflexivity.
  - rewrite !lower_ascii_dot. reflexivity.
Qed.

Lemma extname_lower (name : string) :
  extname (toLowerCase name) = toLowerCase (extname name).
Proof.
  unfold extname. rewrite last_dot_lower, dotdot_lower, length_lower.
  destruct (last_dot name) as [[|i]|]; try reflexivity.
  destruct (String.eqb name ".."); [reflexivity | apply substring_lower].
Qed.

(** X7.  [isCodeFile] does not look at letter case: a name and its
    lower-case form get the same answer, so two names that differ only in
    the case of their letters are both code files or both not. *)
Theorem isCodeFile_ignores_case (a b : string) :
  isCodeFile (toLowerCase a) = isCodeFile a
  /\ (toLowerCase a = toLowerCase b -> isCodeFile a = isCodeFile b).
Proof.
  assert (Hlower : forall s, isCodeFile (toLowerCase s) = isCodeFile s).
  { intros s. unfold isCodeFile. now rewrite extname_lower, toLowerCase_idem. }
  split; [apply Hlower|].
  intros Hsame. rewrite <- (Hlower a), <- (Hlower b), Hsame. reflexivity.
Qed.

End WalkFacts.

(* ------------------------------------------------------------------------- *)
(** ** Searches that pass the checks, and a registry that is down *)
(* ------------------------------------------------------------------------- *)

Module SearchMore.
Import Js Search StringFacts SearchFacts.

Section Runtime.

Variable npm_search : nat -> request -> response json.
Variable toFixed1 : float -> string.
Variable number_toString : float -> string.
Variable string_toNumber : string -> float.
Variable toLocaleDateString : jsval -> string.
Variable toISOString : Z -> string.

Local Abbreviation performPackageSearch := (performPackageSearch npm_search).
Local Abbreviation too_large := (too_large number_toString string_toNumber).
Local Abbreviation search_text :=
  (search_text toFixed1 number_toString string_toNumber toLocaleDateString).
Local Abbreviation searchNpmPackages :=
  (searchNpmPackages npm_search toFixed1 number_toString string_toNumber toLocaleDateString).
Local Abbreviation seed_searches := (seed_searches npm_search).
Local Abbreviation digest :=
  (digest number_toString string_toNumber toLocaleDateString toISOString).
Local Abbreviation getPopularPackages :=
  (getPopularPackages npm_search number_toString string_toNumber toLocaleDateString
     toISOString).



(** The seed loop when no search succeeds: nothing is accumulated. *)
Lemma seed_searches_all_fail (terms : list string)
    (acc : list jsval * list json) (st : state) :
  (forall n req searchResults, npm_search n req <> Ended (Value searchResults)) ->
  seed_searches terms acc st = (Ok acc, sent st (map seed_request terms)).
Proof.
  intros Hfail. revert st. induction terms as [|searchTerm terms IH]; intros st; simpl.
  - unfold ret, sent. rewrite app_nil_r. now destruct st.
  - unfold Search.performPackageSearch.
    destruct (npm_search (length (requests st))
                {| req_text := searchTerm; req_size := JNum 10; req_from := JNum 0 |})
      as [[message | r] | message |] eqn:Hnet;
      try (now destruct (Hfail _ _ _ Hnet));
      rewrite IH; unfold sent; simpl; now rewrite <- app_assoc.
Qed.

(** X9.  When every seed search fails, [getPopularPackages] does not fail:
    it returns a digest that is the heading and the date line with no
    package, and stores it.  For the next 24 hours that empty digest is
    served and no search is tried again. *)
Theorem getPopularPackages_outage (st : state) (now stamp : Z) :
  (forall n req searchResults, npm_search n req <> Ended (Value searchResults)) ->
  cache_is_fresh st now = false ->
  let resultText :=
    ("# ðŸ”¥ Most Popular NPM Packages" +:+ nl +:+ nl)
    +:+ "Updated: " +:+ toISOString stamp +:+ nl +:+ nl in
  let st' := {| popularPackagesCache := Some resultText;
                popularPackagesCacheTime := now;
                requests := requests st ++ map seed_request (firstn 5 popularQueries) |} in
  getPopularPackages now stamp st = (Ok (text_content resultText), st')
  /\ forall later stamp',
       (later - now < CACHE_DURATION)%Z ->
       getPopularPackages later stamp' st' = (Ok (text_content resultText), st').
Proof.
  intros Hfail Hstale resultText st'.
  assert (Hne : resultText <> "").
  { unfold resultText. rewrite !append_cons. discriminate. }
  split.
  - unfold Search.getPopularPackages. rewrite Hstale.
    unfold try_internal, bind.
    rewrite (seed_searches_all_fail _ _ _ Hfail). reflexivity.
  - intros later stamp' Hage. unfold Search.getPopularPackages.
    rewrite (cache_is_fresh_true st' later resultText eq_refl Hne Hage). reflexivity.
Qed.

End Runtime.


(** A fresh server while the registry is down. *)
Lemma getPopularPackages_outage_witness :
  exists resultText,
    let st' := {| popularPackagesCache := Some resultText;
                  popularPackagesCacheTime := 0;
                  requests := requests initial
                              ++ map seed_request (firstn 5 popularQueries) |} in
    getPopularPackages Scenarios.registry_down Samples.fixed_number Samples.no_number
      Samples.fixed_date Samples.fixed_iso 0 0 initial
    = (Ok (text_content resultText), st')
    /\ forall later stamp',
         (later - 0 < CACHE_DURATION)%Z ->
         getPopularPackages Scenarios.registry_down Samples.fixed_number Samples.no_number
           Samples.fixed_date Samples.fixed_iso later stamp' st'
         = (Ok (text_content resultText), st').
Proof.
  eexists.
  apply (getPopularPackages_outage Scenarios.registry_down Samples.fixed_number
           Samples.no_number Samples.fixed_date Samples.fixed_iso initial 0 0).
  - intros n req searchResults. unfold Scenarios.registry_down. discriminate.
  - reflexivity.
Defined.

End SearchMore.
(* ------------------------------------------------------------------------- *)
(** ** The entries of the popular-packages digest *)
(* ------------------------------------------------------------------------- *)

Module PopularFacts.
Import Js Dynamic Search Popular StringFacts SearchFacts.

Lemma insert_by_perm {A} (compare : A -> A -> float) (x : A) (l : list A) :
  Permutation (insert_by compare x l) (x :: l).
Proof.
  induction l as [|y l IH]; simpl; [reflexivity|].
  destruct (PrimFloat.ltb (compare y x) 0); [|reflexivity].
  rewrite IH. apply perm_swap.
Qed.

Lemma sort_by_perm {A} (compare : A -> A -> float) (l : list A) :
  Permutation (sort_by compare l) l.
Proof.
  unfold sort_by. induction l as [|x l IH]; simpl; [reflexivity|].
  rewrite insert_by_perm. now constructor.
Qed.

(** A string the set does not hold is not among its members. *)
Lemma has_false_string (seen : list jsval) (s : string) :
  has seen (Some (JStr s)) = false -> ~ In (Some (JStr s)) seen.
Proof.
  unfold has. intros Hhas Hin.
  assert (Htrue : existsb (same_value_zero (Some (JStr s))) seen = true).
  { apply existsb_exists. exists (Some (JStr s)). split; [exact Hin|].
    simpl. apply String.eqb_refl. }
  congruence.
Qed.

Lemma in_omap_app {A B} (f : A -> option B) (l : list A) (x : A) (y : B) :
  In y (omap f (l ++ [x])) <-> In y (omap f l) \/ f x = Some y.
Proof.
  rewrite omap_app, in_app_iff. simpl. destruct (f x) as [z|]; simpl.
  - split; intros [H | H]; auto.
    + destruct H as [<- | []]. now right.
    + injection H as <-. right. now left.
  - split; intros [H | H]; auto; [contradiction | discriminate].
Qed.

Section Runtime.

Variable npm_search : nat -> request -> response json.
Variable number_toString : float -> string.
Variable string_toNumber : string -> float.
Variable toLocaleDateString : jsval -> string.
Variable toISOString : Z -> string.

Local Abbreviation seed_searches := (seed_searches npm_search).
Local Abbreviation sort_packages := (sort_packages number_toString string_toNumber).
Local Abbreviation popular_entries :=
  (popular_entries number_toString string_toNumber toLocaleDateString).
Local Abbreviation digest :=
  (digest number_toString string_toNumber toLocaleDateString toISOString).
Local Abbreviation getPopularPackages :=
  (getPopularPackages npm_search number_toString string_toNumber toLocaleDateString
     toISOString).

Local Abbreviation returned := (returned npm_search).
Local Abbreviation accumulated := (accumulated npm_search).

Lemma add_hit_accumulated acc acc' hit :
  accumulated acc ->
  (forall pkg, prop "package" hit = Some pkg -> returned pkg) ->
  add_hit acc hit = Ok acc' ->
  accumulated acc'.
Proof.
  destruct acc as [seen details]. unfold add_hit, get, and_then.
  intros (Hnodup & Hseen & Hret) Hhit. simpl in Hnodup, Hseen, Hret.
  destruct hit as [| b | x | s | xs | members]; try discriminate;
    try (unfold type_error; simpl; discriminate).
  simpl. destruct (members !! "package") as [pkg|] eqn:Hpkg;
    [|unfold type_error; discriminate].
  destruct pkg as [| b | x | s | xs | pkg];
    try (unfold type_error; discriminate);
    match goal with
    | |- context [has seen ?name] =>
        destruct (has seen name) eqn:Hhas; intros [= <-];
          try (split; [exact Hnodup | split; [exact Hseen | exact Hret]])
    end.
  all: unfold Popular.accumulated; simpl.
  all: try (split; [|split];
            [ rewrite omap_app; simpl; now rewrite app_nil_r
            | intros s'; rewrite omap_app; simpl; rewrite app_nil_r, <- Hseen;
              split; [intros [[=] | H]; exact H | intros H; now right]
            | apply Forall_app; split; [exact Hret|]; constructor; [|constructor];
              apply Hhit; exact Hpkg ]).
  (* the package is an object: its name may be a string *)
  split; [|split].
  - rewrite omap_app. simpl. unfold string_name at 2. simpl.
    destruct (pkg !! "name") as [[| b | x | s | xs | ms]|] eqn:Hname; simpl;
      rewrite ?app_nil_r; try exact Hnodup.
    apply NoDup_app. split; [exact Hnodup|]. split; [|apply NoDup_singleton].
    intros s' Hs' Hs''. apply list_elem_of_singleton in Hs''. subst s'.
    apply list_elem_of_In, Hseen in Hs'. simpl in Hhas. rewrite Hname in Hhas.
    exact (has_false_string _ _ Hhas Hs').
  - intros s'. rewrite in_omap_app, <- Hseen. unfold string_name. simpl.
    destruct (pkg !! "name") as [[| b | x | s | xs | ms]|] eqn:Hname; simpl;
      split; intros [H | H]; auto; try discriminate.
    + injection H as ->. now right.
    + injection H as ->. now left.
  - apply Forall_app. split; [exact Hret|]. constructor; [|constructor].
    apply Hhit. exact Hpkg.
Qed.

Lemma add_hits_accumulated (hits : list json) acc :
  accumulated acc ->
  Forall (fun hit => forall pkg, prop "package" hit = Some pkg -> returned pkg) hits ->
  accumulated (add_hits hits acc).
Proof.
  revert acc. induction hits as [|hit hits IH]; intros acc Hacc Hhits; simpl; [exact Hacc|].
  apply Forall_cons_iff in Hhits as [Hhit Hhits].
  destruct (add_hit acc hit) as [acc'|e] eqn:Hadd; [|exact Hacc].
  apply IH; [|exact Hhits]. exact (add_hit_accumulated acc acc' hit Hacc Hhit Hadd).
Qed.

Lemma seed_searches_accumulated (terms : list string) acc st found st' :
  accumulated acc ->
  seed_searches terms acc st = (Ok found, st') ->
  accumulated found.
Proof.
  revert acc st. induction terms as [|searchTerm terms IH]; intros acc st Hacc; simpl.
  - unfold ret. now intros [= <- _].
  - unfold Search.performPackageSearch.
    destruct (npm_search (length (requests st))
                {| req_text := searchTerm; req_size := JNum 10; req_from := JNum 0 |})
      as [[message | r] | message |] eqn:Hnet; try (apply IH; exact Hacc).
    destruct (and_then _ _) as [hits | e] eqn:Hhits; [|apply IH; exact Hacc].
    apply IH. apply add_hits_accumulated; [exact Hacc|].
    unfold and_then, get in Hhits.
    destruct r as [| b | x | s | xs | members]; try discriminate; simpl in Hhits;
      try (unfold iterate, type_error in Hhits; discriminate).
    destruct (members !! "objects") as [[| b | x | s | xs | ms]|] eqn:Hobjects;
      try discriminate; injection Hhits as <-.
    + apply Forall_forall. intros hit Hhit pkg Hpkg.
      apply list_elem_of_In, in_map_iff in Hhit as (c & <- & _). discriminate.
    + apply Forall_forall. intros hit Hhit pkg Hpkg.
      exists (length (requests st)),
        {| req_text := searchTerm; req_size := JNum 10; req_from := JNum 0 |},
        (JObj members), xs, hit.
      split; [exact Hnet|]. split; [exact Hobjects|].
      split; [now apply list_elem_of_In | exact Hpkg].
Qed.

Lemma sort_packages_perm (packageDetails sorted : list json) :
  sort_packages packageDetails = Ok sorted -> Permutation sorted packageDetails.
Proof.
  unfold Search.sort_packages.
  destruct packageDetails as [|a [|b others]]; try (intros [= <-]; reflexivity).
  destruct (List.filter nameless _); [|discriminate].
  intros [= <-]. exact (sort_by_perm _ (a :: b :: others)).
Qed.

(** X10.  Whatever the registry answers, the packages a recomputation of
    [getPopularPackages] has gathered are packages that some search
    response held, and no two of them have the same string as name.  When
    the sort goes through, the digest is built from at most 50 of them; it
    is the result when it can be built, and when the sort or the building
    throws, the call fails with an [McpError] with code [InternalError]
    and the cause after "Failed to fetch popular packages: ". *)
Theorem getPopularPackages_digest_entries (st : state) (now stamp : Z) :
  cache_is_fresh st now = false ->
  exists packageDetails,
    NoDup (omap string_name packageDetails)
    /\ Forall returned packageDetails
    /\ match sort_packages packageDetails with
       | Ok sorted =>
           let topPackages := firstn 50 sorted in
           Permutation sorted packageDetails
           /\ (length topPackages <= 50)%nat
           /\ NoDup (omap string_name topPackages)
           /\ Forall returned topPackages
           /\ fst (getPopularPackages now stamp st)
              = match popular_entries 0 topPackages
                        (("# ðŸ”¥ Most Popular NPM Packages" +:+ nl +:+ nl)
                         +:+ "Updated: " +:+ toISOString stamp +:+ nl +:+ nl) with
                | Ok resultText => Ok (text_content resultText)
                | Err e =>
                    Err (McpError InternalError
                           ("Failed to fetch popular packages: " +:+ message_of e))
                end
       | Err e =>
           fst (getPopularPackages now stamp st)
           = Err (McpError InternalError
                    ("Failed to fetch popular packages: " +:+ message_of e))
       end.
Proof.
  intros Hstale.
  destruct (getPopularPackages_recomputes npm_search number_toString string_toNumber
              toLocaleDateString toISOString st now stamp Hstale) as (found & Hseeds & Hrun).
  exists (snd found).
  assert (Hacc : accumulated found).
  { eapply seed_searches_accumulated; [|exact Hseeds].
    unfold Popular.accumulated. simpl. split; [constructor|]. split; [|constructor].
    intros s. split; contradiction. }
  destruct Hacc as (Hnodup & _ & Hret).
  split; [exact Hnodup|]. split; [exact Hret|].
  rewrite Hrun. unfold Search.digest, and_then.
  destruct (sort_packages (snd found)) as [sorted | e] eqn:Hsort; [|reflexivity].
  pose proof (sort_packages_perm _ _ Hsort) as Hperm. cbv zeta.
  split; [exact Hperm|].
  split; [rewrite length_firstn; lia|]. split; [|split].
  - assert (Hsorted : NoDup (omap string_name sorted)) by (now rewrite Hperm).
    rewrite <- (firstn_skipn 50 sorted), omap_app in Hsorted.
    now apply NoDup_app in Hsorted as [H _].
  - apply Forall_forall. intros pkg Hpkg.
    apply list_elem_of_In in Hpkg.
    assert (Hin : In pkg sorted).
    { rewrite <- (firstn_skipn 50 sorted). apply in_or_app. now left. }
    apply (Permutation_in _ Hperm) in Hin.
    rewrite Forall_forall in Hret. apply Hret. now apply list_elem_of_In.
  - now destruct (Search.popular_entries _ _ _ _ _ _).
Qed.

End Runtime.

(** The first call on a fresh server whose registry answers every search
    with one hit. *)
Lemma getPopularPackages_digest_entries_witness :
  exists packageDetails,
    NoDup (omap string_name packageDetails)
    /\ Forall (returned Samples.one_hit) packageDetails
    /\ match sort_packages Samples.small_number Samples.no_number packageDetails with
       | Ok sorted =>
           let topPackages := firstn 50 sorted in
           Permutation sorted packageDetails
           /\ (length topPackages <= 50)%nat
           /\ NoDup (omap string_name topPackages)
           /\ Forall (returned Samples.one_hit) topPackages
           /\ fst (getPopularPackages Samples.one_hit Samples.small_number Samples.no_number
                     Samples.fixed_date Samples.fixed_iso 0 0 initial)
              = match popular_entries Samples.small_number Samples.no_number
                        Samples.fixed_date 0 topPackages
                        (("# ðŸ”¥ Most Popular NPM Packages" +:+ nl +:+ nl)
                         +:+ "Updated: " +:+ Samples.fixed_iso 0 +:+ nl +:+ nl) with
                | Ok resultText => Ok (text_content resultText)
                | Err e =>
                    Err (McpError InternalError
                           ("Failed to fetch popular packages: " +:+ message_of e))
                end
       | Err e =>
           fst (getPopularPackages Samples.one_hit Samples.small_number Samples.no_number
                  Samples.fixed_date Samples.fixed_iso 0 0 initial)
           = Err (McpError InternalError
                    ("Failed to fetch popular packages: " +:+ message_of e))
       end.
Proof.
  apply (getPopularPackages_digest_entries Samples.one_hit Samples.small_number
           Samples.no_number Samples.fixed_date Samples.fixed_iso initial 0 0).
  reflexivity.
Defined.

End PopularFacts.
(* ------------------------------------------------------------------------- *)
(** ** One run of the extraction: its sandbox and the rest of the tree *)
(* ------------------------------------------------------------------------- *)

Module ExtractMore.
Import Js Path Fs Extract ExtractSpec StringFacts PathFacts FsFacts ExtractFacts.

Section FileSystem.

Variable readdir_slot : string -> list string -> nat.
Variable rm_outcome : path -> entry -> removal.
Variable tar_links : list tar_entry -> list (string * entry) -> list (string * entry).

Local Abbreviation unpack := (unpack readdir_slot tar_links).
Local Abbreviation downloadAndExtract :=
  (downloadAndExtract readdir_slot rm_outcome tar_links).

Section Server.

Variable tempDir : path.

(** The sandbox path of the name [.] is [tempDir] itself. *)
Lemma extractPath_dot : forallb plain tempDir = true -> extractPath_of tempDir "." = tempDir.
Proof.
  intros Htemp. unfold extractPath_of, join. simpl. unfold normalize. rewrite fold_left_app.
  rewrite (fold_normalize_plain tempDir) by assumption. simpl.
  rewrite app_nil_r. apply rev_involutive.
Qed.


(** X12.  A run changes the file tree only at and below its own sandbox
    path: at every path that parts ways with it (another package's sandbox
    and the files in it, anything outside [tempDir]) the tree is as it was,
    whether the run resolves or fails. *)
Theorem downloadAndExtract_frame
    (https_get : string -> download) (tarballUrl packageName : string)
    (root : entry) (q : path) :
  apart (extractPath_of tempDir packageName) q ->
  resolve (snd (downloadAndExtract tempDir https_get tarballUrl packageName root)) q
  = resolve root q.
Proof.
  unfold extractPath_of, Extract.downloadAndExtract.
  set (p := join tempDir (sanitize packageName)).
  intros Hapart. pose proof Hapart as (common & a & b & p' & q' & Hp & -> & Hne).
  assert (Hkeep : forall thrown root1,
             (if existsSync root p then Extract.rmSync readdir_slot rm_outcome root p
              else (None, root)) = (thrown, root1) ->
             resolve root1 (common ++ b :: q') = resolve root (common ++ b :: q')).
  { intros thrown root1. destruct (existsSync root p).
    - unfold Extract.rmSync. rewrite Hp. intros Hrm.
      pose proof (rm_at_frame readdir_slot rm_outcome (common ++ a :: p') common a b p' q'
                    root Hne) as Hframe.
      now rewrite Hrm in Hframe.
    - now intros [= _ <-]. }
  destruct (if existsSync root p then Extract.rmSync readdir_slot rm_outcome root p
            else (None, root)) as [[message|] root1] eqn:Hrm;
    specialize (Hkeep _ root1 eq_refl); [exact Hkeep|].
  destruct (Extract.mkdirSync readdir_slot p (Some root1)) as [root2|] eqn:Hmk;
    [|exact Hkeep].
  assert (Hkeep2 : resolve root2 (common ++ b :: q') = resolve root (common ++ b :: q')).
  { rewrite <- Hkeep. rewrite Hp in Hmk.
    exact (mkdirSync_frame readdir_slot common a b p' q' (Some root1) root2 Hne Hmk). }
  assert (Hunpack : forall entries,
             resolve (unpack p entries root2) (common ++ b :: q')
             = resolve root (common ++ b :: q')).
  { intros entries. rewrite <- Hkeep2. now apply unpack_frame. }
  destruct (https_get tarballUrl) as [message | | statusCode unpacked how]; try exact Hkeep2.
  destruct (negb (statusCode =? 200)%nat); [exact Hkeep2|].
  destruct how; apply Hunpack.
Qed.

(** X13.  [sanitize] leaves dots alone, so the package names [.] and [..]
    do not get a directory of their own: the sandbox path of [.] is
    [tempDir] itself and that of [..] is the directory above it.  A run for
    [.] that resolves leaves in [tempDir] what it unpacked and nothing
    else: every other sandbox is gone. *)
Theorem downloadAndExtract_dot_names :
  forallb plain tempDir = true ->
  extractPath_of tempDir "." = tempDir
  /\ extractPath_of tempDir ".." = removelast tempDir
  /\ forall https_get tarballUrl root extractPath root',
       downloadAndExtract tempDir https_get tarballUrl "." root = (Ok extractPath, root') ->
       exists entries,
         https_get tarballUrl = Response 200 entries Finished
         /\ resolve root' tempDir = Some (unpack [] entries (Dir true [])).
Proof.
  intros Htemp. pose proof (extractPath_dot Htemp) as Hdot.
  split; [exact Hdot|]. split.
  - unfold extractPath_of, join. simpl. unfold normalize. rewrite fold_left_app.
    rewrite (fold_normalize_plain tempDir) by assumption. simpl.
    rewrite app_nil_r. unfold normalize_step. simpl.
    destruct (rev tempDir) as [|s t] eqn:Hrev.
    + apply (f_equal (@rev string)) in Hrev. rewrite rev_involutive in Hrev. now subst.
    + apply (f_equal (@rev string)) in Hrev. rewrite rev_involutive in Hrev. subst.
      simpl. now rewrite removelast_last.
  - intros https_get tarballUrl root extractPath root' Hrun.
    destruct (downloadAndExtract_resolved readdir_slot rm_outcome tar_links tempDir https_get
                tarballUrl "." root root' extractPath Hrun) as (-> & entries & Hnet & Hres).
    exists entries. split; [exact Hnet|]. now rewrite Hdot in Hres.
Qed.

End Server.

End FileSystem.


(** Extracting [left-pad] next to the sandbox [pkg]: the [index.js] of
    [pkg] is where it was. *)
Lemma downloadAndExtract_frame_witness :
  resolve
    (snd (downloadAndExtract Samples.lists_last Samples.removes_all Samples.no_links
            Samples.temp_dir Samples.two_archives "https://registry.npmjs.org/first.tgz"
            "left-pad" Samples.server_root))
    ["srv"; "temp"; "pkg"; "index.js"]
  = resolve Samples.server_root ["srv"; "temp"; "pkg"; "index.js"].
Proof.
  apply (downloadAndExtract_frame Samples.lists_last Samples.removes_all Samples.no_links
           Samples.temp_dir Samples.two_archives "https://registry.npmjs.org/first.tgz" "left-pad"
           Samples.server_root ["srv"; "temp"; "pkg"; "index.js"]).
  exists ["srv"; "temp"], "left-pad", "pkg", [], ["index.js"].
  repeat split. discriminate.
Defined.

Lemma downloadAndExtract_dot_names_witness :
  extractPath_of Samples.temp_dir "." = Samples.temp_dir
  /\ extractPath_of Samples.temp_dir ".." = removelast Samples.temp_dir
  /\ forall https_get tarballUrl root extractPath root',
       downloadAndExtract Samples.lists_last Samples.removes_all Samples.no_links
         Samples.temp_dir https_get tarballUrl "." root
       = (Ok extractPath, root') ->
       exists entries,
         https_get tarballUrl = Response 200 entries Finished
         /\ resolve root' Samples.temp_dir
            = Some (unpack Samples.lists_last Samples.no_links [] entries (Dir true [])).
Proof.
  apply (downloadAndExtract_dot_names Samples.lists_last Samples.removes_all
           Samples.no_links Samples.temp_dir).
  reflexivity.
Defined.

End ExtractMore.
(* ------------------------------------------------------------------------- *)
(** ** From the archive to [getSpecificFile] *)
(* ------------------------------------------------------------------------- *)

Module RoundTrip.
Import Js Path Fs Files Extract ExtractSpec StringFacts PathFacts FsFacts FilesFacts
  ExtractFacts.





Section Server.

Variable readdir_slot : string -> list string -> nat.
Variable rm_outcome : path -> entry -> removal.
Variable tar_links : list tar_entry -> list (string * entry) -> list (string * entry).
Variable tempDir : path.

Local Abbreviation downloadAndExtract :=
  (downloadAndExtract readdir_slot rm_outcome tar_links).


End Server.


End RoundTrip.
(* ------------------------------------------------------------------------- *)
(** ** The temp directory at start and exit *)
(* ------------------------------------------------------------------------- *)

Module LifecycleFacts.
Import Js Path Fs Extract ExtractSpec Lifecycle StringFacts PathFacts FsFacts ExtractFacts
  ExtractMore.

Lemma resolve_below_missing (root : entry) (p rest : path) :
  resolve root p = None -> resolve root (p ++ rest) = None.
Proof. intros H. now rewrite resolve_app, H. Qed.

Section FileSystem.

Variable readdir_slot : string -> list string -> nat.
Variable rm_outcome : path -> entry -> removal.
Variable tar_links : list tar_entry -> list (string * entry) -> list (string * entry).

Local Abbreviation unpack := (unpack readdir_slot tar_links).
Local Abbreviation downloadAndExtract :=
  (downloadAndExtract readdir_slot rm_outcome tar_links).
Local Abbreviation ensureTempDir := (ensureTempDir readdir_slot).
Local Abbreviation cleanup := (cleanup readdir_slot rm_outcome).

(** X15.  [cleanup] touches nothing but [tempDir]: every path that parts
    ways with it is left as it was.  When nothing exists at [tempDir] it
    does nothing.  When something does, the file system removes it or
    refuses: after a removal nothing is left at [tempDir] or below and
    nothing is logged; after a refusal the error is caught and logged
    after "Failed to cleanup temp directory: ", and what the file system
    kept is still there. *)
Theorem cleanup_removes_tempDir (tempDir : path) (root : entry) :
  tempDir <> [] ->
  forallb plain tempDir = true ->
  (forall q, apart tempDir q -> resolve (snd (cleanup tempDir root)) q = resolve root q)
  /\ (existsSync root tempDir = false -> cleanup tempDir root = (None, root))
  /\ (forall e,
        resolve root tempDir = Some e ->
        e <> Dangling ->
        match rm_outcome tempDir e with
        | Removed =>
            fst (cleanup tempDir root) = None
            /\ forall rest, resolve (snd (cleanup tempDir root)) (tempDir ++ rest) = None
        | Refused message remains =>
            fst (cleanup tempDir root)
            = Some ("Failed to cleanup temp directory: Error: " +:+ message)
            /\ resolve (snd (cleanup tempDir root)) tempDir = remains
        end).
Proof.
  intros Hne Hplain. destruct (exists_last Hne) as (parent & s & ->).
  split; [|split].
  - intros q (common & a & b & p' & q' & Hp & -> & Hab).
    unfold Lifecycle.cleanup. destruct (existsSync root (parent ++ [s])); [|reflexivity].
    pose proof (rm_at_frame readdir_slot rm_outcome (parent ++ [s]) common a b p' q' root Hab)
      as Hframe.
    unfold Extract.rmSync. rewrite Hp at 2.
    destruct (Extract.rm_at _ _ _ root (common ++ a :: p')) as [[message|] root'];
      exact Hframe.
  - intros Hex. unfold Lifecycle.cleanup. now rewrite Hex.
  - intros e He Hlink.
    assert (Hex : existsSync root (parent ++ [s]) = true).
    { unfold existsSync, statSync. rewrite (lookup_plain _ _ Hplain), He. now destruct e. }
    destruct (rm_at_found readdir_slot rm_outcome (parent ++ [s]) parent s root e He)
      as (root1 & Hrm & _ & Hres).
    unfold Lifecycle.cleanup, Extract.rmSync. rewrite Hex, Hrm.
    destruct (rm_outcome (parent ++ [s]) e) as [|message remains]; simpl.
    + split; [reflexivity|]. intros rest. now apply resolve_below_missing.
    + now split.
Qed.

(** X16.  [ensureTempDir] only asks whether something exists at [tempDir],
    not what: when it returns, something exists there; what existed before
    is left as it is, and only a missing [tempDir] is made, as an empty
    directory.  So with a file at [tempDir] it succeeds and changes
    nothing.  After that, every [downloadAndExtract] for a package name
    whose sanitized form is a plain segment is rejected with the file tree
    unchanged; but a run for the name [.], whose sandbox path is [tempDir]
    itself, removes the file when the file system lets it, puts its
    sandbox in its place, and resolves when its download completes. *)
Theorem ensureTempDir_keeps_what_exists (tempDir : path) (root : entry) :
  tempDir <> [] ->
  forallb plain tempDir = true ->
  (forall root',
     ensureTempDir tempDir root = Some root' ->
     existsSync root' tempDir = true
     /\ (existsSync root tempDir = true -> root' = root)
     /\ (existsSync root tempDir = false -> resolve root' tempDir = Some (Dir true [])))
  /\ (forall content,
        resolve root tempDir = Some (File content) ->
        ensureTempDir tempDir root = Some root
        /\ (forall https_get tarballUrl packageName,
              plain (sanitize packageName) = true ->
              exists e,
                downloadAndExtract tempDir https_get tarballUrl packageName root
                = (Err e, root))
        /\ (forall https_get tarballUrl,
              rm_outcome tempDir (File content) = Removed ->
              resolve (snd (downloadAndExtract tempDir https_get tarballUrl "." root)) tempDir
              = Some (unpack [] (unpacked_by (https_get tarballUrl)) (Dir true []))
              /\ (fst (downloadAndExtract tempDir https_get tarballUrl "." root) = Ok tempDir
                  <-> exists entries,
                        https_get tarballUrl = Response 200 entries Finished))).
Proof.
  intros Hne Hplain. split.
  - intros root'. unfold Lifecycle.ensureTempDir.
    destruct (existsSync root tempDir) eqn:Hex; simpl.
    + intros [= <-]. repeat split; [exact Hex | discriminate].
    + intros Hmk.
      assert (Hmade : resolve root' tempDir = Some (Dir true [])).
      { apply (resolve_mkdirSync readdir_slot tempDir (Some root) root' Hmk). simpl.
        destruct (not_existsSync root tempDir Hplain Hex) as [Hnone | Hdangling];
          [exact Hnone|].
        rewrite (mkdirSync_dangling readdir_slot tempDir root Hdangling) in Hmk.
        discriminate. }
      split; [unfold existsSync, statSync; now rewrite (lookup_plain _ _ Hplain), Hmade|].
      split; [discriminate | intros _; exact Hmade].
  - intros content Hfile. split; [|split].
    + unfold Lifecycle.ensureTempDir, existsSync, statSync.
      now rewrite (lookup_plain _ _ Hplain), Hfile.
    + intros https_get tarballUrl packageName Hname.
      unfold Extract.downloadAndExtract.
      rewrite (join_plain tempDir (sanitize packageName) Hplain Hname (no_slash_sanitize _)).
      assert (Hex : existsSync root (tempDir ++ [sanitize packageName]) = false).
      { unfold existsSync, statSync. rewrite lookup_plain.
        - now rewrite resolve_app, Hfile.
        - rewrite forallb_app, Hplain. simpl. now rewrite Hname. }
      rewrite Hex, (mkdirSync_blocked readdir_slot tempDir _ root content Hfile). eauto.
    + intros https_get tarballUrl Hremoved.
      destruct (exists_last Hne) as (parent & s & Hlast).
      destruct (downloadAndExtract_at readdir_slot rm_outcome tar_links tempDir https_get
                  tarballUrl "." root parent s) as (outcome & root' & Hrun & Htree & Hok & _).
      * rewrite <- Hlast. exact (extractPath_dot tempDir Hplain).
      * apply (resolve_parent parent s root (File content)). now rewrite <- Hlast.
      * rewrite <- Hlast, Hfile. discriminate.
      * intros e He. rewrite <- Hlast in He |- *. rewrite Hfile in He.
        injection He as <-. exact Hremoved.
      * rewrite Hrun. simpl. rewrite Hlast. now split.
Qed.

End FileSystem.

(** On the sample server with a sandbox in [temp]: where the file system
    refuses no removal, [cleanup] leaves nothing and logs nothing; where it
    refuses every removal, [cleanup] logs the error and the tree is as it
    was. *)
Lemma cleanup_removes_tempDir_witness :
  cleanup Samples.lists_last Samples.removes_all Samples.temp_dir Samples.server_root
  = (None, Dir true [("srv", Dir true [])])
  /\ cleanup Samples.lists_last Samples.removes_nothing Samples.temp_dir Samples.server_root
     = (Some "Failed to cleanup temp directory: Error: EACCES: permission denied, rm",
        Samples.server_root).
Proof.
  destruct (cleanup_removes_tempDir Samples.lists_last Samples.removes_all Samples.temp_dir
              Samples.server_root ltac:(discriminate) eq_refl) as (_ & _ & Hremoved).
  destruct (cleanup_removes_tempDir Samples.lists_last Samples.removes_nothing
              Samples.temp_dir Samples.server_root ltac:(discriminate) eq_refl)
    as (_ & _ & Hrefused).
  destruct (Hremoved _ eq_refl ltac:(discriminate)) as [Hquiet _].
  destruct (Hrefused _ eq_refl ltac:(discriminate)) as [Hlogged _].
  split.
  - rewrite (surjective_pairing (cleanup _ _ _ _)), Hquiet. reflexivity.
  - rewrite (surjective_pairing (cleanup _ _ _ _)), Hlogged. reflexivity.
Defined.

(** A server that finds a file at [temp]: [ensureTempDir] leaves it, an
    extraction of [left-pad] is rejected, and an extraction for the name
    [.] replaces the file by its sandbox. *)
Lemma ensureTempDir_keeps_what_exists_witness :
  ensureTempDir Samples.lists_last Samples.temp_dir Scenarios.blocked_root
  = Some Scenarios.blocked_root
  /\ (exists e,
        downloadAndExtract Samples.lists_last Samples.removes_all Samples.no_links
          Samples.temp_dir Samples.two_archives "https://registry.npmjs.org/first.tgz"
          "left-pad" Scenarios.blocked_root
        = (Err e, Scenarios.blocked_root))
  /\ fst (downloadAndExtract Samples.lists_last Samples.removes_all Samples.no_links
            Samples.temp_dir Samples.two_archives "https://registry.npmjs.org/second.tgz"
            "." Scenarios.blocked_root)
     = Ok ["srv"; "temp"]
  /\ resolve
       (snd (downloadAndExtract Samples.lists_last Samples.removes_all Samples.no_links
               Samples.temp_dir Samples.two_archives "https://registry.npmjs.org/second.tgz"
               "." Scenarios.blocked_root))
       ["srv"; "temp"]
     = Some (Dir true [("main.js", File (Some "two"))]).
Proof.
  destruct (ensureTempDir_keeps_what_exists Samples.lists_last Samples.removes_all
              Samples.no_links Samples.temp_dir Scenarios.blocked_root ltac:(discriminate)
              eq_refl)
    as [_ Hfile].
  destruct (Hfile (Some "not a directory") eq_refl) as (Hkept & Hrejected & Hdot).
  split; [exact Hkept|].
  split; [exact (Hrejected Samples.two_archives "https://registry.npmjs.org/first.tgz"
                   "left-pad" eq_refl)|].
  destruct (Hdot Samples.two_archives "https://registry.npmjs.org/second.tgz" eq_refl)
    as [Htree Hok].
  split; [apply Hok; now exists Samples.second_archive | exact Htree].
Defined.

End LifecycleFacts.

(* ------------------------------------------------------------------------- *)
(** ** Tools, the resource and the handler's catch *)
(* ------------------------------------------------------------------------- *)

Module ToolsFacts.
Import Js Dynamic Path Fs Walk Files Registry Search Extract Tools Resources StringFacts
  SearchFacts.

Lemma bad_packageName_cases (packageName : jsval) :
  bad_packageName packageName = false ->
  exists c name, packageName = Some (JStr (String c name)).
Proof.
  unfold bad_packageName.
  destruct packageName as [[| b | x | [|c name] | xs | members]|]; simpl;
    try discriminate; try (now destruct b); try (now destruct (negb _)).
  intros _. eauto.
Qed.



Section Server.

Variable readdir_slot : string -> list string -> nat.
Variable rm_outcome : path -> entry -> removal.
Variable tar_links : list tar_entry -> list (string * entry) -> list (string * entry).
Variable tempDir : path.
Variable https_get : string -> download.
Variable invalid_path_message : json -> string.

Local Abbreviation getNpmPackageCode :=
  (getNpmPackageCode readdir_slot rm_outcome tar_links tempDir https_get
     invalid_path_message).
Local Abbreviation listPackageFiles :=
  (listPackageFiles readdir_slot rm_outcome tar_links tempDir https_get).



(** X17.  Called with an arguments object, [getNpmPackageCode] and
    [listPackageFiles] test [packageName] before anything else: missing,
    empty or not a string, it is refused with [InvalidParams] and the file
    tree is not touched.  When the metadata lookup fails, nothing is
    downloaded: the error is [InternalError] with the tool's prefix before
    the cause, and the tree, with what an earlier call extracted, stays as
    it is.  An empty [filePath] is treated as no [filePath].  Called
    without an arguments object, both fail before that test with the
    [TypeError] of the destructuring, which the handler wraps as
    [InternalError] "Tool execution failed: ..."; the tree is not touched
    either. *)
Theorem package_tools_reject_early
    (codeArgs : GetPackageCodeArgs) (listArgs : ListPackageFilesArgs)
    (fetched : result Fetched) (root : entry) :
  let code := getNpmPackageCode (Some codeArgs) fetched root in
  let list := listPackageFiles (Some listArgs) fetched root in
  (bad_packageName (gpc_packageName codeArgs) = true ->
   code = (Err (McpError InvalidParams "packageName is required and must be a string"), root))
  /\ (bad_packageName (Registry.packageName listArgs) = true ->
      list = (Err (McpError InvalidParams "packageName is required and must be a string"), root))
  /\ (forall e, fetched = Err e ->
      (bad_packageName (gpc_packageName codeArgs) = false ->
       code = (Err (McpError InternalError
                      ("Failed to fetch package code: " +:+ message_of e)), root))
      /\ (bad_packageName (Registry.packageName listArgs) = false ->
          list = (Err (McpError InternalError
                         ("Failed to list package files: " +:+ message_of e)), root)))
  /\ getNpmPackageCode
       (Some {| gpc_packageName := gpc_packageName codeArgs;
                gpc_version := gpc_version codeArgs;
                gpc_filePath := Some (JStr "") |}) fetched root
     = getNpmPackageCode
         (Some {| gpc_packageName := gpc_packageName codeArgs;
                  gpc_version := gpc_version codeArgs;
                  gpc_filePath := None |}) fetched root
  /\ getNpmPackageCode None fetched root
     = (Err (Error "Cannot destructure property 'packageName' of 'args' as it is undefined."),
        root)
  /\ listPackageFiles None fetched root
     = (Err (Error "Cannot destructure property 'packageName' of 'args' as it is undefined."),
        root)
  /\ tool_catch (fst (getNpmPackageCode None fetched root))
     = Err (McpError InternalError
              "Tool execution failed: Cannot destructure property 'packageName' of 'args' as it is undefined.")
  /\ tool_catch (fst (listPackageFiles None fetched root))
     = Err (McpError InternalError
              "Tool execution failed: Cannot destructure property 'packageName' of 'args' as it is undefined.").
Proof.
  intros code list. split; [|split; [|split; [|split]]].
  - unfold code, Tools.getNpmPackageCode. intros Hbad.
    destruct (gpc_packageName codeArgs) as [[| b | x | name | xs | members]|]; try reflexivity.
    now rewrite Hbad.
  - unfold list, Tools.listPackageFiles. intros Hbad.
    destruct (Registry.packageName listArgs) as [[| b | x | name | xs | members]|];
      try reflexivity.
    now rewrite Hbad.
  - intros e ->. split; intros Hgood.
    + unfold code, Tools.getNpmPackageCode.
      destruct (bad_packageName_cases _ Hgood) as (c & name & Hname).
      rewrite Hname in *. now rewrite Hgood.
    + unfold list, Tools.listPackageFiles.
      destruct (bad_packageName_cases _ Hgood) as (c & name & Hname).
      rewrite Hname in *. now rewrite Hgood.
  - reflexivity.
  - repeat split.
Qed.

End Server.

Section Runtime.

Variable npm_search : nat -> request -> response json.
Variable toFixed1 : float -> string.
Variable number_toString : float -> string.
Variable string_toNumber : string -> float.
Variable toLocaleDateString : jsval -> string.
Variable toISOString : Z -> string.

Local Abbreviation searchNpmPackages :=
  (searchNpmPackages npm_search toFixed1 number_toString string_toNumber toLocaleDateString).
Local Abbreviation getPopularPackages :=
  (getPopularPackages npm_search number_toString string_toNumber toLocaleDateString
     toISOString).
Local Abbreviation digest :=
  (digest number_toString string_toNumber toLocaleDateString toISOString).
Local Abbreviation readResource :=
  (readResource npm_search number_toString string_toNumber toLocaleDateString toISOString).



(** X18.  Reading the resource [npm://popular-packages] has two outcomes.
    It returns a text that is not empty, and that text is what the cache
    holds afterwards; or, when the cache was not fresh and the digest
    could not be built from what the registry answered, it fails with an
    [McpError] with code [InternalError] and the cause after "Failed to
    fetch popular packages: ", and the cache is as it was.  Every other URI
    is refused with [InvalidParams]; nothing is sent and the cache is not
    touched. *)
Theorem readResource_outcomes (uri : string) (now stamp : Z) (st : state) :
  match fst (readResource "npm://popular-packages" now stamp st) with
  | Ok contents =>
      exists text,
        contents = text_content text
        /\ text <> ""
        /\ popularPackagesCache (snd (readResource "npm://popular-packages" now stamp st))
           = Some text
  | Err e =>
      cache_is_fresh st now = false
      /\ (exists found cause,
            seed_searches npm_search (firstn 5 popularQueries) ([], []) st
            = (Ok found, sent st (map seed_request (firstn 5 popularQueries)))
            /\ digest stamp (snd found) = Err cause
            /\ e = McpError InternalError
                     ("Failed to fetch popular packages: " +:+ message_of cause))
      /\ snd (readResource "npm://popular-packages" now stamp st)
         = sent st (map seed_request (firstn 5 popularQueries))
  end
  /\ (uri <> "npm://popular-packages" ->
      readResource uri now stamp st
      = (Err (McpError InvalidParams ("Unknown resource: " +:+ uri)), st)).
Proof.
  split.
  - assert (Hread : readResource "npm://popular-packages" now stamp st
                    = getPopularPackages now stamp st) by reflexivity.
    rewrite Hread. clear Hread.
    destruct (cache_is_fresh st now) eqn:Hfresh.
    + assert (Hrun : getPopularPackages now stamp st
                     = (Ok (text_content (default "" (popularPackagesCache st))), st)).
      { unfold Search.getPopularPackages. now rewrite Hfresh. }
      rewrite Hrun. unfold cache_is_fresh in Hfresh.
      destruct (popularPackagesCache st) as [cached|] eqn:Hcache; [|discriminate].
      exists cached. simpl. repeat split; [|exact Hcache].
      intros ->. discriminate.
    + destruct (getPopularPackages_recomputes npm_search number_toString string_toNumber
                  toLocaleDateString toISOString st now stamp Hfresh)
        as (found & Hseeds & ->).
      destruct (digest stamp (snd found)) as [resultText | cause] eqn:Hdigest; simpl.
      * exists resultText. repeat split.
        exact (digest_nonempty _ _ _ _ _ _ _ Hdigest).
      * split; [reflexivity|]. split; [|reflexivity].
        exists found, cause. now repeat split.
  - intros Hother. apply String.eqb_neq in Hother.
    unfold Resources.readResource. now rewrite Hother.
Qed.


End Runtime.

End ToolsFacts.
